(** * Air-quality feature pipelines: slugs, secrets, registry and per-sensor runs

    A shallow embedding of the three ingestion scripts

      - [scripts/1_feat_back_param.py]  (registry-driven backfill),
      - [scripts/2_feature_pipeline.py] (registry-driven daily update),
      - [scripts/1_feature_backfill.py] (stand-alone single-sensor backfill),

    together with the properties stated about them.

    Python [str] values are sequences of Unicode code points and are modelled
    as [list N].  The secret store and the feature store are services reached
    through a client library; they are modelled as explicit state with a
    schedule of transport faults, and the data-acquisition helpers of
    [mlfs.airquality.util] as an environment of functions. *)

From Stdlib Require Import ZArith NArith QArith List String Ascii Bool Lia DecimalString.
From stdpp Require Import base option list gmap.
Import ListNotations.
Local Open Scope N_scope.

(** ** Python strings *)

Abbreviation pystr := (list N).

(** Code points of an ASCII literal. *)
Definition py (s : string) : pystr :=
  List.map N_of_ascii (list_ascii_of_string s).

Definition HYPHEN : N := 45.
Definition UNDERSCORE : N := 95.
Definition CAPITAL_SIGMA : N := 931.      (* U+03A3 *)
Definition SMALL_SIGMA : N := 963.        (* U+03C3 *)
Definition SMALL_FINAL_SIGMA : N := 962.  (* U+03C2 *)

(** *** The ASCII range, as CPython classifies it *)

(** [_Py_ascii_whitespace]: TAB, LF, VT, FF, CR, FS, GS, RS, US and SPACE. *)
Definition ascii_isspace (c : N) : bool :=
  ((9 <=? c) && (c <=? 13)) || ((28 <=? c) && (c <=? 32)).

Definition ascii_isupper (c : N) : bool := (65 <=? c) && (c <=? 90).
Definition ascii_islower (c : N) : bool := (97 <=? c) && (c <=? 122).
Definition ascii_isdigit (c : N) : bool := (48 <=? c) && (c <=? 57).

Definition ascii_isalnum (c : N) : bool :=
  ascii_isupper c || ascii_islower c || ascii_isdigit c.

Definition ascii_tolower (c : N) : N :=
  if ascii_isupper c then c + 32 else c.

Section Slug.

(** *** The Unicode character database outside ASCII

    [str.strip], [str.lower] and the [re] classes [\w] and [\s] consult the
    Unicode database of the interpreter.  Its non-ASCII part is a parameter
    of the development; the ASCII part is fixed above. *)
Variable uni_isspace : N -> bool.          (* Py_UNICODE_ISSPACE *)
Variable uni_isalnum : N -> bool.          (* Py_UNICODE_ISALNUM *)
Variable uni_tolower : N -> list N.        (* _PyUnicode_ToLowerFull *)
Variable final_sigma : list N -> list N -> bool.
  (* the Final_Sigma context test of [handle_capital_sigma], on the
     characters before and after the capital sigma *)

Definition is_space (c : N) : bool :=
  if c <? 128 then ascii_isspace c else uni_isspace c.

(** [\w] of a [str] pattern: alphanumeric or underscore. *)
Definition is_word (c : N) : bool :=
  (c =? UNDERSCORE) || (if c <? 128 then ascii_isalnum c else uni_isalnum c).

Definition tolower_full (c : N) : list N :=
  if c <? 128 then [ascii_tolower c] else uni_tolower c.

(** [lower_ucs4]: the capital sigma is the one context-sensitive case. *)
Definition lower_ucs4 (before : list N) (c : N) (after : list N) : list N :=
  if c =? CAPITAL_SIGMA
  then [if final_sigma before after then SMALL_FINAL_SIGMA else SMALL_SIGMA]
  else tolower_full c.

(** [str.lower]: [do_lower] walks the string and maps each character,
    looking at the original string for the sigma context. *)
Fixpoint lower_from (before : list N) (s : list N) : list N :=
  match s with
  | [] => []
  | c :: after => lower_ucs4 before c after ++ lower_from (before ++ [c]) after
  end.

Definition str_lower (s : pystr) : pystr := lower_from [] s.

(** [str.strip] with no argument. *)
Fixpoint lstrip (s : pystr) : pystr :=
  match s with
  | [] => []
  | c :: s' => if is_space c then lstrip s' else s
  end.

Definition rstrip (s : pystr) : pystr := rev (lstrip (rev s)).

Definition str_strip (s : pystr) : pystr := rstrip (lstrip s).

(** [re.sub(r"[^\w\s-]", "", text)]: every character outside the class
    [\w\s-] is deleted. *)
Definition keeps (c : N) : bool := is_word c || is_space c || (c =? HYPHEN).

Definition sub_drop (s : pystr) : pystr := List.filter keeps s.

(** [re.sub(r"[\s-]+", "_", text)]: every maximal run of separators becomes
    one underscore.  [in_run] records that the previous character belonged
    to the run being replaced. *)
Definition is_sep (c : N) : bool := is_space c || (c =? HYPHEN).

Fixpoint sub_runs (in_run : bool) (s : pystr) : pystr :=
  match s with
  | [] => []
  | c :: s' =>
      if is_sep c
      then (if in_run then sub_runs true s' else UNDERSCORE :: sub_runs true s')
      else c :: sub_runs false s'
  end.

(** [slugify] of both registry-driven scripts (the two copies are
    identical). *)
Definition slugify (text : pystr) : pystr :=
  let text := str_lower (str_strip text) in
  let text := sub_drop text in
  let text := sub_runs false text in
  text.

End Slug.

(** ** A concrete table for U+0080..U+00FF

    The Latin-1 Supplement block of the Unicode database; code points above
    it are treated as caseless symbols, the capital sigma apart.  It is used
    to run the definitions on examples whose characters lie below U+0100. *)
Module Latin1.

Definition uni_isspace (c : N) : bool := (c =? 133) || (c =? 160).

Definition letter (c : N) : bool :=
  ((192 <=? c) && (c <=? 255)) && negb (c =? 215) && negb (c =? 247).

Definition uni_isalnum (c : N) : bool :=
  letter c || (c =? 170) || (c =? 178) || (c =? 179) || (c =? 181)
  || (c =? 185) || (c =? 186) || (c =? 188) || (c =? 189) || (c =? 190).

Definition uni_tolower (c : N) : list N :=
  if ((192 <=? c) && (c <=? 222)) && negb (c =? 215) then [c + 32]
  else if c =? CAPITAL_SIGMA then [SMALL_SIGMA]
  else [c].

Definition final_sigma (_ _ : list N) : bool := false.

Definition slugify : pystr -> pystr :=
  slugify uni_isspace uni_isalnum uni_tolower final_sigma.

End Latin1.

(** ** Exceptions, values and data frames *)

(** Only subclasses of [Exception] are modelled: they are what the client
    libraries and the helpers raise. *)
Inductive ExnClass :=
| RestAPIError | KeyError | ValueError | TypeError | AttributeError
| RuntimeError | FileNotFoundError | OtherException.

Record Exn := mkExn { exn_class : ExnClass; exn_msg : pystr }.

(** A pandas timestamp: the calendar day and the time of day in nanoseconds
    since midnight. *)
Record Timestamp := mkTs { ts_day : Z; ts_tod : N }.

(** Cell values; floating-point numbers are taken as rationals, and [VNaN]
    is the missing value of every column type ([NaN], [NaT], [None]). *)
Inductive Value :=
| VStr (s : pystr)
| VNum (q : Q)
| VTime (t : Timestamp)
| VNaN.

(** A frame is the list of its rows; a row maps column names to values, in
    column order. *)
Definition Row := list (pystr * Value).
Definition DataFrame := list Row.

Fixpoint row_get (col : pystr) (r : Row) : option Value :=
  match r with
  | [] => None
  | (c, v) :: r' => if bool_decide (c = col) then Some v else row_get col r'
  end.

(** Assignment [df[col] = v] on one row: overwrite in place, or append a new
    column at the end. *)
Fixpoint row_set (col : pystr) (v : Value) (r : Row) : Row :=
  match r with
  | [] => [(col, v)]
  | (c, x) :: r' =>
      if bool_decide (c = col) then (c, v) :: r' else (c, x) :: row_set col v r'
  end.

Definition df_set (col : pystr) (v : Value) (df : DataFrame) : DataFrame :=
  List.map (row_set col v) df.

Definition row_del (col : pystr) (r : Row) : Row :=
  List.filter (fun cv => negb (bool_decide (fst cv = col))) r.

Definition is_nan (v : Value) : bool :=
  match v with VNaN => true | _ => false end.

(** [df.dropna()]: rows holding a missing value are dropped. *)
Definition dropna (df : DataFrame) : DataFrame :=
  List.filter (fun r => negb (existsb (fun cv => is_nan (snd cv)) r)) df.

(** ** Expectation suites *)

Record ExpectationConfiguration := mkExpectation {
  expectation_type : pystr;
  ec_column : pystr;
  min_value : Q;
  max_value : Q;
  strict_min : bool;
}.

Record ExpectationSuite := mkSuite {
  suite_name : pystr;
  expectations : list ExpectationConfiguration;
}.

Definition ge_suite_air_quality : ExpectationSuite :=
  mkSuite (py "aq_expectation_suite")
    [ mkExpectation (py "expect_column_min_to_be_between") (py "pm25")
        (-1 # 10)%Q (500 # 1)%Q true ].

Definition ge_suite_weather : ExpectationSuite :=
  let add_min_gt_zero col :=
    mkExpectation (py "expect_column_min_to_be_between") col
      (-1 # 10)%Q (1000 # 1)%Q true in
  mkSuite (py "weather_expectation_suite")
    [ add_min_gt_zero (py "precipitation_sum");
      add_min_gt_zero (py "wind_speed_10m_max") ].

(** Numbers held by a column. *)
Definition column_nums (col : pystr) (df : DataFrame) : list Q :=
  omap (fun r => match row_get col r with Some (VNum q) => Some q | _ => None end) df.

Definition Qmin_list (q : Q) (qs : list Q) : Q :=
  fold_left (fun a b => if Qle_bool a b then a else b) qs q.

(** The expectation [expect_column_min_to_be_between] as the validation
    library documents it: the minimum of the column lies above [min_value]
    (strictly when [strict_min]) and does not exceed [max_value].  A frame
    that lacks the column, or whose column holds no number, has no minimum
    and fails the expectation. *)
Definition column_min_between (e : ExpectationConfiguration) (df : DataFrame) : bool :=
  match column_nums (ec_column e) df with
  | [] => false
  | q :: qs =>
      let m := Qmin_list q qs in
      (if strict_min e then negb (Qle_bool m (min_value e)) else Qle_bool (min_value e) m)
      && Qle_bool m (max_value e)
  end.

Definition reference_validate (s : ExpectationSuite) (df : DataFrame) : bool :=
  forallb (fun e => column_min_between e df) (expectations s).

(** ** The environment of a run *)

(** What the feature store does with a frame that fails its suite: refuse
    the insert, or store the rows and keep the report. *)
Inductive IngestionPolicy := STRICT | ALWAYS.

Record Env := mkEnv {
  (* interpreter *)
  env_isspace : N -> bool;
  env_isalnum : N -> bool;
  env_tolower : N -> list N;
  env_final_sigma : list N -> list N -> bool;
  json_dumps : list (pystr * pystr) -> pystr;
  date_str : Z -> pystr;                       (* str(date) *)
  float_of_str : pystr -> option (option Q);   (* float(s): a number, nan, or
                                                  ValueError *)
  round_float32 : Q -> Q;                      (* the nearest float32 *)
  (* mlfs.airquality.util and pandas.read_csv *)
  check_file_path : pystr -> Exn + list pystr; (* lines it prints *)
  read_csv : pystr -> Exn + DataFrame;
  get_historical_weather : pystr -> Z -> Z -> pystr -> pystr -> Exn + DataFrame;
  get_pm25 : pystr -> pystr -> pystr -> pystr -> Z -> pystr -> Exn + DataFrame;
  get_hourly_weather_forecast : pystr -> pystr -> pystr -> Exn + DataFrame;
  (* services *)
  ge_validate : ExpectationSuite -> DataFrame -> bool;
  ingestion_policy : IngestionPolicy;
  unique_secret_names : bool;
}.

Definition slug (E : Env) : pystr -> pystr :=
  slugify (env_isspace E) (env_isalnum E) (env_tolower E) (env_final_sigma E).

Definition strip (E : Env) : pystr -> pystr := str_strip (env_isspace E).

(** ** The world: secret store, feature store, console, faults *)

Record Secret := mkSecret { secret_name : pystr; secret_value : pystr }.

Record FeatureGroup := mkFG {
  fg_description : pystr;
  fg_primary_key : list pystr;
  fg_event_time : pystr;
  fg_suite : ExpectationSuite;
  fg_rows : DataFrame;
  fg_feature_descriptions : list (pystr * pystr);
}.

(** [faults] schedules the outcome of the coming service calls: [Some e]
    makes the call raise [e], [None] lets it through; an exhausted schedule
    lets every call through. *)
Record World := mkWorld {
  secrets : list Secret;
  feature_groups : gmap (list N * Z) FeatureGroup;   (* by name and version *)
  stdout : list pystr;
  faults : list (option Exn);
}.

Definition set_secrets (f : list Secret -> list Secret) (w : World) : World :=
  mkWorld (f (secrets w)) (feature_groups w) (stdout w) (faults w).
Definition set_feature_groups
    (f : gmap (list N * Z) FeatureGroup -> gmap (list N * Z) FeatureGroup)
    (w : World) : World :=
  mkWorld (secrets w) (f (feature_groups w)) (stdout w) (faults w).
Definition set_stdout (f : list pystr -> list pystr) (w : World) : World :=
  mkWorld (secrets w) (feature_groups w) (f (stdout w)) (faults w).
Definition set_faults (fs : list (option Exn)) (w : World) : World :=
  mkWorld (secrets w) (feature_groups w) (stdout w) fs.

(** Computations that may raise and that act on the world. *)
Definition M (A : Type) : Type := World -> (Exn + A) * World.

Definition ret {A} (x : A) : M A := fun w => (inr x, w).

Definition bind {A B} (m : M A) (f : A -> M B) : M B := fun w =>
  match m w with
  | (inl e, w') => (inl e, w')
  | (inr a, w') => f a w'
  end.

Notation "x <~ m ; k" := (bind m (fun x => k))
  (at level 100, m at next level, right associativity).
Notation "m >> k" := (bind m (fun _ => k))
  (at level 100, right associativity).

Definition raise {A} (e : Exn) : M A := fun w => (inl e, w).

(** [try: m except Exception as e: h e] *)
Definition try_except {A} (m : M A) (h : Exn -> M A) : M A := fun w =>
  match m w with
  | (inl e, w') => h e w'
  | (inr a, w') => (inr a, w')
  end.

Definition lift {A} (r : Exn + A) : M A := fun w => (r, w).

Definition print (line : pystr) : M unit := fun w =>
  (inr tt, set_stdout (fun out => out ++ [line]) w).

Definition print_all (lines : list pystr) : M unit := fun w =>
  (inr tt, set_stdout (fun out => out ++ lines) w).

(** Every call to a service first meets the fault schedule. *)
Definition service_call : M unit := fun w =>
  match faults w with
  | Some e :: fs => (inl e, set_faults fs w)
  | None :: fs => (inr tt, set_faults fs w)
  | [] => (inr tt, w)
  end.

(** *** Secret store client *)

Definition has_name (name : pystr) (s : Secret) : bool :=
  bool_decide (secret_name s = name).

Fixpoint remove_first (name : pystr) (l : list Secret) : list Secret :=
  match l with
  | [] => []
  | s :: l' => if has_name name s then l' else s :: remove_first name l'
  end.

Definition get_secret (name : pystr) : M (option Secret) :=
  service_call >> (fun w => (inr (List.find (has_name name) (secrets w)), w)).

Definition secret_delete (s : Secret) : M unit :=
  service_call >>
  (fun w => (inr tt, set_secrets (remove_first (secret_name s)) w)).

Definition create_secret (E : Env) (name value : pystr) : M unit :=
  service_call >>
  (fun w =>
     if unique_secret_names E && existsb (has_name name) (secrets w)
     then (inl (mkExn RestAPIError (py "Secret already exists")), w)
     else (inr tt, set_secrets (fun l => l ++ [mkSecret name value]) w)).

(** [save_secret] of the backfill script. *)
Definition save_secret (E : Env) (name value : pystr) : M unit :=
  try_except
    (existing <~ get_secret name;
     match existing with
     | Some s =>
         secret_delete s >>
         print (py "Replacing existing secret: " ++ name)
     | None => ret tt
     end)
    (fun _ => ret tt) >>
  create_secret E name value.

(** *** Feature store client *)

(** [fs.get_or_create_feature_group]: an existing group is returned as it
    is, otherwise the group is registered with the given schema and suite.
    The handle is the key of the group. *)
Definition get_or_create_feature_group
    (name description : pystr) (version : Z) (primary_key : list pystr)
    (event_time : pystr) (suite : ExpectationSuite) : M (list N * Z) :=
  service_call >>
  (fun w =>
     match feature_groups w !! (name, version) with
     | Some _ => (inr (name, version), w)
     | None =>
         (inr (name, version),
          set_feature_groups
            (fun m => <[(name, version) :=
                         mkFG description primary_key event_time suite [] []]> m) w)
     end).

(** [fs.get_feature_group]: fails when the group does not exist. *)
Definition get_feature_group (name : pystr) (version : Z) : M (list N * Z) :=
  service_call >>
  (fun w =>
     match feature_groups w !! (name, version) with
     | Some _ => (inr (name, version), w)
     | None => (inl (mkExn RestAPIError (py "Feature group not found")), w)
     end).

Definition fg_append (df : DataFrame) (g : FeatureGroup) : FeatureGroup :=
  mkFG (fg_description g) (fg_primary_key g) (fg_event_time g) (fg_suite g)
       (fg_rows g ++ df) (fg_feature_descriptions g).

(** [fg.insert(df)]: the frame is checked against the suite attached to the
    group; under [STRICT] a failing frame is refused, under [ALWAYS] it is
    stored all the same.  Accepted rows are appended. *)
Definition fg_insert (E : Env) (h : list N * Z) (df : DataFrame) : M unit :=
  service_call >>
  (fun w =>
     match feature_groups w !! h with
     | None => (inl (mkExn RestAPIError (py "Feature group not found")), w)
     | Some g =>
         match ingestion_policy E, ge_validate E (fg_suite g) df with
         | STRICT, false =>
             (inl (mkExn RestAPIError (py "Data validation failed")), w)
         | _, _ => (inr tt, set_feature_groups (fun m => <[h := fg_append df g]> m) w)
         end
     end).

Definition fg_describe (feature text : pystr) (g : FeatureGroup) : FeatureGroup :=
  mkFG (fg_description g) (fg_primary_key g) (fg_event_time g) (fg_suite g)
       (fg_rows g) (fg_feature_descriptions g ++ [(feature, text)]).

Definition update_feature_description (h : list N * Z) (feature text : pystr) : M unit :=
  service_call >>
  (fun w =>
     match feature_groups w !! h with
     | None => (inl (mkExn RestAPIError (py "Feature group not found")), w)
     | Some g => (inr tt, set_feature_groups (fun m => <[h := fg_describe feature text g]> m) w)
     end).

(** Rows held by the group [name] (version 1); none when it does not exist. *)
Definition stored_rows (name : pystr) (w : World) : DataFrame :=
  match feature_groups w !! (name, 1%Z) with
  | Some g => fg_rows g
  | None => []
  end.

(** ** Frames of readings *)

Definition has_cols (cols : list pystr) (r : Row) : bool :=
  forallb (fun c => bool_decide (is_Some (row_get c r))) cols.

(** [df[[c1; ...; cn]].copy()] *)
Definition select_cols (cols : list pystr) (df : DataFrame) : Exn + DataFrame :=
  if forallb (has_cols cols) df
  then inr (List.map (fun r => List.map (fun c => (c, default VNaN (row_get c r))) cols) df)
  else inl (mkExn KeyError (py "column not in index")).

(** The two floating-point types the scripts convert to. *)
Inductive FloatType := float32 | double.

Definition round_to (E : Env) (t : FloatType) (q : Q) : Q :=
  match t with
  | float32 => round_float32 E q
  | double => q
  end.

(** One cell under [astype]: a number is rounded to the target type, a
    missing value stays missing, text is read as [float] reads it, and a
    timestamp does not convert. *)
Definition to_float (E : Env) (t : FloatType) (v : Value) : Exn + Value :=
  match v with
  | VNum q => inr (VNum (round_to E t q))
  | VNaN => inr VNaN
  | VStr s =>
      match float_of_str E s with
      | Some (Some q) => inr (VNum (round_to E t q))
      | Some None => inr VNaN
      | None => inl (mkExn ValueError (py "could not convert string to float: " ++ s))
      end
  | VTime _ => inl (mkExn TypeError (py "Cannot cast DatetimeArray to dtype float"))
  end.

(** The rows with their cell [col] converted, in order; the first cell that
    does not convert raises. *)
Fixpoint convert_rows (E : Env) (t : FloatType) (col : pystr) (df : DataFrame)
  : Exn + DataFrame :=
  match df with
  | [] => inr []
  | r :: df' =>
      match to_float E t (default VNaN (row_get col r)) with
      | inl e => inl e
      | inr v =>
          match convert_rows E t col df' with
          | inl e => inl e
          | inr rest => inr (row_set col v r :: rest)
          end
      end
  end.

(** [df[col] = df[col].astype(t)] *)
Definition astype_float (E : Env) (t : FloatType) (col : pystr) (df : DataFrame)
  : Exn + DataFrame :=
  if negb (forallb (has_cols [col]) df)
  then inl (mkExn KeyError col)
  else convert_rows E t col df.

(** The type of the [date] column that [pd.read_csv(..., parse_dates=["date"])]
    gives a frame: timestamps when the file has rows and every date in it
    was parsed (or is missing); otherwise, and for a file that holds a
    header only, the column keeps the general object type. *)
Inductive Dtype := datetime64 | object.

Definition is_date_cell (r : Row) : bool :=
  match row_get (py "date") r with
  | Some (VTime _) | Some VNaN => true
  | _ => false
  end.

Definition date_dtype (df : DataFrame) : Dtype :=
  match df with
  | [] => object
  | _ :: _ => if forallb is_date_cell df then datetime64 else object
  end.

Definition row_day (r : Row) : option Z :=
  match row_get (py "date") r with
  | Some (VTime t) => Some (ts_day t)
  | _ => None
  end.

(** [pd.Series.min(df["date"]).strftime("%Y-%m-%d")] for a [date] column of
    type [dtype]: the earliest calendar day of the column, missing
    timestamps skipped.  A column of timestamps without any timestamp has
    the minimum [NaT], whose [strftime] raises [ValueError]; the minimum of
    an object column is a [float] ([nan], when the column is empty) or a
    [str], and neither has a [strftime]. *)
Definition earliest_date (dtype : Dtype) (df : DataFrame) : Exn + Z :=
  match dtype with
  | object => inl (mkExn AttributeError (py "object has no attribute 'strftime'"))
  | datetime64 =>
      match omap row_day df with
      | [] => inl (mkExn ValueError (py "NaTType does not support strftime"))
      | d :: ds => inr (fold_left Z.min ds d)
      end
  end.

(** ** Sensor registry *)

(** The registry as [pd.read_csv(path, dtype=str)] returns it: a header and
    rows of cells, a cell being absent where the file has none. *)
Record Registry := mkRegistry {
  reg_columns : list pystr;
  reg_rows : list (list (option pystr));
}.

(** One registry row after [fillna("")], indexed by column name. *)
Definition SensorRow := list (pystr * pystr).

Fixpoint fillna_row (cols : list pystr) (cells : list (option pystr)) : SensorRow :=
  match cols with
  | [] => []
  | c :: cols' =>
      (c, default [] (mjoin (head cells))) :: fillna_row cols' (tail cells)
  end.

Definition fillna (reg : Registry) : list SensorRow :=
  List.map (fillna_row (reg_columns reg)) (reg_rows reg).

Fixpoint series_lookup (col : pystr) (row : SensorRow) : option pystr :=
  match row with
  | [] => None
  | (c, v) :: row' => if bool_decide (c = col) then Some v else series_lookup col row'
  end.

(** [row[col]] *)
Definition series_item (col : pystr) (row : SensorRow) : M pystr :=
  match series_lookup col row with
  | Some v => ret v
  | None => raise (mkExn KeyError (py "'" ++ col ++ py "'"))
  end.

(** [row.get(col, "")] *)
Definition series_get (col : pystr) (row : SensorRow) : pystr :=
  default [] (series_lookup col row).

Definition required_cols : list pystr :=
  [py "AQICN_URL"; py "country"; py "city"; py "street"; py "latitude"; py "longitude"].

(** Code-point order on strings, and [sorted] by insertion. *)
Fixpoint str_ltb (a b : pystr) : bool :=
  match a, b with
  | _, [] => false
  | [], _ :: _ => true
  | x :: a', y :: b' => (x <? y) || ((x =? y) && str_ltb a' b')
  end.

Fixpoint insert_sorted (x : pystr) (l : list pystr) : list pystr :=
  match l with
  | [] => [x]
  | y :: l' => if str_ltb y x then y :: insert_sorted x l' else x :: l
  end.

Definition sorted (l : list pystr) : list pystr :=
  fold_right insert_sorted [] l.

(** [required_cols - set(columns)] *)
Definition missing_cols (columns : list pystr) : list pystr :=
  List.filter (fun c => negb (bool_decide (c ∈ columns))) required_cols.

(** [repr] of a list of plain identifiers. *)
Fixpoint join (sep : pystr) (l : list pystr) : pystr :=
  match l with
  | [] => []
  | [x] => x
  | x :: l' => x ++ sep ++ join sep l'
  end.

Definition repr_str (s : pystr) : pystr := py "'" ++ s ++ py "'".

Definition repr_list (l : list pystr) : pystr :=
  py "[" ++ join (py ", ") (List.map repr_str l) ++ py "]".

Definition str_of_nat (n : nat) : pystr :=
  py (DecimalString.NilZero.string_of_uint (Nat.to_uint n)).

(** ** Runs *)

Record Config := mkConfig {
  AQICN_API_KEY : option pystr;            (* settings.AQICN_API_KEY *)
  AQICN_URL : pystr;
  AQICN_COUNTRY : pystr;
  AQICN_CITY : pystr;
  AQICN_STREET : pystr;
  root_dir : pystr;
  SENSORS_CSV : option pystr;              (* os.environ *)
  registry_at : pystr -> option (Exn + Registry);
    (* the file system: no file, a file that [pd.read_csv] refuses (no
       columns to parse, a row with too many fields), or a registry *)
  today : Z;                               (* date.today() *)
}.

Definition path_join (a b : pystr) : pystr := a ++ py "/" ++ b.

Definition sensors_csv (cfg : Config) : pystr :=
  default (path_join (path_join (root_dir cfg) (py "data")) (py "sensors.csv"))
          (SENSORS_CSV cfg).

(** How a script ends: it runs off its end, calls [sys.exit], or dies of an
    exception nobody caught. *)
Inductive Termination :=
| Completed
| Exited (code : Z)
| Uncaught (e : Exn).

Definition exit_code (t : Termination) : Z :=
  match t with
  | Completed => 0
  | Exited c => c
  | Uncaught _ => 1
  end.

Definition run_script (m : M unit) (w : World) : Termination * World :=
  match m w with
  | (inr _, w') => (Completed, w')
  | (inl e, w') => (Uncaught e, w')
  end.

Fixpoint for_each {A} (body : A -> M unit) (l : list A) : M unit :=
  match l with
  | [] => ret tt
  | x :: l' => body x >> for_each body l'
  end.

Definition NL : pystr := [10].
Definition CHECK_MARK : pystr := [10003].

(** The handler of the per-sensor [try] in both [main]s. *)
Definition report_error (row : SensorRow) (e : Exn) : M unit :=
  let city := series_get (py "city") row in
  let street := series_get (py "street") row in
  print (py "! Error processing " ++ city ++ py " / " ++ street ++ py ": " ++ exn_msg e).

(** Fields of a registry row, as both [process_sensor]s read them:
    [str(row[col]).strip()]. *)
Record SensorFields := mkFields {
  f_aqicn_url : pystr;
  f_country : pystr;
  f_city : pystr;
  f_street : pystr;
  f_latitude : pystr;
  f_longitude : pystr;
}.

Definition read_fields (E : Env) (row : SensorRow) : M SensorFields :=
  aqicn_url <~ series_item (py "AQICN_URL") row;
  country <~ series_item (py "country") row;
  city <~ series_item (py "city") row;
  street <~ series_item (py "street") row;
  latitude <~ series_item (py "latitude") row;
  longitude <~ series_item (py "longitude") row;
  ret (mkFields (strip E aqicn_url) (strip E country) (strip E city)
                (strip E street) (strip E latitude) (strip E longitude)).

(** [df["country"] = country] and the three assignments after it. *)
Definition tag_rows (f : SensorFields) (df : DataFrame) : DataFrame :=
  df_set (py "url") (VStr (f_aqicn_url f))
    (df_set (py "street") (VStr (f_street f))
       (df_set (py "city") (VStr (f_city f))
          (df_set (py "country") (VStr (f_country f)) df))).

Definition location_json (E : Env) (f : SensorFields) : pystr :=
  json_dumps E
    [ (py "country", f_country f); (py "city", f_city f);
      (py "street", f_street f); (py "aqicn_url", f_aqicn_url f);
      (py "latitude", f_latitude f); (py "longitude", f_longitude f) ].

(** ** [scripts/1_feat_back_param.py] *)
Module Backfill.

(** Convention: [data/<street_slug>.csv] *)
Definition air_quality_csv_path (E : Env) (cfg : Config) (street : pystr) : pystr :=
  path_join (path_join (root_dir cfg) (py "data")) (slug E street ++ py ".csv").

Definition aq_fg_name (E : Env) (street : pystr) : pystr :=
  py "air_quality_" ++ slug E street.

Definition weather_fg_name (E : Env) (street : pystr) : pystr :=
  py "weather_" ++ slug E street.

(** The air-quality frame built from the historical file, with the type of
    its [date] column. *)
Definition load_aq (E : Env) (cfg : Config) (f : SensorFields)
  : M (Dtype * DataFrame) :=
  let aq_csv := air_quality_csv_path E cfg (f_street f) in
  lines <~ lift (check_file_path E aq_csv);
  print_all lines >>
  (df <~ lift (read_csv E aq_csv);
   df_aq <~ lift (select_cols [py "date"; py "pm25"] df);
   df_aq <~ lift (astype_float E float32 (py "pm25") df_aq);
   ret (date_dtype df, tag_rows f (dropna df_aq))).

(** [process_sensor] up to the secrets: the sensor's fields, its
    air-quality frame and its weather frame. *)
Definition prepare (E : Env) (cfg : Config) (row : SensorRow)
    (aq_api_key : pystr) : M (SensorFields * DataFrame * DataFrame) :=
  f <~ read_fields E row;
  let street_slug := slug E (f_street f) in
  print (NL ++ py "=== Processing sensor: " ++ f_city f ++ py " / "
            ++ f_street f ++ py " ===") >>
  (aq <~ load_aq E cfg f;
   let df_aq := snd aq in
   earliest_aq_date <~ lift (earliest_date (fst aq) df_aq);
   weather_df <~ lift (get_historical_weather E (f_city f) earliest_aq_date
                         (today cfg) (f_latitude f) (f_longitude f));
   save_secret E (py "AQICN_API_KEY") aq_api_key >>
   save_secret E (py "SENSOR_LOCATION_JSON_" ++ street_slug) (location_json E f) >>
   ret (f, df_aq, weather_df)).

(** The rest of [process_sensor]: the two feature groups and their
    inserts. *)
Definition store (E : Env) (f : SensorFields) (df_aq weather_df : DataFrame) : M unit :=
  let aq_suite := ge_suite_air_quality in
  let weather_suite := ge_suite_weather in
  air_quality_fg <~ get_or_create_feature_group
                       (aq_fg_name E (f_street f))
                       (py "Air Quality per day (" ++ f_street f ++ py ", "
                           ++ f_city f ++ py ")")
                       1 [py "country"; py "city"; py "street"] (py "date") aq_suite;
  df_aq <~ lift (astype_float E double (py "pm25") df_aq);
  fg_insert E air_quality_fg df_aq >>
  (weather_fg <~ get_or_create_feature_group
                   (weather_fg_name E (f_street f))
                   (py "Weather per day (" ++ f_street f ++ py ", "
                       ++ f_city f ++ py ")")
                   1 [py "city"] (py "date") weather_suite;
   fg_insert E weather_fg weather_df >>
   print (CHECK_MARK ++ py " Completed: " ++ f_city f ++ py " / " ++ f_street f)).

Definition process_sensor (E : Env) (cfg : Config) (row : SensorRow)
    (aq_api_key : pystr) : M unit :=
  p <~ prepare E cfg row aq_api_key;
  store E (fst (fst p)) (snd (fst p)) (snd p).

(** The loop of [main]. *)
Definition sensor_loop (E : Env) (cfg : Config) (aq_api_key : pystr)
    (rows : list SensorRow) : M unit :=
  for_each (fun row => try_except (process_sensor E cfg row aq_api_key)
                                  (report_error row)) rows.

Definition main (E : Env) (cfg : Config) (w : World) : Termination * World :=
  match AQICN_API_KEY cfg with
  | None => (Exited 1, snd (print (py "You need to set AQICN_API_KEY in .env") w))
  | Some aq_api_key =>
      match registry_at cfg (sensors_csv cfg) with
      | None =>
          (Exited 1, snd (print (py "Missing sensors CSV: " ++ sensors_csv cfg) w))
      | Some (inl e) => (Uncaught e, w)   (* [pd.read_csv] raises, outside any [try] *)
      | Some (inr reg) =>
          let sensors_df := fillna reg in
          let missing := missing_cols (reg_columns reg) in
          match missing with
          | _ :: _ =>
              (Exited 1,
               snd (print (py "Missing required columns in sensors CSV: "
                             ++ repr_list (sorted missing)) w))
          | [] =>
              run_script
                (print (py "Processing " ++ str_of_nat (length sensors_df)
                          ++ py " sensors from " ++ sensors_csv cfg) >>
                 sensor_loop E cfg aq_api_key sensors_df >>
                 print (NL ++ py "All sensors processed.")) w
          end
      end
  end.

End Backfill.

(** ** [scripts/2_feature_pipeline.py] *)
Module Daily.

Definition NS_PER_MINUTE : N := 60 * 1000000000.
Definition MICROS_PER_MINUTE : N := 60 * 1000000.

(** 11:59 and 12:01 as times of day, in microseconds since midnight. *)
Definition WINDOW_START : N := (11 * 60 + 59) * MICROS_PER_MINUTE.
Definition WINDOW_END : N := (12 * 60 + 1) * MICROS_PER_MINUTE.

(** [DatetimeIndex._get_time_micros]: the time of day in whole
    microseconds, what is left of a microsecond being cut off. *)
Definition time_micros (t : Timestamp) : N := ts_tod t / 1000.

Definition row_time (r : Row) : option Timestamp :=
  match row_get (py "date") r with
  | Some (VTime t) => Some t
  | _ => None
  end.

Definition in_window (t : Timestamp) : bool :=
  (WINDOW_START <=? time_micros t) && (time_micros t <=? WINDOW_END).

(** [df.set_index("date").between_time("11:59", "12:01").reset_index()]:
    the rows whose time of day lies in the window, both ends included, in
    their order; the index comes back as the first column.  The index has
    to hold timestamps; a row whose timestamp is missing has no time of day
    and is left out.  The index of a forecast without rows is taken to hold
    timestamps. *)
Definition between_time_noon (df : DataFrame) : Exn + DataFrame :=
  if negb (forallb (has_cols [py "date"]) df)
  then inl (mkExn KeyError (py "date"))
  else if negb (forallb is_date_cell df)
  then inl (mkExn TypeError (py "Index must be DatetimeIndex"))
  else inr (List.map
              (fun r => (py "date", default VNaN (row_get (py "date") r))
                          :: row_del (py "date") r)
              (List.filter
                 (fun r => match row_time r with
                           | Some t => in_window t
                           | None => false
                           end) df)).

(** [pd.to_datetime(pd.to_datetime(col).dt.date)]: the day is kept, the
    time of day becomes midnight. *)
Definition normalize_value (v : Value) : Value :=
  match v with
  | VTime t => VTime (mkTs (ts_day t) 0)
  | other => other
  end.

Definition normalize_date (r : Row) : Row :=
  List.map (fun cv => if bool_decide (fst cv = py "date")
                      then (fst cv, normalize_value (snd cv)) else cv) r.

(** The daily weather frame derived from the hourly forecast. *)
Definition daily_weather (city : pystr) (hourly_df : DataFrame) : Exn + DataFrame :=
  match between_time_noon hourly_df with
  | inl e => inl e
  | inr daily_df =>
      inr (df_set (py "city") (VStr city) (List.map normalize_date daily_df))
  end.

Definition get_aqicn_api_key (cfg : Config) : M pystr :=
  match AQICN_API_KEY cfg with
  | Some key => ret key
  | None =>
      try_except
        (s <~ get_secret (py "AQICN_API_KEY");
         match s with
         | Some s => ret (secret_value s)
         | None => raise (mkExn AttributeError (py "NoneType has no attribute value"))
         end)
        (fun _ => raise (mkExn RuntimeError
                           (py "AQICN_API_KEY not found in .env or Hopsworks secrets")))
  end.

Definition get_sensor_rows (reg : Registry) : M (list SensorRow) :=
  let df := fillna reg in
  let missing := missing_cols (reg_columns reg) in
  match missing with
  | _ :: _ =>
      raise (mkExn ValueError
               (py "Missing columns in sensors CSV: " ++ repr_list (sorted missing)))
  | [] => ret df
  end.

Definition aq_fg_name (E : Env) (street : pystr) : pystr :=
  py "air_quality_" ++ slug E street.

Definition weather_fg_name (E : Env) (street : pystr) : pystr :=
  py "weather_" ++ slug E street.

(** [process_sensor] up to the feature groups: the sensor's fields,
    today's air-quality frame and the daily weather frame. *)
Definition acquire (E : Env) (cfg : Config) (row : SensorRow)
    (aq_api_key : pystr) : M (SensorFields * DataFrame * DataFrame) :=
  f <~ read_fields E row;
  print (NL ++ py "=== Daily update: " ++ f_city f ++ py " / " ++ f_street f
            ++ py " (" ++ date_str E (today cfg) ++ py ") ===") >>
  print (py "get pm25 called") >>
  (aq_today_df <~ lift (get_pm25 E (f_aqicn_url f) (f_country f) (f_city f)
                          (f_street f) (today cfg) aq_api_key);
   aq_today_df <~ lift (astype_float E double (py "pm25") aq_today_df);
   let aq_today_df := tag_rows f aq_today_df in
   print (py "get hourly weather called") >>
   (hourly_df <~ lift (get_hourly_weather_forecast E (f_city f)
                         (f_latitude f) (f_longitude f));
    daily_df <~ lift (daily_weather (f_city f) hourly_df);
    ret (f, aq_today_df, daily_df))).

(** The rest of [process_sensor]: the lookups of the two feature groups
    and the inserts. *)
Definition store (E : Env) (f : SensorFields) (aq_today_df daily_df : DataFrame) : M unit :=
  aq_fg <~ get_feature_group (aq_fg_name E (f_street f)) 1;
  wx_fg <~ get_feature_group (weather_fg_name E (f_street f)) 1;
  fg_insert E aq_fg aq_today_df >>
  fg_insert E wx_fg daily_df >>
  print (CHECK_MARK ++ py " Completed: " ++ f_city f ++ py " / " ++ f_street f).

Definition process_sensor (E : Env) (cfg : Config) (row : SensorRow)
    (aq_api_key : pystr) : M unit :=
  p <~ acquire E cfg row aq_api_key;
  store E (fst (fst p)) (snd (fst p)) (snd p).

Definition sensor_loop (E : Env) (cfg : Config) (aq_api_key : pystr)
    (rows : list SensorRow) : M unit :=
  for_each (fun row => try_except (process_sensor E cfg row aq_api_key)
                                  (report_error row)) rows.

Definition main_body (E : Env) (cfg : Config) : M unit :=
  aq_api_key <~ get_aqicn_api_key cfg;
  match registry_at cfg (sensors_csv cfg) with
  | None =>
      raise (mkExn FileNotFoundError (py "Missing sensors CSV: " ++ sensors_csv cfg))
  | Some (inl e) => raise e   (* [pd.read_csv] raises in [get_sensor_rows] *)
  | Some (inr reg) =>
      sensors_df <~ get_sensor_rows reg;
      print (py "Processing " ++ str_of_nat (length sensors_df)
               ++ py " sensors from " ++ sensors_csv cfg) >>
      sensor_loop E cfg aq_api_key sensors_df >>
      print (NL ++ py "All sensors processed.")
  end.

Definition main (E : Env) (cfg : Config) (w : World) : Termination * World :=
  run_script (main_body E cfg) w.

End Daily.

(** ** [scripts/1_feature_backfill.py]

    The stand-alone backfill of the one sensor named in the settings.  The
    tables that [df.info()] prints are left out of the console. *)
Module SingleSensor.

Definition csv_file (cfg : Config) : pystr :=
  root_dir cfg ++ py "/data/schottenfeldgasse.csv".

Definition latitude : pystr := py "48.200458".
Definition longitude : pystr := py "16.343257".

Definition settings_fields (cfg : Config) : SensorFields :=
  mkFields (AQICN_URL cfg) (AQICN_COUNTRY cfg) (AQICN_CITY cfg) (AQICN_STREET cfg)
           latitude longitude.

(** The inline replace-then-create of a secret. *)
Definition replace_secret (E : Env) (name value : pystr) : M unit :=
  try_except
    (secret <~ get_secret name;
     match secret with
     | Some s =>
         secret_delete s >>
         print (py "Replacing existing " ++ name)
     | None => ret tt
     end)
    (fun _ => ret tt) >>
  create_secret E name value.

(** [try: ... except hopsworks.RestAPIError: ...] *)
Definition try_except_rest {A} (m : M A) (h : M A) : M A := fun w =>
  match m w with
  | (inl (mkExn RestAPIError msg), w') => h w'
  | other => other
  end.

Definition describe_all (h : list N * Z) (l : list (pystr * pystr)) : M unit :=
  for_each (fun d => update_feature_description h (fst d) (snd d)) l.

(** "Validate API token quickly" *)
Definition validate_token (E : Env) (cfg : Config) (api_key : pystr) : M unit :=
  let f := settings_fields cfg in
  try_except_rest
    (lift (get_pm25 E (f_aqicn_url f) (f_country f) (f_city f) (f_street f)
             (today cfg) api_key) >>
     print (py "AQICN_API_KEY appears to work for the sensor."))
    (print (py "AQICN_API_KEY failed for your sensor. Check the key and sensor URL.")).

(** The script from "Load and clean AQ CSV" to its end. *)
Definition ingest (E : Env) (cfg : Config) : M unit :=
  let f := settings_fields cfg in
  (df <~ lift (read_csv E (csv_file cfg));
   df_aq <~ lift (select_cols [py "date"; py "pm25"] df);
   df_aq <~ lift (astype_float E float32 (py "pm25") df_aq);
   let df_aq := tag_rows f (dropna df_aq) in
   earliest_aq_date <~ lift (earliest_date (date_dtype df) df_aq);
   weather_df <~ lift (get_historical_weather E (f_city f) earliest_aq_date
                         (today cfg) latitude longitude);
   replace_secret E (py "SENSOR_LOCATION_JSON") (location_json E f) >>
   (air_quality_fg <~ get_or_create_feature_group
                        (py "air_quality")
                        (py "Air Quality characteristics of each day")
                        1 [py "country"; py "city"; py "street"] (py "date")
                        ge_suite_air_quality;
    df_aq <~ lift (astype_float E double (py "pm25") df_aq);
    fg_insert E air_quality_fg df_aq >>
    describe_all air_quality_fg
      [ (py "date", py "Date of measurement of air quality");
        (py "country", py "Country (sometimes a city in aqicn.org)");
        (py "city", py "City where the air quality was measured");
        (py "street", py "Street where the air quality was measured");
        (py "pm25", py "PM2.5 (" ++ [956] ++ py "g/m3)") ] >>
    (weather_fg <~ get_or_create_feature_group
                     (py "weather")
                     (py "Weather characteristics of each day")
                     1 [py "city"] (py "date") ge_suite_weather;
     fg_insert E weather_fg weather_df >>
     describe_all weather_fg
       [ (py "date", py "Date of weather measurement");
         (py "city", py "City for weather");
         (py "temperature_2m_mean", py "Temperature in Celsius");
         (py "precipitation_sum", py "Precipitation (mm)");
         (py "wind_speed_10m_max", py "Max wind speed at 10m");
         (py "wind_direction_10m_dominant", py "Dominant wind direction") ] >>
     print (py "Backfill complete.")))).

Definition body (E : Env) (cfg : Config) (api_key : pystr) : M unit :=
  print (py "Found AQICN_API_KEY: " ++ api_key) >>
  replace_secret E (py "AQICN_API_KEY") api_key >>
  validate_token E cfg api_key >>
  ingest E cfg.

Definition script (E : Env) (cfg : Config) (w : World) : Termination * World :=
  match (lines <~ lift (check_file_path E (csv_file cfg)); print_all lines) w with
  | (inl e, w1) => (Uncaught e, w1)
  | (inr _, w1) =>
      match AQICN_API_KEY cfg with
      | None =>
          (Exited 1,
           snd (print (py "You need to set AQICN_API_KEY either in .env or here.") w1))
      | Some api_key => run_script (body E cfg api_key) w1
      end
  end.

End SingleSensor.

(** ** A reference environment for examples

    Latin-1 code tables, the reference evaluator of expectation suites, and
    data sources that serve fixed frames. *)
Module Ref.

Definition day0 : Z := 19000.

Definition aq_file (pm25 : Q) : DataFrame :=
  [ [ (py "date", VTime (mkTs day0 0)); (py "pm25", VNum pm25) ] ].

Definition weather_frame (precipitation : Q) : DataFrame :=
  [ [ (py "date", VTime (mkTs day0 0)); (py "city", VStr (py "Wien"));
      (py "temperature_2m_mean", VNum (12 # 1));
      (py "precipitation_sum", VNum precipitation);
      (py "wind_speed_10m_max", VNum (7 # 1));
      (py "wind_direction_10m_dominant", VNum (180 # 1)) ] ].

Definition hourly_frame (stamps : list Timestamp) : DataFrame :=
  List.map (fun t => [ (py "date", VTime t);
                       (py "temperature_2m_mean", VNum (12 # 1));
                       (py "precipitation_sum", VNum (0 # 1));
                       (py "wind_speed_10m_max", VNum (7 # 1));
                       (py "wind_direction_10m_dominant", VNum (180 # 1)) ]) stamps.

Definition at_hour (day : Z) (h : N) : Timestamp :=
  mkTs day (h * 60 * Daily.NS_PER_MINUTE).

(** [float] on plain decimal text: digits with an optional fraction, and
    the text nan for the missing value. *)
Fixpoint digits_value (acc : N) (s : pystr) : option N :=
  match s with
  | [] => Some acc
  | c :: s' => if ascii_isdigit c then digits_value (10 * acc + (c - 48)) s' else None
  end.

Fixpoint split_point (s : pystr) : pystr * pystr :=
  match s with
  | [] => ([], [])
  | c :: s' => if c =? 46 then ([], s')
               else let p := split_point s' in (c :: fst p, snd p)
  end.

Definition float_of_str (s : pystr) : option (option Q) :=
  if bool_decide (s = py "nan") then Some None
  else
    let p := split_point s in
    match fst p ++ snd p with
    | [] => None
    | ds => match digits_value 0 ds with
            | Some n => Some (Some (Z.of_N n # Z.to_pos (10 ^ Z.of_nat (length (snd p)))))
            | None => None
            end
    end.

(** The data sources: the historical file and today's reading hold [pm25],
    the weather holds [precipitation], the forecast is sampled at [hours];
    [today_pm25] is the answer of the pm25 request.  The readings served are
    numbers that [float32] holds exactly. *)
Definition env_of (today_pm25 : Exn + DataFrame) (policy : IngestionPolicy)
    (unique : bool) (pm25 precipitation : Q) (hours : list Timestamp) : Env :=
  mkEnv Latin1.uni_isspace Latin1.uni_isalnum Latin1.uni_tolower Latin1.final_sigma
    (fun kv => py "{" ++ join (py ", ")
                 (List.map (fun p => [34] ++ fst p ++ [34] ++ py ": " ++ [34] ++ snd p ++ [34]) kv)
                 ++ py "}")
    (fun d => py "day")
    float_of_str
    (fun q => q)
    (fun path => inr [py "File successfully found at the path: " ++ path])
    (fun _ => inr (aq_file pm25))
    (fun _ _ _ _ _ => inr (weather_frame precipitation))
    (fun _ _ _ _ _ _ => today_pm25)
    (fun _ _ _ => inr (hourly_frame hours))
    reference_validate policy unique.

Definition env (policy : IngestionPolicy) (unique : bool)
    (pm25 precipitation : Q) (hours : list Timestamp) : Env :=
  env_of (inr (aq_file pm25)) policy unique pm25 precipitation hours.

Definition header : list pystr :=
  [py "AQICN_URL"; py "country"; py "city"; py "street"; py "latitude"; py "longitude"].

Definition sensor_cells (street : option pystr) : list (option pystr) :=
  [ Some (py "https://api.waqi.info/feed/@1"); Some (py "Austria");
    Some (py "Wien"); street; Some (py "48.2"); Some (py "16.3") ].

Definition config (reg : Registry) : Config :=
  mkConfig (Some (py "k3y")) (py "url") (py "Austria") (py "Wien")
           (py "Schottenfeldgasse") (py "/srv") None (fun _ => Some (inr reg)) day0.

Definition empty_world : World := mkWorld [] ∅ [] [].

(** A strict store with unique secret names, serving valid readings. *)
Definition E0 : Env := env STRICT true (10 # 1) (0 # 1) [at_hour day0 12].

(** "Schönbrunner Straße" *)
Definition schoenbrunner : pystr :=
  py "Sch" ++ [246] ++ py "nbrunner Stra" ++ [223] ++ py "e".

End Ref.

(** ** Vocabulary of the statements *)

(** The class [[a-z0-9_]] and the match of [^[a-z0-9_]*$] ([$] also matches
    before one final line feed). *)
Definition slug_char (c : N) : bool :=
  ascii_islower c || ascii_isdigit c || (c =? UNDERSCORE).

Definition matches_slug_re (s : pystr) : bool :=
  forallb slug_char s
  || match rev s with
     | 10 :: t => forallb slug_char t
     | _ => false
     end.

(** A character that lower-casing leaves alone in every context. *)
Definition stable (tolower : N -> list N) (c : N) : Prop :=
  c <> CAPITAL_SIGMA /\ tolower_full tolower c = [c].

(** What the development needs from the Unicode tables outside ASCII:
    letters and digits are not white space, lower-casing yields characters
    that lower-casing leaves alone, and white space has no case. *)
Record unicode_sane (isspace isalnum : N -> bool) (tolower : N -> list N) : Prop := {
  alnum_not_space : forall c, 128 <= c -> isalnum c = true -> isspace c = false;
  lower_stable : forall c d, 128 <= c -> In d (tolower c) -> stable tolower d;
  sigma_stable : stable tolower SMALL_SIGMA /\ stable tolower SMALL_FINAL_SIGMA;
  space_caseless : forall c, 128 <= c -> isspace c = true -> stable tolower c;
}.

Definition env_sane (E : Env) : Prop :=
  unicode_sane (env_isspace E) (env_isalnum E) (env_tolower E).

(** [needle] occurs in [hay]. *)
Definition contains (needle hay : pystr) : Prop :=
  exists pre post, hay = pre ++ needle ++ post.

(** The same, decided. *)
Fixpoint starts_with (needle hay : pystr) : bool :=
  match needle, hay with
  | [], _ => true
  | _ :: _, [] => false
  | x :: needle', y :: hay' => (x =? y) && starts_with needle' hay'
  end.

Fixpoint occurs_in (needle hay : pystr) : bool :=
  starts_with needle hay
  || match hay with
     | [] => false
     | _ :: hay' => occurs_in needle hay'
     end.

(** The required columns in the order that [sorted] gives them, and those
    of them that a header lacks. *)
Definition required_sorted : list pystr :=
  [py "AQICN_URL"; py "city"; py "country"; py "latitude"; py "longitude"; py "street"].

Definition lacking (columns : list pystr) : list pystr :=
  List.filter (fun c => negb (bool_decide (c ∈ columns))) required_sorted.

(** A forecast sample whose time of day lies in the noon window. *)
Definition noon_sample (s : Row) : bool :=
  match Daily.row_time s with
  | Some t => Daily.in_window t
  | None => false
  end.

(** [o] is the daily row of the hourly sample [s] for [city]: its date is
    midnight of the sample's day, and no cell named [date] holds anything
    else; its city is [city]; every other column holds the sample's
    reading. *)
Definition daily_row_of (city : pystr) (s o : Row) : Prop :=
  exists t,
    Daily.row_time s = Some t
    /\ row_get (py "date") o = Some (VTime (mkTs (ts_day t) 0))
    /\ (forall c v, In (c, v) o -> c = py "date" -> v = VTime (mkTs (ts_day t) 0))
    /\ row_get (py "city") o = Some (VStr city)
    /\ (forall c, c <> py "date" -> c <> py "city" -> row_get c o = row_get c s).

(** [m] relates every world to the world it leaves behind, whether it
    returns or raises. *)
Definition respects (R : World -> World -> Prop) {A} (m : M A) : Prop :=
  forall w, R w (snd (m w)).

Definition same_groups (w w' : World) : Prop :=
  feature_groups w' = feature_groups w.

Definition same_stores (w w' : World) : Prop :=
  secrets w' = secrets w /\ feature_groups w' = feature_groups w.

(** Stored rows and console lines are only ever added to. *)
Definition rows_kept (w w' : World) : Prop :=
  forall name, exists extra, stored_rows name w' = stored_rows name w ++ extra.

Definition console_kept (w w' : World) : Prop :=
  exists extra, stdout w' = stdout w ++ extra.

Definition extends (w w' : World) : Prop := rows_kept w w' /\ console_kept w w'.

(** The store takes the frame [df] into the group [g]. *)
Definition accepted (E : Env) (g : FeatureGroup) (df : DataFrame) : Prop :=
  ingestion_policy E = ALWAYS \/ ge_validate E (fg_suite g) df = true.

(** The line that reports a failed sensor. *)
Definition error_line (row : SensorRow) (e : Exn) : pystr :=
  py "! Error processing " ++ series_get (py "city") row ++ py " / "
    ++ series_get (py "street") row ++ py ": " ++ exn_msg e.

(** [loop] runs [process] on the rows in their order and contains its
    failures: at any row of the registry, an exception of [process] is
    reported on the console with the row's city and street and the loop goes
    on with the rows after it; the loop itself never raises; and the rows
    stored before that row are still there at the end. *)
Definition isolates (process : SensorRow -> M unit)
    (loop : list SensorRow -> M unit) : Prop :=
  forall rows1 row rows2 w,
    let w1 := snd (loop rows1 w) in
    let w2 := snd (try_except (process row) (report_error row) w1) in
    loop (rows1 ++ row :: rows2) w = loop rows2 w2
    /\ fst (loop (rows1 ++ row :: rows2) w) = inr tt
    /\ (forall e wa, process row w1 = (inl e, wa) ->
          w2 = set_stdout (fun out => out ++ [error_line row e]) wa)
    /\ (forall wa, process row w1 = (inr tt, wa) -> w2 = wa)
    /\ rows_kept w1 (snd (loop (rows1 ++ row :: rows2) w)).

(** The console line that announces a sensor, in each flow. *)
Definition backfill_announce (E : Env) (row : SensorRow) : pystr :=
  NL ++ py "=== Processing sensor: " ++ strip E (series_get (py "city") row)
     ++ py " / " ++ strip E (series_get (py "street") row) ++ py " ===".

Definition daily_announce (E : Env) (cfg : Config) (row : SensorRow) : pystr :=
  NL ++ py "=== Daily update: " ++ strip E (series_get (py "city") row)
     ++ py " / " ++ strip E (series_get (py "street") row)
     ++ py " (" ++ date_str E (today cfg) ++ py ") ===".

(** The group [name] exists in [w] and the store takes [df] into it. *)
Definition group_accepts (E : Env) (name : pystr) (w : World) (df : DataFrame) : Prop :=
  exists g, feature_groups w !! (name, 1%Z) = Some g /\ accepted E g df.

Definition failed {A} (r : Exn + A) : Prop := exists e, r = inl e.

(** What the storing part of [process_sensor] can leave behind, from the
    world [w] to the world [w'] with result [r], for the air-quality frame
    [aq] and the weather frame [wx] of a sensor whose groups are [aqn] and
    [wxn]: no group but these two changes, and either nothing is stored and
    the sensor fails, or only the air-quality frame is stored and the sensor
    fails, or both frames are stored and the sensor completes.  A frame is
    stored only when the store accepted it. *)
Definition stored_after (E : Env) (aqn wxn : pystr) (aq wx : DataFrame)
    (w w' : World) (r : Exn + unit) : Prop :=
  (forall name, name <> aqn -> name <> wxn ->
     stored_rows name w' = stored_rows name w)
  /\ ((failed r
       /\ stored_rows aqn w' = stored_rows aqn w
       /\ stored_rows wxn w' = stored_rows wxn w)
      \/ (failed r
          /\ group_accepts E aqn w' aq
          /\ stored_rows aqn w' = stored_rows aqn w ++ aq
          /\ stored_rows wxn w' = stored_rows wxn w)
      \/ (r = inr tt
          /\ group_accepts E aqn w' aq
          /\ group_accepts E wxn w' wx
          /\ stored_rows aqn w' = stored_rows aqn w ++ aq
          /\ stored_rows wxn w' = stored_rows wxn w ++ wx)).

(** The fields that [process_sensor] reads off a registry row. *)
Definition row_fields (E : Env) (row : SensorRow) : SensorFields :=
  mkFields (strip E (series_get (py "AQICN_URL") row))
           (strip E (series_get (py "country") row))
           (strip E (series_get (py "city") row))
           (strip E (series_get (py "street") row))
           (strip E (series_get (py "latitude") row))
           (strip E (series_get (py "longitude") row)).

(** The same feature groups exist in both worlds. *)
Definition same_domain (w w' : World) : Prop :=
  forall k, is_Some (feature_groups w' !! k) <-> is_Some (feature_groups w !! k).

(** Every group of [w'] was in [w] already or has its key in [keys]. *)
Definition created_within (keys : list (list N * Z)) (w w' : World) : Prop :=
  forall k, is_Some (feature_groups w' !! k) ->
            is_Some (feature_groups w !! k) \/ In k keys.

(** The two groups of the stand-alone backfill. *)
Definition single_sensor_keys : list (list N * Z) :=
  [(py "air_quality", 1%Z); (py "weather", 1%Z)].

(** * Properties *)

(** ** Slugs *)

Ltac to_prop :=
  repeat first
    [ rewrite orb_true_iff in * | rewrite andb_true_iff in *
    | rewrite orb_false_iff in * | rewrite andb_false_iff in *
    | rewrite negb_true_iff in * | rewrite negb_false_iff in *
    | rewrite N.leb_le in * | rewrite N.leb_gt in *
    | rewrite N.ltb_lt in * | rewrite N.ltb_ge in *
    | rewrite N.eqb_eq in * | rewrite N.eqb_neq in * ].

Lemma Latin1_sane :
  unicode_sane Latin1.uni_isspace Latin1.uni_isalnum Latin1.uni_tolower.
Proof.
  assert (St : forall d, 128 <= d -> (d < 192 \/ 222 < d \/ d = 215) ->
                         d <> CAPITAL_SIGMA -> stable Latin1.uni_tolower d).
  { intros d Hd0 Hd Hs. split; [exact Hs|].
    unfold tolower_full, Latin1.uni_tolower.
    destruct (d <? 128) eqn:E1; [to_prop; lia|].
    destruct ((192 <=? d) && (d <=? 222) && negb (d =? 215)) eqn:E2.
    - exfalso. to_prop. lia.
    - destruct (d =? CAPITAL_SIGMA) eqn:E3; [|reflexivity].
      to_prop. tauto. }
  split.
  - intros c Hc H. unfold Latin1.uni_isalnum, Latin1.letter, Latin1.uni_isspace in *.
    to_prop. lia.
  - intros c d Hc Hin. unfold Latin1.uni_tolower in Hin.
    destruct ((192 <=? c) && (c <=? 222) && negb (c =? 215)) eqn:E2.
    + destruct Hin as [<-|[]]. to_prop. apply St; unfold CAPITAL_SIGMA; lia.
    + destruct (c =? CAPITAL_SIGMA) eqn:E3.
      * destruct Hin as [<-|[]]. apply St; unfold SMALL_SIGMA, CAPITAL_SIGMA; lia.
      * destruct Hin as [<-|[]]. to_prop. apply St; [lia| |tauto].
        unfold CAPITAL_SIGMA in *. lia.
  - split; apply St; unfold SMALL_SIGMA, SMALL_FINAL_SIGMA, CAPITAL_SIGMA; lia.
  - intros c Hc H. unfold Latin1.uni_isspace in H. to_prop.
    apply St; unfold CAPITAL_SIGMA; lia.
Qed.

Section SlugFacts.

Variables (isspace isalnum : N -> bool) (tolower : N -> list N).
Variable fsigma : list N -> list N -> bool.

Local Abbreviation is_space' := (is_space isspace).
Local Abbreviation is_word' := (is_word isalnum).
Local Abbreviation is_sep' := (is_sep isspace).
Local Abbreviation keeps' := (keeps isspace isalnum).
Local Abbreviation lower_from' := (lower_from tolower fsigma).
Local Abbreviation slugify' := (slugify isspace isalnum tolower fsigma).

(** *** Facts that hold for every table *)

Lemma underscore_word : is_word' UNDERSCORE = true.
Proof. reflexivity. Qed.

Lemma underscore_stable : stable tolower UNDERSCORE.
Proof. split; [discriminate | reflexivity]. Qed.

Lemma is_word_not_hyphen c : is_word' c = true -> (c =? HYPHEN) = false.
Proof.
  intros H. destruct (N.eqb_spec c HYPHEN) as [->|]; [|reflexivity].
  vm_compute in H. discriminate.
Qed.

Lemma stable_lower b c a : stable tolower c -> lower_ucs4 tolower fsigma b c a = [c].
Proof.
  intros [Hs Hl]. unfold lower_ucs4.
  destruct (N.eqb_spec c CAPITAL_SIGMA); [contradiction | exact Hl].
Qed.

Lemma lower_from_stable_id s :
  Forall (stable tolower) s -> forall b, lower_from' b s = s.
Proof.
  induction 1 as [|c s Hc _ IH]; intros b; simpl; [reflexivity|].
  rewrite stable_lower by exact Hc. simpl. f_equal. apply IH.
Qed.

Lemma lstrip_id s : Forall (fun c => is_space' c = false) s -> lstrip isspace s = s.
Proof. destruct 1 as [|c s Hc _]; simpl; [reflexivity | now rewrite Hc]. Qed.

Lemma str_strip_id s :
  Forall (fun c => is_space' c = false) s -> str_strip isspace s = s.
Proof.
  intros H. unfold str_strip, rstrip. rewrite (lstrip_id s H).
  rewrite lstrip_id by (apply Forall_rev; exact H). apply rev_involutive.
Qed.

Lemma sub_drop_id s : Forall (fun c => keeps' c = true) s -> sub_drop isspace isalnum s = s.
Proof.
  induction 1 as [|c s Hc _ IH]; simpl; [reflexivity|].
  rewrite Hc. f_equal. exact IH.
Qed.

Lemma sub_runs_id s :
  Forall (fun c => is_sep' c = false) s -> forall b, sub_runs isspace b s = s.
Proof.
  induction 1 as [|c s Hc _ IH]; intros b; simpl; [reflexivity|].
  rewrite Hc. f_equal. apply IH.
Qed.

Lemma lstrip_Forall (P : N -> Prop) s : Forall P s -> Forall P (lstrip isspace s).
Proof.
  induction 1 as [|c s Hc Hs IH]; simpl; [constructor|].
  destruct (is_space' c); [exact IH | now constructor].
Qed.

Lemma str_strip_Forall (P : N -> Prop) s : Forall P s -> Forall P (str_strip isspace s).
Proof.
  intros H. unfold str_strip, rstrip.
  apply Forall_rev, lstrip_Forall, Forall_rev, lstrip_Forall, H.
Qed.

Lemma sub_drop_Forall (P : N -> Prop) s :
  Forall P s -> Forall (fun c => P c /\ keeps' c = true) (sub_drop isspace isalnum s).
Proof.
  induction 1 as [|c s Hc Hs IH]; simpl; [constructor|].
  destruct (keeps' c) eqn:K; [constructor; [split; assumption | exact IH] | exact IH].
Qed.

Lemma sub_runs_Forall (P : N -> Prop) s :
  Forall P s ->
  forall b, Forall (fun c => c = UNDERSCORE \/ (P c /\ is_sep' c = false))
                   (sub_runs isspace b s).
Proof.
  induction 1 as [|c s Hc Hs IH]; intros b; simpl; [constructor|].
  destruct (is_sep' c) eqn:S.
  - destruct b; [apply IH | constructor; [now left | apply IH]].
  - constructor; [right; now split | apply IH].
Qed.

Lemma keeps_not_sep c : keeps' c = true -> is_sep' c = false -> is_word' c = true.
Proof.
  unfold keeps, is_sep. intros K S. apply orb_false_iff in S as [S1 S2].
  rewrite S1, S2 in K. now rewrite !orb_false_r in K.
Qed.

(** Every character of a slug is a word character. *)
Lemma slugify_word x : Forall (fun c => is_word' c = true) (slugify' x).
Proof.
  unfold slugify.
  set (t := str_lower tolower fsigma (str_strip isspace x)).
  assert (K : Forall (fun c => keeps' c = true) (sub_drop isspace isalnum t)).
  { eapply Forall_impl;
      [exact (sub_drop_Forall (fun _ => True) t
                (proj2 (Forall_forall _ _) (fun _ _ => I))) |].
    now intros c [_ K]. }
  eapply Forall_impl; [exact (sub_runs_Forall _ _ K false) |].
  intros c [->|[Kc S]]; [apply underscore_word | now apply keeps_not_sep].
Qed.

(** *** ASCII input *)

Lemma lower_from_ascii s :
  Forall (fun c => c < 128) s ->
  forall b, Forall (fun c => c < 128 /\ ascii_isupper c = false) (lower_from' b s).
Proof.
  induction 1 as [|c s Hc _ IH]; intros b; simpl; [constructor|].
  apply Forall_app. split; [|apply IH].
  unfold lower_ucs4, tolower_full.
  destruct (N.eqb_spec c CAPITAL_SIGMA) as [->|_]; [unfold CAPITAL_SIGMA in Hc; lia|].
  apply N.ltb_lt in Hc as Hc'. rewrite Hc'.
  constructor; [|constructor].
  unfold ascii_tolower. destruct (ascii_isupper c) eqn:U.
  - unfold ascii_isupper in *. to_prop. split; [lia|]. right. lia.
  - split; assumption.
Qed.

Lemma slugify_ascii x :
  Forall (fun c => c < 128) x -> Forall (fun c => slug_char c = true) (slugify' x).
Proof.
  intros Hx. unfold slugify.
  pose proof (sub_drop_Forall _ _
                (lower_from_ascii _ (str_strip_Forall _ _ Hx) [])) as K.
  eapply Forall_impl; [exact (sub_runs_Forall _ _ K false) |].
  intros c [->|[[[Hc U] Kc] S]]; [reflexivity|].
  pose proof (keeps_not_sep c Kc S) as W.
  unfold is_word in W. apply N.ltb_lt in Hc. rewrite Hc in W.
  unfold slug_char. unfold ascii_isalnum in W. rewrite U in W. simpl in W.
  apply orb_true_iff in W as [W|W]; [now rewrite W, orb_true_r | now rewrite W].
Qed.

(** *** Idempotence *)

Hypothesis sane : unicode_sane isspace isalnum tolower.

Lemma is_word_not_space c : is_word' c = true -> is_space' c = false.
Proof.
  unfold is_word, is_space. destruct (c <? 128) eqn:A.
  - unfold ascii_isalnum, ascii_isupper, ascii_islower, ascii_isdigit,
      ascii_isspace, UNDERSCORE. intros H.
    destruct (((9 <=? c) && (c <=? 13)) || ((28 <=? c) && (c <=? 32))) eqn:S;
      [|reflexivity].
    exfalso. to_prop. lia.
  - intros H. apply orb_true_iff in H as [H|H].
    + unfold UNDERSCORE in H. to_prop. lia.
    + apply (alnum_not_space _ _ _ sane); [to_prop; lia | exact H].
Qed.

Lemma lower_ucs4_out_stable b c a d :
  In d (lower_ucs4 tolower fsigma b c a) -> stable tolower d.
Proof.
  unfold lower_ucs4. destruct (N.eqb_spec c CAPITAL_SIGMA) as [->|Hc].
  - intros [<-|[]]. destruct (fsigma b a); apply (sigma_stable _ _ _ sane).
  - unfold tolower_full at 1. destruct (c <? 128) eqn:A.
    + intros [<-|[]]. split.
      * unfold ascii_tolower, ascii_isupper, CAPITAL_SIGMA.
        destruct ((65 <=? c) && (c <=? 90)) eqn:U; to_prop; lia.
      * unfold tolower_full, ascii_tolower, ascii_isupper.
        destruct ((65 <=? c) && (c <=? 90)) eqn:U.
        -- assert ((c + 32 <? 128) = true) as -> by (to_prop; lia).
           assert ((65 <=? c + 32) && (c + 32 <=? 90) = false) as ->
             by (to_prop; lia).
           reflexivity.
        -- now rewrite A, U.
    + apply (lower_stable _ _ _ sane). to_prop. lia.
Qed.

Lemma lower_from_out_stable s : forall b, Forall (stable tolower) (lower_from' b s).
Proof.
  induction s as [|c s IH]; intros b; simpl; [constructor|].
  apply Forall_app. split; [|apply IH].
  apply Forall_forall. intros d Hd. eapply lower_ucs4_out_stable.
  apply list_elem_of_In. exact Hd.
Qed.

Lemma slugify_clean x :
  Forall (fun c => is_word' c = true /\ stable tolower c) (slugify' x).
Proof.
  unfold slugify.
  pose proof (sub_drop_Forall _ _
                (lower_from_out_stable (str_strip isspace x) [])) as K.
  eapply Forall_impl; [exact (sub_runs_Forall _ _ K false) |].
  intros c [->|[[St Kc] S]].
  - split; [apply underscore_word | apply underscore_stable].
  - split; [now apply keeps_not_sep | exact St].
Qed.

Lemma slugify_fixes_clean t :
  Forall (fun c => is_word' c = true /\ stable tolower c) t -> slugify' t = t.
Proof.
  intros H. unfold slugify.
  rewrite str_strip_id
    by (eapply Forall_impl; [exact H|]; intros c [W _]; now apply is_word_not_space).
  unfold str_lower. rewrite lower_from_stable_id
    by (eapply Forall_impl; [exact H|]; now intros c [_ S]).
  rewrite sub_drop_id
    by (eapply Forall_impl; [exact H|]; intros c [W _]; unfold keeps; now rewrite W).
  apply sub_runs_id. eapply Forall_impl; [exact H|]. intros c [W _].
  unfold is_sep. now rewrite is_word_not_space, is_word_not_hyphen.
Qed.

Lemma slugify_idempotent x : slugify' (slugify' x) = slugify' x.
Proof. apply slugify_fixes_clean, slugify_clean. Qed.

End SlugFacts.

Lemma Ref_env_sane policy unique pm25 precipitation hours :
  env_sane (Ref.env policy unique pm25 precipitation hours).
Proof. exact Latin1_sane. Qed.

Lemma forallb_Forall_true {A} (f : A -> bool) l :
  Forall (fun x => f x = true) l -> forallb f l = true.
Proof. induction 1 as [|x l Hx _ IH]; simpl; [reflexivity | now rewrite Hx, IH]. Qed.

(** C4, as amended: [slugify] is a function of its argument alone and is
    idempotent; every character of a slug is a word character (a letter or
    digit of any script, or an underscore); and the slug of an ASCII string
    matches [^[a-z0-9_]*$]. *)
Theorem slug_idempotent_word_chars (E : Env) :
  env_sane E ->
  forall x,
    slug E (slug E x) = slug E x
    /\ Forall (fun c => is_word (env_isalnum E) c = true) (slug E x)
    /\ (Forall (fun c => c < 128) x -> matches_slug_re (slug E x) = true).
Proof.
  intros sane x. split; [|split].
  - apply slugify_idempotent, sane.
  - apply slugify_word.
  - intros Hx. unfold matches_slug_re.
    rewrite forallb_Forall_true; [reflexivity|]. now apply slugify_ascii.
Qed.

Lemma slug_idempotent_word_chars_witness :
  let x := py "  Schottenfeldgasse 12-14 " in
  env_sane Ref.E0
  /\ slug Ref.E0 (slug Ref.E0 x) = slug Ref.E0 x
  /\ Forall (fun c => is_word (env_isalnum Ref.E0) c = true) (slug Ref.E0 x)
  /\ matches_slug_re (slug Ref.E0 x) = true.
Proof.
  intros x.
  destruct (slug_idempotent_word_chars Ref.E0 (Ref_env_sane _ _ _ _ _) x)
    as (Hidem & Hword & Hre).
  split; [apply Ref_env_sane|]. split; [exact Hidem|]. split; [exact Hword|].
  apply Hre. unfold x. repeat constructor.
Defined.

(** C4 as stated fails on a street with letters outside ASCII: the slug of
    "Schönbrunner Straße" keeps the o-umlaut and the sharp s, so it does not
    match [^[a-z0-9_]*$]. *)
Lemma slug_keeps_letters_outside_ascii :
  slug Ref.E0 Ref.schoenbrunner
    = py "sch" ++ [246] ++ py "nbrunner_stra" ++ [223] ++ py "e"
  /\ matches_slug_re (slug Ref.E0 Ref.schoenbrunner) = false.
Proof. split; vm_compute; reflexivity. Qed.

Section BlankStreets.

Variables (isspace isalnum : N -> bool) (tolower : N -> list N).
Variable fsigma : list N -> list N -> bool.

Local Abbreviation space' := (is_space isspace).
Local Abbreviation sep' := (is_sep isspace).
Local Abbreviation slugify'' := (slugify isspace isalnum tolower fsigma).

Lemma lstrip_all_space s :
  Forall (fun c => space' c = true) s -> lstrip isspace s = [].
Proof. induction 1 as [|c s Hc _ IH]; simpl; [reflexivity | now rewrite Hc]. Qed.

Lemma slugify_all_space s :
  Forall (fun c => space' c = true) s -> slugify'' s = [].
Proof.
  intros H. unfold slugify, str_strip. now rewrite (lstrip_all_space s H).
Qed.

Lemma lstrip_In_hyphen s : In HYPHEN s -> In HYPHEN (lstrip isspace s).
Proof.
  induction s as [|c s IH]; simpl; [tauto|].
  intros [->|H].
  - change (space' HYPHEN) with false. now left.
  - destruct (space' c); [now apply IH | now right].
Qed.

Lemma str_strip_In_hyphen s : In HYPHEN s -> In HYPHEN (str_strip isspace s).
Proof.
  intros H. unfold str_strip, rstrip.
  rewrite <- in_rev. apply lstrip_In_hyphen. rewrite <- in_rev.
  now apply lstrip_In_hyphen.
Qed.

Lemma sep_keeps c : sep' c = true -> keeps isspace isalnum c = true.
Proof.
  unfold is_sep, keeps. intros H. rewrite <- orb_assoc, H. apply orb_true_r.
Qed.

Lemma sub_runs_in_run s :
  Forall (fun c => sep' c = true) s -> sub_runs isspace true s = [].
Proof. induction 1 as [|c s Hc _ IH]; simpl; [reflexivity | now rewrite Hc]. Qed.

Hypothesis sane : unicode_sane isspace isalnum tolower.

Lemma sep_stable c : sep' c = true -> stable tolower c.
Proof.
  unfold is_sep, is_space. intros H. apply orb_true_iff in H as [H|H].
  - destruct (c <? 128) eqn:A.
    + unfold ascii_isspace in H. split.
      * unfold CAPITAL_SIGMA. to_prop. lia.
      * unfold tolower_full, ascii_tolower, ascii_isupper. rewrite A.
        destruct ((65 <=? c) && (c <=? 90)) eqn:U; [|reflexivity].
        exfalso. to_prop. lia.
    + apply (space_caseless _ _ _ sane); [to_prop; lia | exact H].
  - apply N.eqb_eq in H as ->. split; [discriminate | reflexivity].
Qed.

Lemma slugify_seps_with_hyphen s :
  Forall (fun c => sep' c = true) s -> In HYPHEN s -> slugify'' s = [UNDERSCORE].
Proof.
  intros Hs Hh. unfold slugify.
  pose proof (str_strip_Forall isspace _ _ Hs) as Ht.
  pose proof (str_strip_In_hyphen _ Hh) as Hin.
  set (t := str_strip isspace s) in *.
  unfold str_lower. rewrite lower_from_stable_id
    by (eapply Forall_impl; [exact Ht|]; apply sep_stable).
  rewrite sub_drop_id by (eapply Forall_impl; [exact Ht|]; apply sep_keeps).
  destruct Ht as [|c t' Hc Ht']; [destruct Hin|].
  simpl. rewrite Hc. now rewrite sub_runs_in_run.
Qed.

End BlankStreets.

(** C9, as amended: a street that is empty or all white space has the empty
    slug, so its readings file is [<root>/data/.csv] and its collections are
    named by the bare prefixes [air_quality_] and [weather_]; a street made
    of white space and at least one hyphen has the slug ["_"], so the file is
    [<root>/data/_.csv] and the collections are [air_quality__] and
    [weather__].  Deriving the slug raises nothing: [slug] is a total
    function. *)
Theorem slug_of_blank_street (E : Env) (cfg : Config) (street : pystr) :
  env_sane E ->
  (Forall (fun c => is_space (env_isspace E) c = true) street ->
     slug E street = []
     /\ Backfill.air_quality_csv_path E cfg street = root_dir cfg ++ py "/data/.csv"
     /\ Backfill.aq_fg_name E street = py "air_quality_"
     /\ Backfill.weather_fg_name E street = py "weather_"
     /\ Daily.aq_fg_name E street = py "air_quality_"
     /\ Daily.weather_fg_name E street = py "weather_")
  /\ (Forall (fun c => is_sep (env_isspace E) c = true) street -> In HYPHEN street ->
     slug E street = py "_"
     /\ Backfill.air_quality_csv_path E cfg street = root_dir cfg ++ py "/data/_.csv"
     /\ Backfill.aq_fg_name E street = py "air_quality__"
     /\ Backfill.weather_fg_name E street = py "weather__"
     /\ Daily.aq_fg_name E street = py "air_quality__"
     /\ Daily.weather_fg_name E street = py "weather__").
Proof.
  intros sane. split.
  - intros H.
    assert (S : slug E street = []) by (now apply slugify_all_space).
    unfold Backfill.air_quality_csv_path, Backfill.aq_fg_name, Backfill.weather_fg_name,
      Daily.aq_fg_name, Daily.weather_fg_name, path_join.
    rewrite S. repeat split; try reflexivity.
    now rewrite <- !app_assoc.
  - intros H Hh.
    assert (S : slug E street = py "_") by (now apply slugify_seps_with_hyphen).
    unfold Backfill.air_quality_csv_path, Backfill.aq_fg_name, Backfill.weather_fg_name,
      Daily.aq_fg_name, Daily.weather_fg_name, path_join.
    rewrite S. repeat split; try reflexivity.
    now rewrite <- !app_assoc.
Qed.

Lemma slug_of_blank_street_witness :
  let cfg := Ref.config (mkRegistry Ref.header []) in
  env_sane Ref.E0
  /\ (slug Ref.E0 (py "   ") = []
      /\ Backfill.air_quality_csv_path Ref.E0 cfg (py "   ") = py "/srv/data/.csv")
  /\ (slug Ref.E0 (py " - - ") = py "_"
      /\ Backfill.aq_fg_name Ref.E0 (py " - - ") = py "air_quality__").
Proof.
  intros cfg. split; [apply Ref_env_sane|]. split.
  - destruct (slug_of_blank_street Ref.E0 cfg (py "   ") (Ref_env_sane _ _ _ _ _))
      as [H1 _].
    destruct H1 as (a & b & _); [repeat constructor | split; [exact a | exact b]].
  - destruct (slug_of_blank_street Ref.E0 cfg (py " - - ") (Ref_env_sane _ _ _ _ _))
      as [_ H2].
    destruct H2 as (a & _ & c & _);
      [repeat constructor | right; left; reflexivity | split; [exact a | exact c]].
Defined.

(** C9 as stated fails on a street that holds a hyphen: the slug of ["-"] is
    ["_"], not the empty string, and the collection is [air_quality__]. *)
Lemma slug_of_hyphen_is_underscore :
  slug Ref.E0 (py "-") = py "_"
  /\ slug Ref.E0 (py "-") <> []
  /\ Backfill.aq_fg_name Ref.E0 (py "-") = py "air_quality__".
Proof. repeat split; try (vm_compute; reflexivity). vm_compute. discriminate. Qed.

(** ** The daily weather sample *)

Lemma date_ne_city : py "date" <> py "city".
Proof. intros H. vm_compute in H. discriminate. Qed.

Lemma row_time_get r t :
  Daily.row_time r = Some t -> row_get (py "date") r = Some (VTime t).
Proof.
  unfold Daily.row_time. destruct (row_get (py "date") r) as [[]|]; try discriminate.
  now intros [= ->].
Qed.

Lemma row_del_no_date r c v : In (c, v) (row_del (py "date") r) -> c <> py "date".
Proof.
  unfold row_del. intros H. apply filter_In in H as [_ H]. simpl in H.
  apply negb_true_iff, bool_decide_eq_false in H. exact H.
Qed.

Lemma row_set_In col x r c v :
  In (c, v) (row_set col x r) -> In (c, v) r \/ (c = col /\ v = x).
Proof.
  induction r as [|[c0 v0] r IH]; simpl.
  - intros [[= <- <-]|[]]. now right.
  - case_bool_decide as Hc.
    + intros [[= <- <-]|H]; [right; now split | left; now right].
    + intros [H|H]; [left; now left|]. destruct (IH H) as [H'|H']; [left; now right | now right].
Qed.

Lemma normalize_date_In r c v :
  In (c, v) (Daily.normalize_date r) ->
  exists v0, In (c, v0) r /\ (c = py "date" -> v = Daily.normalize_value v0)
             /\ (c <> py "date" -> v = v0).
Proof.
  unfold Daily.normalize_date. intros H. apply in_map_iff in H as ([c0 v0] & Heq & Hin).
  simpl in Heq. case_bool_decide as Hc; injection Heq as <- <-.
  - exists v0. repeat split; [exact Hin | tauto].
  - exists v0. repeat split; [exact Hin | tauto].
Qed.

Lemma row_get_set_same col v r : row_get col (row_set col v r) = Some v.
Proof.
  induction r as [|[c x] r IH]; simpl.
  - now rewrite bool_decide_eq_true_2.
  - case_bool_decide as Hc; simpl; [now rewrite bool_decide_eq_true_2|].
    now rewrite bool_decide_eq_false_2.
Qed.

Lemma row_get_set_other col col' v r :
  col' <> col -> row_get col (row_set col' v r) = row_get col r.
Proof.
  intros Hne. induction r as [|[c x] r IH]; simpl.
  - now rewrite bool_decide_eq_false_2.
  - case_bool_decide as Hc; simpl.
    + subst c. now rewrite !bool_decide_eq_false_2.
    + case_bool_decide; [reflexivity | exact IH].
Qed.

Lemma row_get_normalize_other c r :
  c <> py "date" -> row_get c (Daily.normalize_date r) = row_get c r.
Proof.
  intros Hne. unfold Daily.normalize_date.
  induction r as [|[c0 v0] r IH]; [reflexivity|].
  cbn [List.map fst snd]. case_bool_decide as Hd; cbn [row_get].
  - subst c0. rewrite !bool_decide_eq_false_2 by congruence. exact IH.
  - case_bool_decide; [reflexivity | exact IH].
Qed.

Lemma row_get_del_other c r :
  c <> py "date" -> row_get c (row_del (py "date") r) = row_get c r.
Proof.
  intros Hne. unfold row_del. induction r as [|[c0 v0] r IH]; [reflexivity|].
  cbn [List.filter fst]. case_bool_decide as Hd; cbn [negb row_get].
  - subst c0. rewrite bool_decide_eq_false_2 by congruence. exact IH.
  - case_bool_decide; [reflexivity | exact IH].
Qed.

(** The row that [daily_weather] makes of a sample. *)
Lemma daily_row_of_sample city s :
  noon_sample s = true ->
  daily_row_of city s
    (row_set (py "city") (VStr city)
       (Daily.normalize_date
          ((py "date", default VNaN (row_get (py "date") s)) :: row_del (py "date") s))).
Proof.
  unfold noon_sample. destruct (Daily.row_time s) as [t|] eqn:T; [|discriminate].
  intros _. exists t. rewrite (row_time_get s t T). cbn [default].
  split; [exact T|]. split; [|split; [|split]].
  - rewrite row_get_set_other by (intros H; now apply date_ne_city).
    cbn [Daily.normalize_date List.map fst snd row_get].
    now rewrite !bool_decide_eq_true_2.
  - intros c v Hin Hc. subst c.
    apply row_set_In in Hin as [Hin|[Hc _]]; [|now destruct date_ne_city].
    apply normalize_date_In in Hin as (v0 & Hin & Hd & _).
    destruct Hin as [[= <-]|Hin]; [now apply Hd|].
    now apply row_del_no_date in Hin.
  - apply row_get_set_same.
  - intros c Hd Hc.
    rewrite row_get_set_other by congruence.
    rewrite row_get_normalize_other by exact Hd.
    cbn [row_get]. rewrite bool_decide_eq_false_2 by congruence.
    now apply row_get_del_other.
Qed.

Lemma daily_weather_inv city hourly daily :
  Daily.daily_weather city hourly = inr daily ->
  daily = List.map
            (fun r => row_set (py "city") (VStr city)
                        (Daily.normalize_date
                           ((py "date", default VNaN (row_get (py "date") r))
                              :: row_del (py "date") r)))
            (List.filter noon_sample hourly).
Proof.
  unfold Daily.daily_weather, Daily.between_time_noon.
  destruct (negb _); [discriminate|]. destruct (negb _); [discriminate|].
  intros [= <-]. unfold df_set. now rewrite !map_map.
Qed.

Lemma Forall2_map_filter {A B} (p : A -> bool) (f : A -> B) (R : A -> B -> Prop) l :
  (forall x, p x = true -> R x (f x)) ->
  Forall2 R (List.filter p l) (List.map f (List.filter p l)).
Proof.
  intros H. induction l as [|x l IH]; [constructor|].
  cbn [List.filter]. destruct (p x) eqn:Hp; [|exact IH].
  cbn [List.map]. constructor; [now apply H | exact IH].
Qed.

Lemma Forall2_In_r {A B} (R : A -> B -> Prop) l l' y :
  Forall2 R l l' -> In y l' -> exists x, In x l /\ R x y.
Proof.
  induction 1 as [|x y' l l' Hxy _ IH]; [intros []|].
  intros [<-|Hin]; [exists x; split; [now left | exact Hxy]|].
  destruct (IH Hin) as (x' & Hx' & Hr). exists x'. split; [now right | exact Hr].
Qed.

(** One daily row for each sample in the window, in the order of the
    forecast. *)
Lemma daily_weather_rows city hourly daily :
  Daily.daily_weather city hourly = inr daily ->
  Forall2 (daily_row_of city) (List.filter noon_sample hourly) daily.
Proof.
  intros H. rewrite (daily_weather_inv _ _ _ H).
  apply Forall2_map_filter. intros s Hs. now apply daily_row_of_sample.
Qed.

Lemma daily_weather_returns city hourly :
  forallb is_date_cell hourly = true ->
  exists daily, Daily.daily_weather city hourly = inr daily.
Proof.
  intros Hd. unfold Daily.daily_weather, Daily.between_time_noon.
  assert (Hc : forallb (has_cols [py "date"]) hourly = true).
  { apply forallb_forall. intros r Hr.
    pose proof (proj1 (forallb_forall _ _) Hd r Hr) as H. unfold is_date_cell in H.
    unfold has_cols. cbn [forallb]. rewrite andb_true_r. apply bool_decide_eq_true.
    destruct (row_get (py "date") r); [eauto | discriminate]. }
  rewrite Hc, Hd. cbn [negb]. eexists. reflexivity.
Qed.

Lemma in_window_bounds t :
  Daily.in_window t = true <-> 43140000000000 <= ts_tod t < 43260000001000.
Proof.
  unfold Daily.in_window, Daily.time_micros, Daily.WINDOW_START, Daily.WINDOW_END,
    Daily.MICROS_PER_MINUTE.
  rewrite andb_true_iff, !N.leb_le.
  change ((11 * 60 + 59) * (60 * 1000000)) with 43140000000.
  change ((12 * 60 + 1) * (60 * 1000000)) with 43260000000.
  pose proof (N.Div0.div_mod (ts_tod t) 1000) as Hdm.
  pose proof (N.mod_lt (ts_tod t) 1000 ltac:(discriminate)) as Hlt.
  generalize dependent (ts_tod t / 1000). generalize dependent (ts_tod t mod 1000).
  intros. lia.
Qed.

(** C3, as amended: the window is the time of day from 11:59 to 12:01, both
    ends included, read in whole microseconds (so up to 12:01:00.000000999);
    a forecast whose [date] cells are timestamps, or missing, always yields
    a daily frame; that frame holds one row for each hourly sample inside
    the window, in the order of the forecast, with the sample's readings,
    the city, and the sample's day at midnight as its date; and when no
    sample falls inside the window the frame is empty. *)
Theorem noon_window_selection (city : pystr) (hourly : DataFrame) :
  (forall t, Daily.in_window t = true
             <-> 43140000000000 <= ts_tod t < 43260000001000)
  /\ (forallb is_date_cell hourly = true ->
      exists daily, Daily.daily_weather city hourly = inr daily)
  /\ (forall daily,
        Daily.daily_weather city hourly = inr daily ->
        Forall2 (daily_row_of city) (List.filter noon_sample hourly) daily
        /\ (Forall (fun s => noon_sample s = false) hourly -> daily = [])).
Proof.
  split; [exact in_window_bounds|]. split; [apply daily_weather_returns|].
  intros daily H. split; [now apply daily_weather_rows|].
  intros Hnone. rewrite (daily_weather_inv _ _ _ H).
  clear H. induction hourly as [|s rows IH]; [reflexivity|].
  apply Forall_cons in Hnone as [Hs Hrows]. cbn [List.filter]. rewrite Hs.
  now apply IH.
Qed.

Lemma noon_window_selection_witness :
  let hourly := Ref.hourly_frame [Ref.at_hour 19000 11; Ref.at_hour 19000 12;
                                  Ref.at_hour 19000 13] in
  let noon := [ (py "date", VTime (Ref.at_hour 19000 12));
                (py "temperature_2m_mean", VNum (12 # 1));
                (py "precipitation_sum", VNum (0 # 1));
                (py "wind_speed_10m_max", VNum (7 # 1));
                (py "wind_direction_10m_dominant", VNum (180 # 1)) ] in
  forallb is_date_cell hourly = true
  /\ List.filter noon_sample hourly = [noon]
  /\ exists daily,
       Daily.daily_weather (py "Wien") hourly = inr daily
       /\ Forall2 (daily_row_of (py "Wien")) [noon] daily.
Proof.
  intros hourly noon.
  assert (Hd : forallb is_date_cell hourly = true) by (vm_compute; reflexivity).
  assert (Hf : List.filter noon_sample hourly = [noon]) by (vm_compute; reflexivity).
  split; [exact Hd|]. split; [exact Hf|].
  destruct (proj1 (proj2 (noon_window_selection (py "Wien") hourly)) Hd) as [daily H].
  exists daily. split; [exact H|]. rewrite <- Hf.
  exact (proj1 (proj2 (proj2 (noon_window_selection (py "Wien") hourly)) daily H)).
Defined.

(** C3 as stated fails both ways: a forecast sampled off the hour (here at
    half past each hour around noon) leaves no sample in the window and the
    daily frame is empty, the nearest sample is not taken; and a forecast of
    two days yields two rows, not one. *)
Lemma noon_window_empty_or_many :
  Daily.daily_weather (py "Wien")
    (Ref.hourly_frame [ mkTs 19000 ((11 * 60 + 30) * Daily.NS_PER_MINUTE);
                        mkTs 19000 ((12 * 60 + 30) * Daily.NS_PER_MINUTE) ])
  = inr []
  /\ (exists r1 r2,
        Daily.daily_weather (py "Wien")
          (Ref.hourly_frame [ Ref.at_hour 19000 12; Ref.at_hour 19001 12 ])
        = inr [r1; r2]).
Proof.
  split; [vm_compute; reflexivity|].
  eexists _, _. vm_compute. reflexivity.
Qed.

(** ** Computations and what they leave behind *)

Section Respects.

Variable R : World -> World -> Prop.
Hypothesis R_refl : forall w, R w w.
Hypothesis R_trans : forall a b c, R a b -> R b c -> R a c.

Lemma respects_ret {A} (x : A) : respects R (ret x).
Proof. intros w. apply R_refl. Qed.

Lemma respects_raise {A} (e : Exn) : respects R (@raise A e).
Proof. intros w. apply R_refl. Qed.

Lemma respects_lift {A} (r : Exn + A) : respects R (lift r).
Proof. intros w. apply R_refl. Qed.

Lemma respects_bind {A B} (m : M A) (f : A -> M B) :
  respects R m -> (forall a, respects R (f a)) -> respects R (bind m f).
Proof.
  intros Hm Hf w. unfold bind. specialize (Hm w).
  destruct (m w) as [[e|a] w1]; simpl in *; [exact Hm|].
  eapply R_trans; [exact Hm | apply Hf].
Qed.

Lemma respects_try_except {A} (m : M A) (h : Exn -> M A) :
  respects R m -> (forall e, respects R (h e)) -> respects R (try_except m h).
Proof.
  intros Hm Hh w. unfold try_except. specialize (Hm w).
  destruct (m w) as [[e|a] w1]; simpl in *; [|exact Hm].
  eapply R_trans; [exact Hm | apply Hh].
Qed.

Lemma respects_for_each {A} (body : A -> M unit) (l : list A) :
  (forall x, respects R (body x)) -> respects R (for_each body l).
Proof.
  intros Hb. induction l as [|x l IH]; simpl.
  - apply respects_ret.
  - apply respects_bind; [apply Hb | intros _; exact IH].
Qed.

End Respects.

Lemma same_groups_refl w : same_groups w w.
Proof. reflexivity. Qed.

Lemma same_groups_trans a b c : same_groups a b -> same_groups b c -> same_groups a c.
Proof. unfold same_groups. congruence. Qed.

Lemma same_stores_refl w : same_stores w w.
Proof. split; reflexivity. Qed.

Lemma same_stores_trans a b c : same_stores a b -> same_stores b c -> same_stores a c.
Proof. unfold same_stores. intros [] []. split; congruence. Qed.

Lemma extends_refl w : extends w w.
Proof.
  split; [intros name|]; exists []; now rewrite app_nil_r.
Qed.

Lemma extends_trans a b c : extends a b -> extends b c -> extends a c.
Proof.
  intros [R1 C1] [R2 C2]. split.
  - intros name. destruct (R1 name) as [x Hx], (R2 name) as [y Hy].
    exists (x ++ y). now rewrite Hy, Hx, app_assoc.
  - destruct C1 as [x Hx], C2 as [y Hy]. exists (x ++ y). now rewrite Hy, Hx, app_assoc.
Qed.

(** Worlds that agree on the groups agree on the stored rows. *)
Lemma same_groups_rows w w' name :
  same_groups w w' -> stored_rows name w' = stored_rows name w.
Proof. unfold same_groups, stored_rows. now intros ->. Qed.

Lemma extends_of_groups w w' :
  feature_groups w' = feature_groups w -> console_kept w w' -> extends w w'.
Proof.
  intros Hg Hc. split; [|exact Hc]. intros name. exists [].
  rewrite app_nil_r. now apply same_groups_rows.
Qed.

(** *** The primitives *)

Lemma service_call_world w :
  secrets (snd (service_call w)) = secrets w
  /\ feature_groups (snd (service_call w)) = feature_groups w
  /\ stdout (snd (service_call w)) = stdout w.
Proof. unfold service_call. destruct (faults w) as [|[e|] fs]; simpl; auto. Qed.

Lemma print_world line w :
  print line w = (inr tt, set_stdout (fun out => out ++ [line]) w).
Proof. reflexivity. Qed.

Lemma console_kept_eq w w' : stdout w' = stdout w -> console_kept w w'.
Proof. intros H. exists []. now rewrite H, app_nil_r. Qed.

Lemma extends_service_call : respects extends service_call.
Proof.
  intros w. destruct (service_call_world w) as (_ & Hg & Hc).
  apply extends_of_groups; [exact Hg|]. exists []. now rewrite Hc, app_nil_r.
Qed.

Lemma extends_print line : respects extends (print line).
Proof. intros w. apply extends_of_groups; [reflexivity|]. now exists [line]. Qed.

Lemma extends_print_all lines : respects extends (print_all lines).
Proof. intros w. apply extends_of_groups; [reflexivity|]. now exists lines. Qed.

Lemma same_groups_service_call : respects same_groups service_call.
Proof. intros w. apply (service_call_world w). Qed.

Lemma same_groups_print line : respects same_groups (print line).
Proof. intros w. reflexivity. Qed.

Lemma same_groups_print_all lines : respects same_groups (print_all lines).
Proof. intros w. reflexivity. Qed.

Lemma ext_ret {A} (x : A) : respects extends (ret x).
Proof. apply respects_ret, extends_refl. Qed.

Lemma ext_raise {A} (e : Exn) : respects extends (@raise A e).
Proof. apply respects_raise, extends_refl. Qed.

Lemma ext_lift {A} (r : Exn + A) : respects extends (lift r).
Proof. apply respects_lift, extends_refl. Qed.

Lemma ext_bind {A B} (m : M A) (f : A -> M B) :
  respects extends m -> (forall a, respects extends (f a)) -> respects extends (bind m f).
Proof. apply respects_bind, extends_trans. Qed.

Lemma ext_try_except {A} (m : M A) (h : Exn -> M A) :
  respects extends m -> (forall e, respects extends (h e)) ->
  respects extends (try_except m h).
Proof. apply respects_try_except, extends_trans. Qed.

Lemma ext_for_each {A} (body : A -> M unit) (l : list A) :
  (forall x, respects extends (body x)) -> respects extends (for_each body l).
Proof. apply respects_for_each; [exact extends_refl | exact extends_trans]. Qed.

Lemma grp_ret {A} (x : A) : respects same_groups (ret x).
Proof. apply respects_ret, same_groups_refl. Qed.

Lemma grp_raise {A} (e : Exn) : respects same_groups (@raise A e).
Proof. apply respects_raise, same_groups_refl. Qed.

Lemma grp_lift {A} (r : Exn + A) : respects same_groups (lift r).
Proof. apply respects_lift, same_groups_refl. Qed.

Lemma grp_bind {A B} (m : M A) (f : A -> M B) :
  respects same_groups m -> (forall a, respects same_groups (f a)) ->
  respects same_groups (bind m f).
Proof. apply respects_bind, same_groups_trans. Qed.

Lemma grp_try_except {A} (m : M A) (h : Exn -> M A) :
  respects same_groups m -> (forall e, respects same_groups (h e)) ->
  respects same_groups (try_except m h).
Proof. apply respects_try_except, same_groups_trans. Qed.

Create HintDb ext.
Create HintDb grp.

#[local] Hint Resolve ext_ret ext_raise ext_lift ext_bind ext_try_except ext_for_each
  extends_service_call extends_print extends_print_all : ext.
#[local] Hint Resolve grp_ret grp_raise grp_lift grp_bind grp_try_except
  same_groups_service_call same_groups_print same_groups_print_all : grp.

(** Secrets live apart from the feature groups and the console. *)
Lemma set_secrets_extends f w : extends w (set_secrets f w).
Proof. apply extends_of_groups; [reflexivity | now apply console_kept_eq]. Qed.

Lemma ext_get_secret name : respects extends (get_secret name).
Proof.
  unfold get_secret. apply ext_bind; [auto with ext|].
  intros _ w. apply extends_refl.
Qed.

Lemma ext_secret_delete s : respects extends (secret_delete s).
Proof.
  unfold secret_delete. apply ext_bind; [auto with ext|].
  intros _ w. apply set_secrets_extends.
Qed.

Lemma ext_create_secret E name value : respects extends (create_secret E name value).
Proof.
  unfold create_secret. apply ext_bind; [auto with ext|].
  intros _ w. destruct (_ && _); [apply extends_refl | apply set_secrets_extends].
Qed.

#[local] Hint Resolve ext_get_secret ext_secret_delete ext_create_secret : ext.

Lemma ext_save_secret E name value : respects extends (save_secret E name value).
Proof.
  unfold save_secret. apply ext_bind; [|auto with ext].
  apply ext_try_except; [|auto with ext].
  apply ext_bind; [auto with ext|]. intros [s|]; auto with ext.
Qed.

Lemma grp_get_secret name : respects same_groups (get_secret name).
Proof.
  unfold get_secret. apply grp_bind; [auto with grp|]. intros _ w. reflexivity.
Qed.

Lemma grp_secret_delete s : respects same_groups (secret_delete s).
Proof.
  unfold secret_delete. apply grp_bind; [auto with grp|]. intros _ w. reflexivity.
Qed.

Lemma grp_create_secret E name value : respects same_groups (create_secret E name value).
Proof.
  unfold create_secret. apply grp_bind; [auto with grp|].
  intros _ w. destruct (_ && _); reflexivity.
Qed.

#[local] Hint Resolve grp_get_secret grp_secret_delete grp_create_secret : grp.

Lemma grp_save_secret E name value : respects same_groups (save_secret E name value).
Proof.
  unfold save_secret. apply grp_bind; [|auto with grp].
  apply grp_try_except; [|auto with grp].
  apply grp_bind; [auto with grp|]. intros [s|]; auto with grp.
Qed.

#[local] Hint Resolve ext_save_secret : ext.
#[local] Hint Resolve grp_save_secret : grp.

(** Rows of a group after the map of groups is written at [h]. *)
Lemma stored_rows_insert h g w name :
  stored_rows name (set_feature_groups (fun m => <[h := g]> m) w)
  = if decide (h = (name, 1%Z)) then fg_rows g else stored_rows name w.
Proof.
  unfold stored_rows. simpl. destruct (decide (h = (name, 1%Z))) as [->|Hne].
  - now rewrite lookup_insert_eq.
  - now rewrite lookup_insert_ne.
Qed.

Lemma insert_extends h g g' w :
  feature_groups w !! h = Some g ->
  (exists extra, fg_rows g' = fg_rows g ++ extra) ->
  extends w (set_feature_groups (fun m => <[h := g']> m) w).
Proof.
  intros Hg [extra Hx]. split; [|now apply console_kept_eq].
  intros name. rewrite stored_rows_insert.
  destruct (decide (h = (name, 1%Z))) as [->|Hne].
  - exists extra. unfold stored_rows. now rewrite Hg.
  - exists []. now rewrite app_nil_r.
Qed.

Lemma create_extends h g w :
  feature_groups w !! h = None -> fg_rows g = [] ->
  extends w (set_feature_groups (fun m => <[h := g]> m) w).
Proof.
  intros Hg Hr. split; [|now apply console_kept_eq].
  intros name. rewrite stored_rows_insert. exists [].
  destruct (decide (h = (name, 1%Z))) as [->|Hne]; [|now rewrite app_nil_r].
  unfold stored_rows. now rewrite Hg, Hr.
Qed.

Lemma ext_get_or_create name description version pk event_time suite :
  respects extends
    (get_or_create_feature_group name description version pk event_time suite).
Proof.
  unfold get_or_create_feature_group. apply ext_bind; [auto with ext|].
  intros _ w. destruct (feature_groups w !! (name, version)) eqn:L; simpl.
  - apply extends_refl.
  - now apply create_extends.
Qed.

Lemma ext_get_feature_group name version :
  respects extends (get_feature_group name version).
Proof.
  unfold get_feature_group. apply ext_bind; [auto with ext|].
  intros _ w. destruct (feature_groups w !! (name, version)); apply extends_refl.
Qed.

Lemma ext_fg_insert E h df : respects extends (fg_insert E h df).
Proof.
  unfold fg_insert. apply ext_bind; [auto with ext|].
  intros _ w. destruct (feature_groups w !! h) as [g|] eqn:L; [|apply extends_refl].
  destruct (ingestion_policy E), (ge_validate E (fg_suite g) df); simpl;
    try apply extends_refl; (eapply insert_extends; [exact L | now exists df]).
Qed.

Lemma ext_update_feature_description h feature text :
  respects extends (update_feature_description h feature text).
Proof.
  unfold update_feature_description. apply ext_bind; [auto with ext|].
  intros _ w. destruct (feature_groups w !! h) as [g|] eqn:L; [|apply extends_refl].
  simpl. eapply insert_extends; [exact L|]. exists []. simpl. now rewrite app_nil_r.
Qed.

Lemma grp_get_feature_group name version :
  respects same_groups (get_feature_group name version).
Proof.
  unfold get_feature_group. apply grp_bind; [auto with grp|].
  intros _ w. destruct (feature_groups w !! (name, version)); reflexivity.
Qed.

Lemma ext_series_item col row : respects extends (series_item col row).
Proof. unfold series_item. destruct (series_lookup col row); auto with ext. Qed.

Lemma grp_series_item col row : respects same_groups (series_item col row).
Proof. unfold series_item. destruct (series_lookup col row); auto with grp. Qed.

#[local] Hint Resolve ext_get_or_create ext_get_feature_group ext_fg_insert
  ext_update_feature_description ext_series_item : ext.
#[local] Hint Resolve grp_get_feature_group grp_series_item : grp.

Lemma ext_read_fields E row : respects extends (read_fields E row).
Proof. unfold read_fields. auto 20 with ext. Qed.

Lemma grp_read_fields E row : respects same_groups (read_fields E row).
Proof. unfold read_fields. auto 20 with grp. Qed.

Lemma ext_report_error row e : respects extends (report_error row e).
Proof. unfold report_error. auto with ext. Qed.

#[local] Hint Resolve ext_read_fields ext_report_error : ext.
#[local] Hint Resolve grp_read_fields : grp.

(** ** Per-sensor processing only adds rows and console lines *)

Ltac ext_steps :=
  repeat first
    [ solve [auto with ext] | progress intros | apply ext_bind | apply ext_try_except ].

Ltac grp_steps :=
  repeat first
    [ solve [auto with grp] | progress intros | apply grp_bind | apply grp_try_except ].

Lemma ext_backfill_load_aq E cfg f : respects extends (Backfill.load_aq E cfg f).
Proof. unfold Backfill.load_aq. ext_steps. Qed.

Lemma grp_backfill_load_aq E cfg f : respects same_groups (Backfill.load_aq E cfg f).
Proof. unfold Backfill.load_aq. grp_steps. Qed.

#[local] Hint Resolve ext_backfill_load_aq : ext.
#[local] Hint Resolve grp_backfill_load_aq : grp.

Lemma ext_backfill_prepare E cfg row key : respects extends (Backfill.prepare E cfg row key).
Proof. unfold Backfill.prepare. ext_steps. Qed.

Lemma grp_backfill_prepare E cfg row key :
  respects same_groups (Backfill.prepare E cfg row key).
Proof. unfold Backfill.prepare. grp_steps. Qed.

Lemma ext_backfill_store E f df_aq weather_df :
  respects extends (Backfill.store E f df_aq weather_df).
Proof. unfold Backfill.store. ext_steps. Qed.

#[local] Hint Resolve ext_backfill_prepare ext_backfill_store : ext.

Lemma ext_backfill_process_sensor E cfg row key :
  respects extends (Backfill.process_sensor E cfg row key).
Proof. unfold Backfill.process_sensor. ext_steps. Qed.

Lemma ext_daily_acquire E cfg row key : respects extends (Daily.acquire E cfg row key).
Proof. unfold Daily.acquire. ext_steps. Qed.

Lemma grp_daily_acquire E cfg row key : respects same_groups (Daily.acquire E cfg row key).
Proof. unfold Daily.acquire. grp_steps. Qed.

Lemma ext_daily_store E f aq_today_df daily_df :
  respects extends (Daily.store E f aq_today_df daily_df).
Proof. unfold Daily.store. ext_steps. Qed.

#[local] Hint Resolve ext_daily_acquire ext_daily_store : ext.

Lemma ext_daily_process_sensor E cfg row key :
  respects extends (Daily.process_sensor E cfg row key).
Proof. unfold Daily.process_sensor. ext_steps. Qed.

(** ** The sensor loop *)

Section Loop.

Variable process : SensorRow -> M unit.

Local Abbreviation guarded :=
  (fun row => try_except (process row) (report_error row)).

Lemma guarded_returns row w : fst (guarded row w) = inr tt.
Proof. unfold try_except. destruct (process row w) as [[e|[]] w1]; reflexivity. Qed.

Lemma loop_returns rows : forall w, fst (for_each guarded rows w) = inr tt.
Proof.
  induction rows as [|row rows IH]; intros w; [reflexivity|].
  simpl. unfold bind. pose proof (guarded_returns row w) as G.
  destruct (guarded row w) as [[e|[]] w1]; simpl in G; [discriminate|]. apply IH.
Qed.

Lemma loop_cons row rows w :
  for_each guarded (row :: rows) w = for_each guarded rows (snd (guarded row w)).
Proof.
  simpl. unfold bind. pose proof (guarded_returns row w) as G.
  destruct (guarded row w) as [[e|[]] w1]; simpl in G; [discriminate|]. reflexivity.
Qed.

Lemma loop_app rows1 rows2 : forall w,
  for_each guarded (rows1 ++ rows2) w
  = for_each guarded rows2 (snd (for_each guarded rows1 w)).
Proof.
  induction rows1 as [|row rows1 IH]; intros w; [reflexivity|].
  rewrite <- app_comm_cons, !loop_cons. apply IH.
Qed.

Hypothesis process_extends : forall row, respects extends (process row).

Lemma loop_isolates : isolates process (for_each guarded).
Proof.
  intros rows1 row rows2 w w1 w2. repeat split.
  - rewrite loop_app, loop_cons. reflexivity.
  - apply loop_returns.
  - intros e wa H. unfold w2, try_except. rewrite H. reflexivity.
  - intros wa H. unfold w2, try_except. rewrite H. reflexivity.
  - rewrite loop_app. fold w1.
    apply (ext_for_each guarded (row :: rows2)).
    intros x. apply ext_try_except; [apply process_extends | auto with ext].
Qed.

End Loop.

Lemma announced_loop_returns (process : SensorRow -> M unit) first last rows w :
  fst ((print first >>
        for_each (fun row => try_except (process row) (report_error row)) rows >>
        print last) w) = inr tt.
Proof.
  unfold bind at 1. rewrite print_world. unfold bind.
  pose proof (loop_returns process rows
                (set_stdout (fun out => out ++ [first]) w)) as L.
  destruct (for_each _ rows _) as [[e|[]] w1]; simpl in L; [discriminate|].
  reflexivity.
Qed.

Lemma run_script_returns m w : fst (m w) = inr tt -> fst (run_script m w) = Completed.
Proof. unfold run_script. destruct (m w) as [[e|[]] w1]; [discriminate | reflexivity]. Qed.

(** C2: in both flows the loop over the registry contains a sensor's
    failure: the exception is caught and reported with the sensor's city and
    street, the loop goes on with the next row in registry order and never
    raises, the rows stored by the sensors before it stay stored, and a run
    that reaches the loop ends with exit code 0. *)
Theorem per_sensor_isolation (E : Env) (cfg : Config) (key : pystr) :
  isolates (fun row => Backfill.process_sensor E cfg row key)
           (Backfill.sensor_loop E cfg key)
  /\ isolates (fun row => Daily.process_sensor E cfg row key)
              (Daily.sensor_loop E cfg key)
  /\ (forall reg w,
        AQICN_API_KEY cfg = Some key ->
        registry_at cfg (sensors_csv cfg) = Some (inr reg) ->
        missing_cols (reg_columns reg) = [] ->
        exit_code (fst (Backfill.main E cfg w)) = 0%Z
        /\ exit_code (fst (Daily.main E cfg w)) = 0%Z).
Proof.
  split; [|split].
  - apply (loop_isolates (fun row => Backfill.process_sensor E cfg row key)).
    intros row. apply ext_backfill_process_sensor.
  - apply (loop_isolates (fun row => Daily.process_sensor E cfg row key)).
    intros row. apply ext_daily_process_sensor.
  - intros reg w Hkey Hreg Hmiss. split.
    + unfold Backfill.main. rewrite Hkey, Hreg, Hmiss.
      rewrite run_script_returns; [reflexivity|]. apply announced_loop_returns.
    + unfold Daily.main, Daily.main_body, Daily.get_aqicn_api_key, Daily.get_sensor_rows.
      rewrite Hkey, Hreg, Hmiss.
      rewrite run_script_returns; [reflexivity|].
      unfold bind at 1, ret. unfold bind at 1, ret. apply announced_loop_returns.
Qed.

Lemma per_sensor_isolation_witness :
  let E := Ref.env STRICT true (10 # 1) (-5 # 1) [Ref.at_hour 19000 12] in
  let reg := mkRegistry Ref.header
               [Ref.sensor_cells (Some (py "Schottenfeldgasse")); Ref.sensor_cells None] in
  let cfg := Ref.config reg in
  (AQICN_API_KEY cfg = Some (py "k3y")
   /\ registry_at cfg (sensors_csv cfg) = Some (inr reg)
   /\ missing_cols (reg_columns reg) = [])
  /\ exit_code (fst (Backfill.main E cfg Ref.empty_world)) = 0%Z
  /\ exit_code (fst (Daily.main E cfg Ref.empty_world)) = 0%Z.
Proof.
  intros E reg cfg.
  assert (H : AQICN_API_KEY cfg = Some (py "k3y")
              /\ registry_at cfg (sensors_csv cfg) = Some (inr reg)
              /\ missing_cols (reg_columns reg) = [])
    by (repeat split; vm_compute; reflexivity).
  split; [exact H|]. destruct H as (H1 & H2 & H3).
  exact (proj2 (proj2 (per_sensor_isolation E cfg (py "k3y")))
           reg Ref.empty_world H1 H2 H3).
Defined.

(** ** The registry header *)

Lemma insert_sorted_In x y l : In x (insert_sorted y l) <-> x = y \/ In x l.
Proof.
  induction l as [|z l IH]; simpl; [intuition congruence|].
  destruct (str_ltb z y); simpl; [rewrite IH|]; intuition congruence.
Qed.

Lemma sorted_In x l : In x (sorted l) <-> In x l.
Proof.
  unfold sorted. induction l as [|y l IH]; simpl; [tauto|].
  rewrite insert_sorted_In, IH. intuition congruence.
Qed.

Lemma missing_cols_In c columns :
  In c required_cols -> ~ In c columns -> In c (missing_cols columns).
Proof.
  intros Hr Hc. unfold missing_cols. apply filter_In. split; [exact Hr|].
  apply negb_true_iff, bool_decide_eq_false. now rewrite list_elem_of_In.
Qed.

Lemma contains_join x sep l : In x l -> contains x (join sep l).
Proof.
  induction l as [|y l IH]; [intros []|].
  intros [->|H].
  - destruct l as [|z l]; [exists [], []; simpl; now rewrite app_nil_r|].
    exists [], (sep ++ join sep (z :: l)). reflexivity.
  - destruct (IH H) as (pre & post & Heq).
    destruct l as [|z l]; [destruct H|].
    exists (y ++ sep ++ pre), post.
    change (join sep (y :: z :: l)) with (y ++ sep ++ join sep (z :: l)).
    rewrite Heq. now rewrite <- !app_assoc.
Qed.

Lemma contains_repr_list c l : In c l -> contains (repr_str c) (repr_list l).
Proof.
  intros H. destruct (contains_join (repr_str c) (py ", ") (List.map repr_str l))
    as (pre & post & Heq); [now apply in_map|].
  exists (py "[" ++ pre), (post ++ py "]"). unfold repr_list. rewrite Heq.
  now rewrite <- !app_assoc.
Qed.

Lemma get_aqicn_api_key_world cfg w :
  secrets (snd (Daily.get_aqicn_api_key cfg w)) = secrets w
  /\ feature_groups (snd (Daily.get_aqicn_api_key cfg w)) = feature_groups w
  /\ stdout (snd (Daily.get_aqicn_api_key cfg w)) = stdout w.
Proof.
  unfold Daily.get_aqicn_api_key. destruct (AQICN_API_KEY cfg); [simpl; auto|].
  unfold try_except, get_secret. unfold bind, service_call, ret, raise.
  destruct (faults w) as [|[e|] fs]; simpl; auto;
    repeat match goal with
    | |- context [List.find ?f ?l] => destruct (List.find f l); simpl; auto
    end.
Qed.

Lemma get_aqicn_api_key_configured cfg key w :
  AQICN_API_KEY cfg = Some key -> Daily.get_aqicn_api_key cfg w = (inr key, w).
Proof. unfold Daily.get_aqicn_api_key. now intros ->. Qed.

Lemma sorted_missing columns : sorted (missing_cols columns) = lacking columns.
Proof.
  unfold missing_cols, lacking, required_cols, required_sorted. cbn [List.filter].
  destruct (bool_decide (py "AQICN_URL" ∈ columns)),
           (bool_decide (py "country" ∈ columns)),
           (bool_decide (py "city" ∈ columns)),
           (bool_decide (py "street" ∈ columns)),
           (bool_decide (py "latitude" ∈ columns)),
           (bool_decide (py "longitude" ∈ columns));
    vm_compute; reflexivity.
Qed.

Lemma lacking_In columns x :
  In x (lacking columns) <-> In x required_cols /\ ~ In x columns.
Proof.
  rewrite <- sorted_missing, sorted_In. unfold missing_cols.
  rewrite filter_In, negb_true_iff, bool_decide_eq_false, list_elem_of_In. tauto.
Qed.

Lemma starts_with_app needle post : starts_with needle (needle ++ post) = true.
Proof.
  induction needle as [|x needle IH]; [reflexivity|].
  cbn [starts_with app]. now rewrite N.eqb_refl, IH.
Qed.

Lemma contains_occurs needle hay : contains needle hay -> occurs_in needle hay = true.
Proof.
  intros (pre & post & ->). induction pre as [|x pre IH].
  - cbn [app]. destruct (needle ++ post) eqn:Heq; cbn [occurs_in];
      rewrite <- Heq, starts_with_app; reflexivity.
  - cbn [app occurs_in]. rewrite IH. apply orb_true_r.
Qed.

(** C7, as amended: when the header of the registry lacks a required
    column, both flows end with exit code 1 before any sensor is announced,
    with the secret store and the feature store as they were.  A run that
    has its API key (configured, for the backfill; configured or found in
    the secret store, for the daily update) reports the required columns
    that the header lacks, all of them and no other, by name and in
    sorted order: the backfill on the console, the daily update in the
    [ValueError] it dies of.  A run without a key fails on the key first,
    and its message is about the key. *)
Theorem registry_missing_column (E : Env) (cfg : Config) (reg : Registry)
    (c : pystr) (w : World) :
  registry_at cfg (sensors_csv cfg) = Some (inr reg) ->
  In c required_cols ->
  ~ In c (reg_columns reg) ->
  let backfill := Backfill.main E cfg w in
  let daily := Daily.main E cfg w in
  let listing := repr_list (lacking (reg_columns reg)) in
  exit_code (fst backfill) = 1%Z
  /\ same_stores w (snd backfill)
  /\ (exists line, stdout (snd backfill) = stdout w ++ [line])
  /\ exit_code (fst daily) = 1%Z
  /\ same_stores w (snd daily)
  /\ stdout (snd daily) = stdout w
  /\ (forall x, In x (lacking (reg_columns reg))
                <-> In x required_cols /\ ~ In x (reg_columns reg))
  /\ contains (repr_str c) listing
  /\ (forall key,
        AQICN_API_KEY cfg = Some key ->
        backfill
        = (Exited 1,
           set_stdout
             (fun out => out ++ [py "Missing required columns in sensors CSV: " ++ listing])
             w))
  /\ (forall key w1,
        Daily.get_aqicn_api_key cfg w = (inr key, w1) ->
        fst daily
        = Uncaught (mkExn ValueError (py "Missing columns in sensors CSV: " ++ listing)))
  /\ (AQICN_API_KEY cfg = None ->
      backfill
      = (Exited 1,
         set_stdout (fun out => out ++ [py "You need to set AQICN_API_KEY in .env"]) w))
  /\ (forall e w1,
        Daily.get_aqicn_api_key cfg w = (inl e, w1) -> fst daily = Uncaught e).
Proof.
  intros Hreg Hreq Hcol backfill daily listing.
  pose proof (missing_cols_In c (reg_columns reg) Hreq Hcol) as Hin.
  assert (Hlist : contains (repr_str c) listing).
  { apply contains_repr_list, lacking_In. now split. }
  pose proof (sorted_missing (reg_columns reg)) as Hsorted.
  destruct (missing_cols (reg_columns reg)) as [|m ms] eqn:Hm; [destruct Hin|].
  assert (Hb : exit_code (fst backfill) = 1%Z /\ same_stores w (snd backfill)
               /\ (exists line, stdout (snd backfill) = stdout w ++ [line])).
  { unfold backfill, Backfill.main. rewrite Hreg, Hm.
    destruct (AQICN_API_KEY cfg); simpl;
      (split; [reflexivity|]; split; [split; reflexivity|]; eexists; reflexivity). }
  assert (Hd : exit_code (fst daily) = 1%Z /\ same_stores w (snd daily)
               /\ stdout (snd daily) = stdout w).
  { unfold daily, Daily.main, Daily.main_body, run_script, bind.
    destruct (get_aqicn_api_key_world cfg w) as (Hs & Hg & Ho).
    destruct (Daily.get_aqicn_api_key cfg w) as [[e|key] w1]; simpl in *.
    - split; [reflexivity|]. split; [split|]; assumption.
    - rewrite Hreg. unfold Daily.get_sensor_rows. rewrite Hm. simpl.
      split; [reflexivity|]. split; [split|]; assumption. }
  destruct Hb as (Hb1 & Hb2 & Hb3), Hd as (Hd1 & Hd2 & Hd3).
  repeat (split; [assumption|]).
  split; [intros x; apply lacking_In|]. split; [exact Hlist|].
  split; [|split; [|split]].
  - intros key Hkey. unfold backfill, Backfill.main. rewrite Hkey, Hreg, Hm.
    unfold listing. now rewrite <- Hsorted.
  - intros key w1 Hkey. unfold daily, Daily.main, Daily.main_body, run_script, bind.
    rewrite Hkey, Hreg. unfold Daily.get_sensor_rows. rewrite Hm.
    unfold listing. now rewrite <- Hsorted.
  - intros Hkey. unfold backfill, Backfill.main. now rewrite Hkey.
  - intros e w1 Hkey. unfold daily, Daily.main, Daily.main_body, run_script, bind.
    now rewrite Hkey.
Qed.

Lemma registry_missing_column_witness :
  let reg := mkRegistry [py "AQICN_URL"; py "country"; py "city"; py "street";
                         py "longitude"]
               [[Some (py "u"); Some (py "Austria"); Some (py "Wien");
                 Some (py "Schottenfeldgasse"); Some (py "16.3")]] in
  let cfg := Ref.config reg in
  (registry_at cfg (sensors_csv cfg) = Some (inr reg)
   /\ In (py "latitude") required_cols
   /\ ~ In (py "latitude") (reg_columns reg))
  /\ Backfill.main Ref.E0 cfg Ref.empty_world
     = (Exited 1,
        mkWorld [] ∅ [py "Missing required columns in sensors CSV: ['latitude']"] [])
  /\ Daily.main Ref.E0 cfg Ref.empty_world
     = (Uncaught (mkExn ValueError (py "Missing columns in sensors CSV: ['latitude']")),
        Ref.empty_world).
Proof.
  intros reg cfg.
  assert (H1 : registry_at cfg (sensors_csv cfg) = Some (inr reg)) by reflexivity.
  assert (H2 : In (py "latitude") required_cols)
    by (do 4 right; left; reflexivity).
  assert (H3 : ~ In (py "latitude") (reg_columns reg)).
  { intros H. vm_compute in H. repeat (destruct H as [H|H]; [discriminate|]). exact H. }
  split; [repeat split; assumption|].
  destruct (registry_missing_column Ref.E0 cfg reg (py "latitude") Ref.empty_world
              H1 H2 H3) as (_ & _ & _ & _ & _ & _ & _ & _ & Hb & _).
  split; [rewrite (Hb (py "k3y") eq_refl)|]; vm_compute; reflexivity.
Defined.

(** C7 as stated fails for a run that has no API key: the key is checked
    before the registry is read, so with a header that lacks [latitude] the
    backfill exits with the message about the key, which names no column,
    and the daily update dies of the [RuntimeError] of the key lookup. *)
Lemma missing_column_without_key :
  let reg := mkRegistry [py "AQICN_URL"; py "country"; py "city"; py "street";
                         py "longitude"] [] in
  let cfg := mkConfig None (py "url") (py "Austria") (py "Wien")
               (py "Schottenfeldgasse") (py "/srv") None (fun _ => Some (inr reg))
               Ref.day0 in
  let message := py "You need to set AQICN_API_KEY in .env" in
  ~ In (py "latitude") (reg_columns reg)
  /\ Backfill.main Ref.E0 cfg Ref.empty_world = (Exited 1, mkWorld [] ∅ [message] [])
  /\ ~ contains (py "latitude") message
  /\ fst (Daily.main Ref.E0 cfg Ref.empty_world)
     = Uncaught (mkExn RuntimeError
                   (py "AQICN_API_KEY not found in .env or Hopsworks secrets"))
  /\ ~ contains (py "latitude")
         (py "AQICN_API_KEY not found in .env or Hopsworks secrets").
Proof.
  intros reg cfg message. split; [|split; [|split; [|split]]].
  - intros H. vm_compute in H. repeat (destruct H as [H|H]; [discriminate|]). exact H.
  - vm_compute. reflexivity.
  - intros H. apply contains_occurs in H. vm_compute in H. discriminate.
  - vm_compute. reflexivity.
  - intros H. apply contains_occurs in H. vm_compute in H. discriminate.
Qed.

(** ** Registry rows *)

Lemma fillna_row_lookup cols : forall cells j,
  fillna_row cols cells !! j
  = (fun col => (col, default [] (mjoin (cells !! j)))) <$> (cols !! j).
Proof.
  induction cols as [|c cols IH]; intros cells j; [reflexivity|].
  destruct j as [|j]; simpl.
  - now rewrite head_lookup.
  - rewrite IH. now rewrite lookup_tail.
Qed.

Lemma fillna_row_has cols c : forall cells,
  In c cols -> is_Some (series_lookup c (fillna_row cols cells)).
Proof.
  induction cols as [|c0 cols IH]; intros cells; [intros []|].
  intros H. simpl. case_bool_decide as Hc; [eauto|].
  apply IH. destruct H as [H|H]; [contradiction | exact H].
Qed.

Lemma missing_cols_nil columns c :
  missing_cols columns = [] -> In c required_cols -> In c columns.
Proof.
  unfold missing_cols. intros Hm Hc.
  destruct (decide (c ∈ columns)) as [H|H]; [now apply list_elem_of_In|].
  assert (Hin : In c (List.filter (fun c => negb (bool_decide (c ∈ columns)))
                        required_cols)).
  { apply filter_In. split; [exact Hc|]. now apply negb_true_iff, bool_decide_eq_false. }
  rewrite Hm in Hin. destruct Hin.
Qed.

Lemma series_item_has col row v w :
  series_lookup col row = Some v -> series_item col row w = (inr v, w).
Proof. unfold series_item. now intros ->. Qed.

(** With the six columns present, reading the fields cannot fail. *)
Lemma read_fields_returns E row w :
  (forall c, In c required_cols -> is_Some (series_lookup c row)) ->
  read_fields E row w
  = (inr (mkFields (strip E (series_get (py "AQICN_URL") row))
                   (strip E (series_get (py "country") row))
                   (strip E (series_get (py "city") row))
                   (strip E (series_get (py "street") row))
                   (strip E (series_get (py "latitude") row))
                   (strip E (series_get (py "longitude") row))), w).
Proof.
  intros H. unfold read_fields, series_get.
  destruct (H (py "AQICN_URL")) as [v1 H1]; [simpl; tauto|].
  destruct (H (py "country")) as [v2 H2]; [simpl; tauto|].
  destruct (H (py "city")) as [v3 H3]; [simpl; tauto|].
  destruct (H (py "street")) as [v4 H4]; [simpl; tauto|].
  destruct (H (py "latitude")) as [v5 H5]; [simpl; tauto|].
  destruct (H (py "longitude")) as [v6 H6]; [simpl; tauto|].
  unfold bind.
  rewrite (series_item_has _ _ _ _ H1), (series_item_has _ _ _ _ H2),
    (series_item_has _ _ _ _ H3), (series_item_has _ _ _ _ H4),
    (series_item_has _ _ _ _ H5), (series_item_has _ _ _ _ H6).
  now rewrite H1, H2, H3, H4, H5, H6.
Qed.

Lemma console_kept_In line w w' :
  console_kept w w' -> In line (stdout w) -> In line (stdout w').
Proof. intros [extra ->] H. apply in_or_app. now left. Qed.

(** A line on the console stays there through whatever runs next. *)
Lemma bind_keeps_line {A B} line (m : M A) (f : A -> M B) w :
  In line (stdout (snd (m w))) -> (forall a, respects extends (f a)) ->
  In line (stdout (snd (bind m f w))).
Proof.
  intros H Hf. unfold bind. destruct (m w) as [[e|a] w1]; simpl in *; [exact H|].
  eapply console_kept_In; [apply (Hf a w1) | exact H].
Qed.

Lemma print_then_keeps_line {A} line (k : M A) w :
  respects extends k -> In line (stdout (snd ((print line >> k) w))).
Proof.
  intros Hk. apply bind_keeps_line; [|intros _; exact Hk].
  simpl. apply in_or_app. right. now left.
Qed.

Lemma backfill_announces E cfg key row w :
  (forall c, In c required_cols -> is_Some (series_lookup c row)) ->
  In (backfill_announce E row)
     (stdout (snd (Backfill.process_sensor E cfg row key w))).
Proof.
  intros H. unfold Backfill.process_sensor.
  apply bind_keeps_line; [|intros a; apply ext_backfill_store].
  unfold Backfill.prepare. unfold bind at 1. rewrite (read_fields_returns E row w H).
  apply print_then_keeps_line. ext_steps.
Qed.

Lemma daily_announces E cfg key row w :
  (forall c, In c required_cols -> is_Some (series_lookup c row)) ->
  In (daily_announce E cfg row)
     (stdout (snd (Daily.process_sensor E cfg row key w))).
Proof.
  intros H. unfold Daily.process_sensor.
  apply bind_keeps_line; [|intros a; apply ext_daily_store].
  unfold Daily.acquire. unfold bind at 1. rewrite (read_fields_returns E row w H).
  apply print_then_keeps_line. ext_steps.
Qed.

Lemma loop_announces (process : SensorRow -> M unit) (line : SensorRow -> pystr) rows :
  (forall row, respects extends (process row)) ->
  forall row,
    In row rows ->
    (forall w, In (line row) (stdout (snd (process row w)))) ->
    forall w,
      In (line row)
         (stdout (snd (for_each (fun r => try_except (process r) (report_error r))
                                rows w))).
Proof.
  intros Hext row Hin Hline.
  assert (G : forall r, respects extends (try_except (process r) (report_error r)))
    by (intros r; apply ext_try_except; [apply Hext | auto with ext]).
  induction rows as [|r rows IH]; [destruct Hin|]. intros w.
  rewrite loop_cons. destruct Hin as [->|Hin]; [|now apply IH].
  eapply console_kept_In; [apply (ext_for_each _ rows G)|].
  unfold try_except. specialize (Hline w).
  destruct (process row w) as [[e|[]] w1]; simpl in *; [|exact Hline].
  apply in_or_app. now left.
Qed.

(** C8, as amended: loading the registry checks only that the six required
    columns are in the header; every row of the file is kept, a cell without
    a value is read as the empty string, and every row, one with empty fields
    too, is handed to per-sensor processing and announced on the console. *)
Theorem registry_rows_all_processed (E : Env) (cfg : Config) (key : pystr)
    (reg : Registry) :
  missing_cols (reg_columns reg) = [] ->
  (forall w, Daily.get_sensor_rows reg w = (inr (fillna reg), w))
  /\ length (fillna reg) = length (reg_rows reg)
  /\ (forall i cells j col,
        reg_rows reg !! i = Some cells ->
        reg_columns reg !! j = Some col ->
        exists row,
          fillna reg !! i = Some row
          /\ row !! j = Some (col, default [] (mjoin (cells !! j))))
  /\ (forall row w,
        In row (fillna reg) ->
        In (backfill_announce E row)
           (stdout (snd (Backfill.sensor_loop E cfg key (fillna reg) w)))
        /\ In (daily_announce E cfg row)
              (stdout (snd (Daily.sensor_loop E cfg key (fillna reg) w)))).
Proof.
  intros Hm. split; [|split; [|split]].
  - intros w. unfold Daily.get_sensor_rows. now rewrite Hm.
  - unfold fillna. apply length_map.
  - intros i cells j col Hi Hj. exists (fillna_row (reg_columns reg) cells). split.
    + unfold fillna. change (List.map ?f ?l) with (f <$> l).
      now rewrite list_lookup_fmap, Hi.
    + now rewrite fillna_row_lookup, Hj.
  - intros row w Hin.
    assert (Hcols : forall c, In c required_cols -> is_Some (series_lookup c row)).
    { intros c Hc. unfold fillna in Hin. apply in_map_iff in Hin as (cells & <- & _).
      apply fillna_row_has. now apply missing_cols_nil. }
    split.
    + apply (loop_announces (fun r => Backfill.process_sensor E cfg r key)
                            (backfill_announce E)); auto.
      * intros r. apply ext_backfill_process_sensor.
      * intros w0. now apply backfill_announces.
    + apply (loop_announces (fun r => Daily.process_sensor E cfg r key)
                            (daily_announce E cfg)); auto.
      * intros r. apply ext_daily_process_sensor.
      * intros w0. now apply daily_announces.
Qed.

Lemma registry_rows_all_processed_witness :
  let reg := mkRegistry Ref.header [Ref.sensor_cells None] in
  let cfg := Ref.config reg in
  let row := fillna_row Ref.header (Ref.sensor_cells None) in
  missing_cols (reg_columns reg) = []
  /\ Daily.get_sensor_rows reg Ref.empty_world = (inr [row], Ref.empty_world)
  /\ series_get (py "street") row = []
  /\ In (NL ++ py "=== Processing sensor: Wien /  ===")
        (stdout (snd (Backfill.sensor_loop Ref.E0 cfg (py "k3y") [row] Ref.empty_world))).
Proof.
  intros reg cfg row.
  assert (Hm : missing_cols (reg_columns reg) = []) by (vm_compute; reflexivity).
  destruct (registry_rows_all_processed Ref.E0 cfg (py "k3y") reg Hm)
    as (Hload & _ & _ & Hrun).
  split; [exact Hm|]. split; [apply Hload|]. split; [reflexivity|].
  pose proof (proj1 (Hrun row Ref.empty_world (or_introl eq_refl))) as Hline.
  vm_compute in Hline. vm_compute. exact Hline.
Defined.

(** C8 as stated fails on a registry row without a street: the row is loaded
    with the empty string for its street, it is not rejected, and the
    backfill stores its readings in the group [air_quality_]. *)
Lemma empty_street_is_processed :
  let reg := mkRegistry Ref.header [Ref.sensor_cells None] in
  let cfg := Ref.config reg in
  (exists row,
     fst (Daily.get_sensor_rows reg Ref.empty_world) = inr [row]
     /\ series_get (py "street") row = [])
  /\ length (stored_rows (py "air_quality_")
               (snd (Backfill.main Ref.E0 cfg Ref.empty_world))) = 1%nat.
Proof.
  split.
  - eexists. split; vm_compute; reflexivity.
  - vm_compute. reflexivity.
Qed.

(** ** Secrets *)

Lemma find_has_name name l s :
  List.find (has_name name) l = Some s -> secret_name s = name.
Proof.
  intros H. apply find_some in H as [_ H]. unfold has_name in H.
  now apply bool_decide_eq_true in H.
Qed.

Lemma find_none_filter name l :
  List.find (has_name name) l = None -> List.filter (has_name name) l = [].
Proof.
  induction l as [|x l IH]; simpl; [reflexivity|].
  destruct (has_name name x); [discriminate | exact IH].
Qed.

Lemma filter_nil_existsb name l :
  List.filter (has_name name) l = [] -> existsb (has_name name) l = false.
Proof.
  induction l as [|x l IH]; simpl; [reflexivity|].
  destruct (has_name name x); [discriminate | exact IH].
Qed.

Lemma remove_first_filter name l s :
  List.find (has_name name) l = Some s ->
  (length (List.filter (has_name name) l) <= 1)%nat ->
  List.filter (has_name name) (remove_first name l) = [].
Proof.
  induction l as [|x l IH]; simpl; [discriminate|].
  destruct (has_name name x) eqn:Hx; simpl.
  - intros _ Hlen. destruct (List.filter (has_name name) l); [reflexivity|].
    simpl in Hlen. lia.
  - rewrite Hx. exact IH.
Qed.

Lemma filter_snoc_named name value l :
  List.filter (has_name name) (l ++ [mkSecret name value])
  = List.filter (has_name name) l ++ [mkSecret name value].
Proof.
  rewrite List.filter_app. simpl. unfold has_name at 2. simpl.
  now rewrite bool_decide_eq_true_2.
Qed.

Lemma service_call_reliable w : faults w = [] -> service_call w = (inr tt, w).
Proof. unfold service_call. now intros ->. Qed.

Lemma get_secret_reliable name w :
  faults w = [] ->
  get_secret name w = (inr (List.find (has_name name) (secrets w)), w).
Proof. intros Hf. unfold get_secret, bind. now rewrite (service_call_reliable w Hf). Qed.

Lemma secret_delete_reliable s w :
  faults w = [] ->
  secret_delete s w = (inr tt, set_secrets (remove_first (secret_name s)) w).
Proof. intros Hf. unfold secret_delete, bind. now rewrite (service_call_reliable w Hf). Qed.

Lemma create_secret_reliable E name value w :
  faults w = [] ->
  List.filter (has_name name) (secrets w) = [] ->
  create_secret E name value w
  = (inr tt, set_secrets (fun l => l ++ [mkSecret name value]) w).
Proof.
  intros Hf Hgone. unfold create_secret, bind.
  rewrite (service_call_reliable w Hf).
  now rewrite (filter_nil_existsb _ _ Hgone), andb_false_r.
Qed.

(** One upsert against a store that answers every call. *)
Lemma save_secret_reliable E name value w :
  faults w = [] ->
  (length (List.filter (has_name name) (secrets w)) <= 1)%nat ->
  exists w',
    save_secret E name value w = (inr tt, w')
    /\ faults w' = []
    /\ List.filter (has_name name) (secrets w') = [mkSecret name value].
Proof.
  intros Hf Hlen. unfold save_secret. unfold bind at 1. unfold try_except.
  unfold bind at 1. rewrite (get_secret_reliable name w Hf).
  destruct (List.find (has_name name) (secrets w)) as [s|] eqn:Hfind.
  - unfold bind at 1. rewrite (secret_delete_reliable s w Hf).
    rewrite (find_has_name _ _ _ Hfind). rewrite print_world.
    pose proof (remove_first_filter name _ s Hfind Hlen) as Hgone.
    rewrite create_secret_reliable; [|exact Hf|exact Hgone].
    eexists. split; [reflexivity|]. split; [exact Hf|].
    simpl. now rewrite filter_snoc_named, Hgone.
  - unfold ret at 1.
    pose proof (find_none_filter _ _ Hfind) as Hgone.
    rewrite create_secret_reliable; [|exact Hf|exact Hgone].
    eexists. split; [reflexivity|]. split; [exact Hf|].
    simpl. now rewrite filter_snoc_named, Hgone.
Qed.

(** Whatever the lookup and the delete did, the create is issued. *)
Lemma save_secret_creates E name value w :
  exists w1,
    save_secret E name value w = create_secret E name value w1
    /\ (secrets w1 = secrets w \/ secrets w1 = remove_first name (secrets w)).
Proof.
  unfold save_secret, try_except, get_secret, secret_delete, print.
  unfold bind, service_call, ret.
  destruct (faults w) as [|[e|] fs] eqn:Hf; simpl.
  - destruct (List.find (has_name name) (secrets w)) as [s|] eqn:Hfind; simpl.
    + rewrite Hf. simpl. rewrite (find_has_name _ _ _ Hfind).
      eexists. split; [reflexivity|]. now right.
    + eexists. split; [reflexivity|]. now left.
  - eexists. split; [reflexivity|]. now left.
  - destruct (List.find (has_name name) (secrets w)) as [s|] eqn:Hfind; simpl.
    + rewrite (find_has_name _ _ _ Hfind).
      destruct fs as [|[e|] fs']; simpl;
        (eexists; split; [reflexivity|]; simpl; auto).
    + eexists. split; [reflexivity|]. now left.
Qed.

(** The four ways the guarded lookup and delete of [save_secret] can go.
    A service call that raises changes nothing but the schedule of faults,
    so in the first and the third case the store is as it was. *)
Lemma save_secret_lookup_raises E name value w e w1 :
  service_call w = (inl e, w1) ->
  save_secret E name value w = create_secret E name value w1.
Proof.
  intros Hc. unfold save_secret. unfold bind at 1. unfold try_except.
  unfold get_secret. unfold bind at 1. unfold bind at 1. now rewrite Hc.
Qed.

Lemma save_secret_lookup_none E name value w w1 :
  service_call w = (inr tt, w1) ->
  List.find (has_name name) (secrets w1) = None ->
  save_secret E name value w = create_secret E name value w1.
Proof.
  intros Hc Hfind. unfold save_secret. unfold bind at 1. unfold try_except.
  unfold get_secret. unfold bind at 1. unfold bind at 1. now rewrite Hc, Hfind.
Qed.

Lemma save_secret_delete_raises E name value w w1 s e w2 :
  service_call w = (inr tt, w1) ->
  List.find (has_name name) (secrets w1) = Some s ->
  service_call w1 = (inl e, w2) ->
  save_secret E name value w = create_secret E name value w2.
Proof.
  intros Hc Hfind Hd. unfold save_secret. unfold bind at 1. unfold try_except.
  unfold get_secret. unfold bind at 1. unfold bind at 1. rewrite Hc, Hfind.
  unfold secret_delete. unfold bind at 1. unfold bind at 1. now rewrite Hd.
Qed.

Lemma save_secret_deletes E name value w w1 s w2 :
  service_call w = (inr tt, w1) ->
  List.find (has_name name) (secrets w1) = Some s ->
  service_call w1 = (inr tt, w2) ->
  save_secret E name value w
  = create_secret E name value
      (set_stdout (fun out => out ++ [py "Replacing existing secret: " ++ name])
         (set_secrets (remove_first name) w2)).
Proof.
  intros Hc Hfind Hd. unfold save_secret. unfold bind at 1. unfold try_except.
  unfold get_secret. unfold bind at 1. unfold bind at 1. rewrite Hc, Hfind.
  unfold secret_delete. unfold bind at 1. unfold bind at 1. rewrite Hd.
  rewrite (find_has_name _ _ _ Hfind). now rewrite print_world.
Qed.

Lemma service_call_secrets w r w1 : service_call w = (r, w1) -> secrets w1 = secrets w.
Proof.
  unfold service_call. destruct (faults w) as [|[e|] fs]; now intros [= _ <-].
Qed.

Lemma service_call_stdout w r w1 : service_call w = (r, w1) -> stdout w1 = stdout w.
Proof.
  unfold service_call. destruct (faults w) as [|[e|] fs]; now intros [= _ <-].
Qed.

(** C6, as amended: [save_secret] looks the secret up and deletes it when
    found; an error of the lookup or of the delete is swallowed, the store
    being then as it was before the failed call; and in every case the
    create is issued, on the world the lookup and the delete have left, its
    own error not being swallowed.  Consequently, when the store answers
    every call and holds at most one record under the name, two upserts
    with different values leave exactly one record under the name, holding
    the second value. *)
Theorem upsert_secret_replaces (E : Env) (name v1 v2 : pystr) (w : World) :
  (forall e w1,
     service_call w = (inl e, w1) ->
     secrets w1 = secrets w
     /\ save_secret E name v1 w = create_secret E name v1 w1)
  /\ (forall w1,
        service_call w = (inr tt, w1) ->
        List.find (has_name name) (secrets w) = None ->
        save_secret E name v1 w = create_secret E name v1 w1)
  /\ (forall s w1 e w2,
        service_call w = (inr tt, w1) ->
        List.find (has_name name) (secrets w) = Some s ->
        service_call w1 = (inl e, w2) ->
        secrets w2 = secrets w
        /\ stdout w2 = stdout w
        /\ save_secret E name v1 w = create_secret E name v1 w2)
  /\ (forall s w1 w2,
        service_call w = (inr tt, w1) ->
        List.find (has_name name) (secrets w) = Some s ->
        service_call w1 = (inr tt, w2) ->
        save_secret E name v1 w
        = create_secret E name v1
            (set_stdout (fun out => out ++ [py "Replacing existing secret: " ++ name])
               (set_secrets (remove_first name) w2)))
  /\ (faults w = [] ->
      (length (List.filter (has_name name) (secrets w)) <= 1)%nat ->
      exists w2,
        (save_secret E name v1 >> save_secret E name v2) w = (inr tt, w2)
        /\ List.filter (has_name name) (secrets w2) = [mkSecret name v2]).
Proof.
  split; [|split; [|split; [|split]]].
  - intros e w1 Hc. split; [exact (service_call_secrets _ _ _ Hc)|].
    now apply (save_secret_lookup_raises E name v1 w e).
  - intros w1 Hc Hfind. apply save_secret_lookup_none; [exact Hc|].
    now rewrite (service_call_secrets _ _ _ Hc).
  - intros s w1 e w2 Hc Hfind Hd.
    pose proof (service_call_secrets _ _ _ Hc) as S1.
    pose proof (service_call_secrets _ _ _ Hd) as S2.
    split; [congruence|]. split.
    + rewrite (service_call_stdout _ _ _ Hd). exact (service_call_stdout _ _ _ Hc).
    + apply (save_secret_delete_raises E name v1 w w1 s e); [exact Hc| |exact Hd].
      now rewrite S1.
  - intros s w1 w2 Hc Hfind Hd.
    apply (save_secret_deletes E name v1 w w1 s); [exact Hc| |exact Hd].
    now rewrite (service_call_secrets _ _ _ Hc).
  - intros Hf Hlen.
    destruct (save_secret_reliable E name v1 w Hf Hlen) as (w1 & H1 & Hf1 & Hr1).
    assert (Hlen1 : (length (List.filter (has_name name) (secrets w1)) <= 1)%nat)
      by (rewrite Hr1; simpl; lia).
    destruct (save_secret_reliable E name v2 w1 Hf1 Hlen1) as (w2 & H2 & _ & Hr2).
    exists w2. split; [|exact Hr2]. unfold bind. now rewrite H1.
Qed.

Lemma upsert_secret_replaces_witness :
  let name := py "AQICN_API_KEY" in
  let timeout := mkExn RestAPIError (py "timed out") in
  let w := mkWorld [mkSecret name (py "stale")] ∅ [] [] in
  let down := set_faults [Some timeout] w in
  (service_call down = (inl timeout, w)
   /\ faults w = []
   /\ (length (List.filter (has_name name) (secrets w)) <= 1)%nat)
  /\ save_secret Ref.E0 name (py "old") down = create_secret Ref.E0 name (py "old") w
  /\ exists w2,
       (save_secret Ref.E0 name (py "old") >> save_secret Ref.E0 name (py "new")) w
       = (inr tt, w2)
       /\ List.filter (has_name name) (secrets w2) = [mkSecret name (py "new")].
Proof.
  intros name timeout w down.
  assert (Hc : service_call down = (inl timeout, w)) by reflexivity.
  assert (Hf : faults w = []) by reflexivity.
  assert (Hl : (length (List.filter (has_name name) (secrets w)) <= 1)%nat)
    by (vm_compute; lia).
  split; [repeat split; assumption|]. split.
  - destruct (upsert_secret_replaces Ref.E0 name (py "old") (py "new") down)
      as (Hraise & _).
    exact (proj2 (Hraise timeout w Hc)).
  - destruct (upsert_secret_replaces Ref.E0 name (py "old") (py "new") w)
      as (_ & _ & _ & _ & Htwice).
    exact (Htwice Hf Hl).
Defined.

(** C6 as stated fails when the lookup of the second upsert raises: the
    error is swallowed and the create is issued over the record that is
    still there.  A store that admits duplicate names then holds two records
    under the name; a store that refuses them raises from the create and
    keeps the first value. *)
Lemma upsert_after_failed_lookup :
  let name := py "AQICN_API_KEY" in
  let timeout := mkExn RestAPIError (py "timed out") in
  let w := mkWorld [] ∅ [] [None; None; Some timeout] in
  let twice E := (save_secret E name (py "old") >> save_secret E name (py "new")) w in
  List.filter (has_name name)
    (secrets (snd (twice (Ref.env STRICT false (10 # 1) (0 # 1) []))))
  = [mkSecret name (py "old"); mkSecret name (py "new")]
  /\ fst (twice (Ref.env STRICT true (10 # 1) (0 # 1) []))
     = inl (mkExn RestAPIError (py "Secret already exists"))
  /\ List.filter (has_name name)
       (secrets (snd (twice (Ref.env STRICT true (10 # 1) (0 # 1) []))))
     = [mkSecret name (py "old")].
Proof. repeat split; vm_compute; reflexivity. Qed.

(** ** Feature groups, call by call *)

Lemma service_call_cases w :
  (exists e w1, service_call w = (inl e, w1)
                /\ feature_groups w1 = feature_groups w)
  \/ (exists w1, service_call w = (inr tt, w1)
                 /\ feature_groups w1 = feature_groups w).
Proof.
  unfold service_call. destruct (faults w) as [|[e|] fs]; [right|left|right]; eauto.
Qed.

Lemma get_feature_group_cases name version w :
  (exists e w1, get_feature_group name version w = (inl e, w1)
                /\ feature_groups w1 = feature_groups w)
  \/ (exists w1 g, get_feature_group name version w = (inr (name, version), w1)
                   /\ feature_groups w1 = feature_groups w
                   /\ feature_groups w !! (name, version) = Some g).
Proof.
  unfold get_feature_group, bind.
  destruct (service_call_cases w) as [(e & w1 & -> & Hg)|(w1 & -> & Hg)];
    [left; eauto|].
  destruct (feature_groups w1 !! (name, version)) as [g|] eqn:L.
  - right. exists w1, g. rewrite <- Hg. auto.
  - left. eauto.
Qed.

Lemma get_or_create_cases name description version pk event_time suite w :
  (exists e w1,
     get_or_create_feature_group name description version pk event_time suite w
     = (inl e, w1)
     /\ feature_groups w1 = feature_groups w)
  \/ (exists w1 g,
        get_or_create_feature_group name description version pk event_time suite w
        = (inr (name, version), w1)
        /\ feature_groups w1 !! (name, version) = Some g
        /\ (forall k, k <> (name, version) ->
              feature_groups w1 !! k = feature_groups w !! k)
        /\ (forall n, stored_rows n w1 = stored_rows n w)).
Proof.
  unfold get_or_create_feature_group, bind.
  destruct (service_call_cases w) as [(e & w1 & -> & Hg)|(w1 & -> & Hg)];
    [left; eauto|].
  right. destruct (feature_groups w1 !! (name, version)) as [g|] eqn:L.
  - exists w1, g. split; [reflexivity|]. split; [exact L|]. split.
    + intros k _. now rewrite Hg.
    + intros n. unfold stored_rows. now rewrite Hg.
  - eexists _, _. split; [reflexivity|]. split; [|split].
    + cbn [feature_groups set_feature_groups]. apply lookup_insert_eq.
    + intros k Hk. cbn [feature_groups set_feature_groups].
      rewrite lookup_insert_ne by congruence. now rewrite Hg.
    + intros n. rewrite stored_rows_insert.
      destruct (decide ((name, version) = (n, 1%Z))) as [Heq|_].
      * unfold stored_rows. rewrite <- Hg, <- Heq, L. reflexivity.
      * unfold stored_rows. now rewrite Hg.
Qed.

Lemma fg_insert_cases E h df w :
  (exists e w1, fg_insert E h df w = (inl e, w1)
                /\ feature_groups w1 = feature_groups w)
  \/ (exists w1 g, fg_insert E h df w = (inr tt, w1)
                   /\ feature_groups w !! h = Some g
                   /\ accepted E g df
                   /\ feature_groups w1 = <[h := fg_append df g]> (feature_groups w)).
Proof.
  unfold fg_insert, bind.
  destruct (service_call_cases w) as [(e & w1 & -> & Hg)|(w1 & -> & Hg)];
    [left; eauto|].
  destruct (feature_groups w1 !! h) as [g|] eqn:L; [|left; eauto].
  rewrite Hg in L.
  destruct (ingestion_policy E) eqn:P, (ge_validate E (fg_suite g) df) eqn:V;
    try (left; eauto; fail);
    (right; eexists _, g; split; [reflexivity|]; split; [exact L|]; split;
     [unfold accepted; auto | simpl; now rewrite Hg]).
Qed.

(** Rows of a group in terms of the map of groups. *)
Lemma stored_rows_of_groups name w w' :
  feature_groups w' = feature_groups w -> stored_rows name w' = stored_rows name w.
Proof. unfold stored_rows. now intros ->. Qed.

Lemma stored_rows_after_insert name h df g w w' :
  feature_groups w !! h = Some g ->
  feature_groups w' = <[h := fg_append df g]> (feature_groups w) ->
  stored_rows name w'
  = if decide (h = (name, 1%Z)) then stored_rows name w ++ df else stored_rows name w.
Proof.
  intros L Hw. unfold stored_rows. rewrite Hw.
  destruct (decide (h = (name, 1%Z))) as [->|Hne].
  - now rewrite lookup_insert_eq, L.
  - now rewrite lookup_insert_ne.
Qed.

Lemma accepted_after_insert E name df g w' :
  accepted E g df ->
  feature_groups w' !! (name, 1%Z) = Some (fg_append df g) ->
  group_accepts E name w' df.
Proof. intros Ha L. exists (fg_append df g). split; [exact L | exact Ha]. Qed.

Lemma aq_ne_weather s : py "air_quality_" ++ s <> py "weather_" ++ s.
Proof. intros H. vm_compute in H. discriminate. Qed.

Lemma accepted_append E g df df' : accepted E g df' -> accepted E (fg_append df g) df'.
Proof. exact (fun H => H). Qed.

Ltac groups_to_start :=
  repeat match goal with
         | H : feature_groups ?w' = feature_groups ?w |- _ =>
             rewrite H in *; clear H
         end.

Ltac nothing_stored :=
  split;
  [ intros; apply stored_rows_of_groups; assumption
  | left; split; [eexists; reflexivity|];
    split; apply stored_rows_of_groups; assumption ].

Lemma daily_store_outcome E f aq wx w :
  stored_after E (Daily.aq_fg_name E (f_street f)) (Daily.weather_fg_name E (f_street f))
    aq wx w (snd (Daily.store E f aq wx w)) (fst (Daily.store E f aq wx w)).
Proof.
  remember (Daily.store E f aq wx w) as res eqn:R. unfold Daily.store in R.
  set (aqn := Daily.aq_fg_name E (f_street f)) in *.
  set (wxn := Daily.weather_fg_name E (f_street f)) in *.
  assert (Hne : aqn <> wxn) by apply aq_ne_weather.
  assert (Hk : (aqn, 1%Z) <> (wxn, 1%Z)) by congruence.
  unfold bind at 1 in R.
  destruct (get_feature_group_cases aqn 1 w) as [(e & w1 & Q & G1)|(w1 & g1 & Q & G1 & L1)];
    rewrite Q in R; clear Q;
    [subst res; cbn [fst snd]; nothing_stored|].
  unfold bind at 1 in R.
  destruct (get_feature_group_cases wxn 1 w1)
    as [(e & w2 & Q & G2)|(w2 & g2 & Q & G2 & L2)];
    rewrite Q in R; clear Q;
    [subst res; cbn [fst snd]; rewrite G1 in G2; nothing_stored|].
  unfold bind at 1 in R.
  destruct (fg_insert_cases E (aqn, 1%Z) aq w2)
    as [(e & w3 & Q & G3)|(w3 & g3 & Q & L3 & A3 & G3)];
    rewrite Q in R; clear Q;
    [subst res; cbn [fst snd]; rewrite G2, G1 in G3; nothing_stored|].
  assert (Raq : forall n, stored_rows n w3
                          = if decide ((aqn, 1%Z) = (n, 1%Z))
                            then stored_rows n w ++ aq else stored_rows n w).
  { intros n. rewrite (stored_rows_after_insert n _ _ _ _ _ L3 G3).
    rewrite (stored_rows_of_groups n w w2) by congruence. reflexivity. }
  assert (Laq : feature_groups w3 !! (aqn, 1%Z) = Some (fg_append aq g3))
    by (rewrite G3; apply lookup_insert_eq).
  unfold bind at 1 in R.
  destruct (fg_insert_cases E (wxn, 1%Z) wx w3)
    as [(e & w4 & Q & G4)|(w4 & g4 & Q & L4 & A4 & G4)];
    rewrite Q in R; clear Q.
  - subst res. cbn [fst snd]. split.
    + intros n Hn1 Hn2. rewrite (stored_rows_of_groups n w3 w4 G4), Raq.
      destruct (decide _) as [Heq|_]; [congruence | reflexivity].
    + right. left. split; [eexists; reflexivity|]. split; [|split].
      * exists (fg_append aq g3). rewrite G4. split; [exact Laq | exact A3].
      * rewrite (stored_rows_of_groups aqn w3 w4 G4), Raq.
        destruct (decide _); [reflexivity | congruence].
      * rewrite (stored_rows_of_groups wxn w3 w4 G4), Raq.
        destruct (decide _); [congruence | reflexivity].
  - assert (Rwx : forall n, stored_rows n w4
                            = if decide ((wxn, 1%Z) = (n, 1%Z))
                              then stored_rows n w3 ++ wx else stored_rows n w3)
      by (intros n; apply (stored_rows_after_insert n _ _ _ _ _ L4 G4)).
    rewrite print_world in R. subst res. cbn [fst snd].
    assert (Rp : forall n line,
               stored_rows n (set_stdout (fun out => out ++ [line]) w4)
               = stored_rows n w4) by reflexivity.
    split.
    + intros n Hn1 Hn2. rewrite Rp, Rwx, Raq.
      destruct (decide _); [congruence|]. destruct (decide _); [congruence | reflexivity].
    + right. right. split; [reflexivity|]. split; [|split; [|split]].
      * exists (fg_append aq g3). split; [|exact A3].
        cbn [feature_groups set_stdout]. rewrite G4, lookup_insert_ne by congruence.
        exact Laq.
      * exists (fg_append wx g4). split; [|exact A4].
        cbn [feature_groups set_stdout]. rewrite G4. apply lookup_insert_eq.
      * rewrite Rp, Rwx, Raq. destruct (decide _); [congruence|].
        destruct (decide _); [reflexivity | congruence].
      * rewrite Rp, Rwx, Raq. destruct (decide _); [|congruence].
        destruct (decide _); [congruence | reflexivity].
Qed.

(** The storing part of the backfill, for an air-quality frame whose pm25
    column holds numbers already, as the frame that [prepare] builds does:
    the conversion to [double] before the insert leaves it as it is. *)
Lemma backfill_store_outcome E f aq wx w :
  astype_float E double (py "pm25") aq = inr aq ->
  stored_after E (Backfill.aq_fg_name E (f_street f))
    (Backfill.weather_fg_name E (f_street f))
    aq wx w (snd (Backfill.store E f aq wx w)) (fst (Backfill.store E f aq wx w)).
Proof.
  intros Hfix. remember (Backfill.store E f aq wx w) as res eqn:R. unfold Backfill.store in R.
  set (aqn := Backfill.aq_fg_name E (f_street f)) in *.
  set (wxn := Backfill.weather_fg_name E (f_street f)) in *.
  assert (Hne : aqn <> wxn) by apply aq_ne_weather.
  assert (Hk : (aqn, 1%Z) <> (wxn, 1%Z)) by congruence.
  cbv zeta in R. unfold bind at 1 in R.
  match type of R with
  | context [get_or_create_feature_group aqn ?d ?v ?pk ?et ?su w] =>
      destruct (get_or_create_cases aqn d v pk et su w)
        as [(e & w1 & Q & G1)|(w1 & g1 & Q & L1 & K1 & R1)];
      rewrite Q in R; clear Q
  end;
    [subst res; cbn [fst snd]; nothing_stored|].
  unfold bind at 1 in R. unfold lift at 1 in R. rewrite Hfix in R.
  unfold bind at 1 in R.
  destruct (fg_insert_cases E (aqn, 1%Z) aq w1)
    as [(e & w2 & Q & G2)|(w2 & g2 & Q & L2 & A2 & G2)];
    rewrite Q in R; clear Q.
  { subst res. cbn [fst snd].
    assert (R2 : forall n, stored_rows n w2 = stored_rows n w)
      by (intros n; rewrite (stored_rows_of_groups n w1 w2 G2); apply R1).
    split; [intros; apply R2|].
    left. split; [eexists; reflexivity|]. split; apply R2. }
  assert (Raq : forall n, stored_rows n w2
                          = if decide ((aqn, 1%Z) = (n, 1%Z))
                            then stored_rows n w ++ aq else stored_rows n w).
  { intros n. rewrite (stored_rows_after_insert n _ _ _ _ _ L2 G2). now rewrite R1. }
  assert (Laq : feature_groups w2 !! (aqn, 1%Z) = Some (fg_append aq g2))
    by (rewrite G2; apply lookup_insert_eq).
  unfold bind at 1 in R.
  match type of R with
  | context [get_or_create_feature_group wxn ?d ?v ?pk ?et ?su w2] =>
      destruct (get_or_create_cases wxn d v pk et su w2)
        as [(e & w3 & Q & G3)|(w3 & g3 & Q & L3 & K3 & R3)];
      rewrite Q in R; clear Q
  end.
  { subst res. cbn [fst snd]. split.
    - intros n Hn1 Hn2. rewrite (stored_rows_of_groups n w2 w3 G3), Raq.
      destruct (decide _); [congruence | reflexivity].
    - right. left. split; [eexists; reflexivity|]. split; [|split].
      + exists (fg_append aq g2). rewrite G3. split; [exact Laq | exact A2].
      + rewrite (stored_rows_of_groups aqn w2 w3 G3), Raq.
        destruct (decide _); [reflexivity | congruence].
      + rewrite (stored_rows_of_groups wxn w2 w3 G3), Raq.
        destruct (decide _); [congruence | reflexivity]. }
  assert (Laq3 : feature_groups w3 !! (aqn, 1%Z) = Some (fg_append aq g2))
    by (rewrite K3 by congruence; exact Laq).
  unfold bind at 1 in R.
  destruct (fg_insert_cases E (wxn, 1%Z) wx w3)
    as [(e & w4 & Q & G4)|(w4 & g4 & Q & L4 & A4 & G4)];
    rewrite Q in R; clear Q.
  - subst res. cbn [fst snd]. split.
    + intros n Hn1 Hn2. rewrite (stored_rows_of_groups n w3 w4 G4), R3, Raq.
      destruct (decide _); [congruence | reflexivity].
    + right. left. split; [eexists; reflexivity|]. split; [|split].
      * exists (fg_append aq g2). rewrite G4. split; [exact Laq3 | exact A2].
      * rewrite (stored_rows_of_groups aqn w3 w4 G4), R3, Raq.
        destruct (decide _); [reflexivity | congruence].
      * rewrite (stored_rows_of_groups wxn w3 w4 G4), R3, Raq.
        destruct (decide _); [congruence | reflexivity].
  - assert (Rwx : forall n, stored_rows n w4
                            = if decide ((wxn, 1%Z) = (n, 1%Z))
                              then stored_rows n w3 ++ wx else stored_rows n w3)
      by (intros n; apply (stored_rows_after_insert n _ _ _ _ _ L4 G4)).
    rewrite print_world in R. subst res. cbn [fst snd].
    assert (Rp : forall n line,
               stored_rows n (set_stdout (fun out => out ++ [line]) w4)
               = stored_rows n w4) by reflexivity.
    split.
    + intros n Hn1 Hn2. rewrite Rp, Rwx, R3, Raq.
      destruct (decide _); [congruence|]. destruct (decide _); [congruence | reflexivity].
    + right. right. split; [reflexivity|]. split; [|split; [|split]].
      * exists (fg_append aq g2). split; [|exact A2].
        cbn [feature_groups set_stdout]. rewrite G4, lookup_insert_ne by congruence.
        exact Laq3.
      * exists (fg_append wx g4). split; [|exact A4].
        cbn [feature_groups set_stdout]. rewrite G4. apply lookup_insert_eq.
      * rewrite Rp, Rwx, R3, Raq. destruct (decide _); [congruence|].
        destruct (decide _); [reflexivity | congruence].
      * rewrite Rp, Rwx, R3, Raq. destruct (decide _); [|congruence].
        destruct (decide _); [congruence | reflexivity].
Qed.

(** ** From a result back to the steps *)

Lemma bind_inr {A B} (m : M A) (f : A -> M B) w b w' :
  bind m f w = (inr b, w') ->
  exists a w1, m w = (inr a, w1) /\ f a w1 = (inr b, w').
Proof.
  unfold bind. destruct (m w) as [[e|a] w1]; [discriminate|]. eauto.
Qed.

Lemma lift_inr {A} (r : Exn + A) w a w' : lift r w = (inr a, w') -> r = inr a /\ w' = w.
Proof. unfold lift. now intros [= -> ->]. Qed.

Lemma ret_inr {A} (x : A) w a w' : ret x w = (inr a, w') -> a = x /\ w' = w.
Proof. unfold ret. now intros [= -> ->]. Qed.

Lemma series_item_inr col row w v w' :
  series_item col row w = (inr v, w') -> v = series_get col row /\ w' = w.
Proof.
  unfold series_item, series_get. destruct (series_lookup col row); [|discriminate].
  unfold ret. now intros [= -> ->].
Qed.

Lemma read_fields_inr E row w f w' :
  read_fields E row w = (inr f, w') -> f = row_fields E row /\ w' = w.
Proof.
  unfold read_fields. intros H.
  repeat (apply bind_inr in H as (? & ? & Hs & H);
          apply series_item_inr in Hs as [-> ->]).
  apply ret_inr in H as [-> ->]. split; reflexivity.
Qed.

Lemma backfill_prepare_inr E cfg row key w f aq wx w1 :
  Backfill.prepare E cfg row key w = (inr (f, aq, wx), w1) -> f = row_fields E row.
Proof.
  unfold Backfill.prepare. intros H.
  apply bind_inr in H as (f0 & w0 & Hf & H).
  apply read_fields_inr in Hf as [-> ->].
  repeat (apply bind_inr in H as (? & ? & _ & H)).
  apply ret_inr in H as [H _]. injection H as Hf _ _. now subst f.
Qed.

Lemma daily_acquire_inr E cfg row key w f aq daily w1 :
  Daily.acquire E cfg row key w = (inr (f, aq, daily), w1) ->
  f = row_fields E row
  /\ exists hourly,
       get_hourly_weather_forecast E (f_city f) (f_latitude f) (f_longitude f)
       = inr hourly
       /\ Daily.daily_weather (f_city f) hourly = inr daily.
Proof.
  unfold Daily.acquire. intros H.
  apply bind_inr in H as (f0 & w0 & Hf & H).
  apply read_fields_inr in Hf as [-> ->].
  do 5 (apply bind_inr in H as (? & ? & _ & H)).
  apply bind_inr in H as (hourly & ? & Hh & H).
  apply lift_inr in Hh as [Hh _].
  apply bind_inr in H as (daily0 & ? & Hd & H).
  apply lift_inr in Hd as [Hd _].
  apply ret_inr in H as [H _]. injection H as Hf _ Hdaily. subst f daily.
  split; [reflexivity | now exists hourly].
Qed.

Lemma select_date_pm25 df df' :
  select_cols [py "date"; py "pm25"] df = inr df' ->
  forall r, In r df' -> exists d p, r = [(py "date", d); (py "pm25", p)].
Proof.
  unfold select_cols. destruct (forallb _ df); [|discriminate].
  intros [= <-] r Hr. apply in_map_iff in Hr as (r0 & <- & _). simpl. eauto.
Qed.

Lemma row_set_same col v r : row_get col r = Some v -> row_set col v r = r.
Proof.
  induction r as [|[c x] r IH]; cbn [row_get row_set]; [discriminate|].
  case_bool_decide as Hc; [now intros [= ->] | intros H; now rewrite IH].
Qed.

Lemma to_float_number E t v v' :
  to_float E t v = inr v' -> (exists q, v' = VNum q) \/ v' = VNaN.
Proof.
  destruct v as [s|q|ts|]; cbn [to_float].
  - destruct (float_of_str E s) as [[q|]|]; [| |discriminate];
      intros [= <-]; [left; eauto | now right].
  - intros [= <-]. left. eauto.
  - discriminate.
  - intros [= <-]. now right.
Qed.

Lemma convert_rows_In E t col df : forall df',
  convert_rows E t col df = inr df' ->
  forall r', In r' df' ->
    exists r v, In r df
      /\ to_float E t (default VNaN (row_get col r)) = inr v
      /\ r' = row_set col v r.
Proof.
  induction df as [|r df IH]; intros df'; cbn [convert_rows].
  - intros [= <-] r' [].
  - destruct (to_float E t (default VNaN (row_get col r))) as [e|v] eqn:Hv; [discriminate|].
    destruct (convert_rows E t col df) as [e|rest]; [discriminate|].
    intros [= <-] r' [<-|Hin].
    + exists r, v. split; [now left|]. split; [exact Hv | reflexivity].
    + destruct (IH rest eq_refl r' Hin) as (r0 & v0 & H0 & H1 & H2).
      exists r0, v0. split; [now right|]. split; assumption.
Qed.

Lemma astype_float_In E t col df df' :
  astype_float E t col df = inr df' ->
  forall r', In r' df' ->
    exists r v, In r df
      /\ to_float E t (default VNaN (row_get col r)) = inr v
      /\ r' = row_set col v r.
Proof.
  unfold astype_float. destruct (negb _); [discriminate|]. apply convert_rows_In.
Qed.

(** A column of numbers is left as it is by the conversion to [double]. *)
Lemma astype_double_fixed E col df :
  (forall r, In r df -> exists q, row_get col r = Some (VNum q)) ->
  astype_float E double col df = inr df.
Proof.
  intros H. unfold astype_float.
  assert (Hc : forallb (has_cols [col]) df = true).
  { apply forallb_forall. intros r Hr. destruct (H r Hr) as [q Hq].
    unfold has_cols. cbn [forallb]. rewrite andb_true_r, Hq.
    apply bool_decide_eq_true. eauto. }
  rewrite Hc. cbn [negb]. clear Hc.
  induction df as [|r df IH]; [reflexivity|]. cbn [convert_rows].
  destruct (H r (or_introl eq_refl)) as [q Hq]. rewrite Hq.
  cbn [default from_option id to_float round_to].
  rewrite IH by (intros r0 Hr0; apply H; now right).
  now rewrite (row_set_same col (VNum q) r Hq).
Qed.

Lemma tag_rows_In f df r :
  In r (tag_rows f df) ->
  exists r0, In r0 df
    /\ r = row_set (py "url") (VStr (f_aqicn_url f))
             (row_set (py "street") (VStr (f_street f))
                (row_set (py "city") (VStr (f_city f))
                   (row_set (py "country") (VStr (f_country f)) r0))).
Proof.
  unfold tag_rows, df_set. rewrite !map_map. intros H.
  apply in_map_iff in H as (r0 & <- & Hr0). eauto.
Qed.

(** The rows of the frame that [load_aq] builds. *)
Lemma load_aq_shape E cfg f w w1 dtype df :
  Backfill.load_aq E cfg f w = (inr (dtype, df), w1) ->
  Forall (fun r => exists d q,
            d <> VNaN
            /\ r = [ (py "date", d); (py "pm25", VNum q);
                     (py "country", VStr (f_country f)); (py "city", VStr (f_city f));
                     (py "street", VStr (f_street f));
                     (py "url", VStr (f_aqicn_url f)) ]) df.
Proof.
  unfold Backfill.load_aq. intros H.
  apply bind_inr in H as (lines & w2 & _ & H).
  apply bind_inr in H as (? & w3 & _ & H).
  apply bind_inr in H as (raw & w4 & _ & H).
  apply bind_inr in H as (sel & w5 & Hsel & H).
  apply bind_inr in H as (num & w6 & Hnum & H).
  apply lift_inr in Hsel as [Hsel _]. apply lift_inr in Hnum as [Hnum _].
  apply ret_inr in H as [H _]. injection H as _ ->.
  apply Forall_forall. intros r Hr. apply list_elem_of_In in Hr.
  apply tag_rows_In in Hr as (r0 & Hr0 & ->).
  unfold dropna in Hr0. apply filter_In in Hr0 as [Hr0 Hnan].
  destruct (astype_float_In _ _ _ _ _ Hnum r0 Hr0) as (r1 & v & Hr1 & Hv & ->).
  destruct (select_date_pm25 _ _ Hsel r1 Hr1) as (d & p & ->).
  assert (Hset : row_set (py "pm25") v [(py "date", d); (py "pm25", p)]
                 = [(py "date", d); (py "pm25", v)]) by reflexivity.
  rewrite Hset in *. clear Hset.
  apply negb_true_iff in Hnan. simpl in Hnan. apply orb_false_iff in Hnan as [Hd Hp'].
  rewrite orb_false_r in Hp'.
  destruct (to_float_number _ _ _ _ Hv) as [[q ->]| ->]; [|discriminate Hp'].
  exists d, q. split.
  - intros ->. discriminate.
  - vm_compute. reflexivity.
Qed.

(** The frame that [prepare] hands on holds numbers in its pm25 column. *)
Lemma backfill_prepare_numeric E cfg row key w f aq wx w1 :
  Backfill.prepare E cfg row key w = (inr (f, aq, wx), w1) ->
  astype_float E double (py "pm25") aq = inr aq.
Proof.
  unfold Backfill.prepare. intros H.
  apply bind_inr in H as (f0 & w0 & _ & H).
  apply bind_inr in H as (? & ? & _ & H).
  apply bind_inr in H as ([dtype df] & w2 & Hload & H).
  repeat (apply bind_inr in H as (? & ? & _ & H)).
  apply ret_inr in H as [H _]. injection H as _ Haq _. cbn [snd] in Haq. subst aq.
  apply astype_double_fixed. intros r Hr.
  pose proof (load_aq_shape _ _ _ _ _ _ _ Hload) as Hshape.
  rewrite Forall_forall in Hshape.
  destruct (Hshape r (proj2 (list_elem_of_In _ _) Hr)) as (d & q & _ & ->).
  exists q. reflexivity.
Qed.

(** [process_sensor] in terms of its two parts. *)
Lemma backfill_process_failed E cfg row key w e w1 :
  Backfill.prepare E cfg row key w = (inl e, w1) ->
  Backfill.process_sensor E cfg row key w = (inl e, w1)
  /\ forall n, stored_rows n w1 = stored_rows n w.
Proof.
  intros H. split.
  - unfold Backfill.process_sensor, bind. now rewrite H.
  - intros n. apply stored_rows_of_groups.
    pose proof (grp_backfill_prepare E cfg row key w) as G. now rewrite H in G.
Qed.

Lemma backfill_process_prepared E cfg row key w f aq wx w1 :
  Backfill.prepare E cfg row key w = (inr (f, aq, wx), w1) ->
  Backfill.process_sensor E cfg row key w = Backfill.store E f aq wx w1
  /\ forall n, stored_rows n w1 = stored_rows n w.
Proof.
  intros H. split.
  - unfold Backfill.process_sensor, bind. now rewrite H.
  - intros n. apply stored_rows_of_groups.
    pose proof (grp_backfill_prepare E cfg row key w) as G. now rewrite H in G.
Qed.

Lemma daily_process_failed E cfg row key w e w1 :
  Daily.acquire E cfg row key w = (inl e, w1) ->
  Daily.process_sensor E cfg row key w = (inl e, w1)
  /\ forall n, stored_rows n w1 = stored_rows n w.
Proof.
  intros H. split.
  - unfold Daily.process_sensor, bind. now rewrite H.
  - intros n. apply stored_rows_of_groups.
    pose proof (grp_daily_acquire E cfg row key w) as G. now rewrite H in G.
Qed.

Lemma daily_process_acquired E cfg row key w f aq wx w1 :
  Daily.acquire E cfg row key w = (inr (f, aq, wx), w1) ->
  Daily.process_sensor E cfg row key w = Daily.store E f aq wx w1
  /\ feature_groups w1 = feature_groups w.
Proof.
  intros H. split.
  - unfold Daily.process_sensor, bind. now rewrite H.
  - pose proof (grp_daily_acquire E cfg row key w) as G. now rewrite H in G.
Qed.

(** The outcome of the storing part, seen from the world before the
    sensor. *)
Lemma stored_after_from E aqn wxn aq wx w w1 w' r :
  (forall n, stored_rows n w1 = stored_rows n w) ->
  stored_after E aqn wxn aq wx w1 w' r -> stored_after E aqn wxn aq wx w w' r.
Proof.
  intros Hw [Hothers Hcases]. split.
  - intros n H1 H2. rewrite <- Hw. now apply Hothers.
  - rewrite <- !Hw. exact Hcases.
Qed.

(** ** What a sensor leaves in the feature store *)

Lemma backfill_process_outcome (E : Env) (cfg : Config) (row : SensorRow)
    (key : pystr) (w : World) :
  let res := Backfill.process_sensor E cfg row key w in
  let street := f_street (row_fields E row) in
  (forall e w1,
     Backfill.prepare E cfg row key w = (inl e, w1) ->
     fst res = inl e /\ forall n, stored_rows n (snd res) = stored_rows n w)
  /\ (forall f aq wx w1,
        Backfill.prepare E cfg row key w = (inr (f, aq, wx), w1) ->
        stored_after E (Backfill.aq_fg_name E street) (Backfill.weather_fg_name E street)
          aq wx w (snd res) (fst res)).
Proof.
  intros res street. split.
  - intros e w1 H. destruct (backfill_process_failed E cfg row key w e w1 H) as [P R].
    unfold res. rewrite P. split; [reflexivity | exact R].
  - intros f aq wx w1 H.
    destruct (backfill_process_prepared E cfg row key w f aq wx w1 H) as [P R].
    unfold res, street. rewrite P.
    rewrite <- (backfill_prepare_inr E cfg row key w f aq wx w1 H).
    apply (stored_after_from E _ _ aq wx w w1 _ _ R), backfill_store_outcome.
    exact (backfill_prepare_numeric E cfg row key w f aq wx w1 H).
Qed.

(** In the backfill nothing is stored before the sensor's files, weather and
    secrets are done; from the frames so prepared, either nothing is stored,
    or the air-quality frame alone, or both, and a frame is stored only when
    the store accepted it for its group. *)
Theorem backfill_rows_only_when_accepted (E : Env) (cfg : Config) (row : SensorRow)
    (key : pystr) (w : World) :
  let res := Backfill.process_sensor E cfg row key w in
  let street := f_street (row_fields E row) in
  (forall e w1,
     Backfill.prepare E cfg row key w = (inl e, w1) ->
     fst res = inl e /\ forall n, stored_rows n (snd res) = stored_rows n w)
  /\ (forall f aq wx w1,
        Backfill.prepare E cfg row key w = (inr (f, aq, wx), w1) ->
        stored_after E (Backfill.aq_fg_name E street) (Backfill.weather_fg_name E street)
          aq wx w (snd res) (fst res)).
Proof. exact (backfill_process_outcome E cfg row key w). Qed.

Lemma backfill_rows_only_when_accepted_witness :
  let E := Ref.env STRICT true (10 # 1) (-5 # 1) [Ref.at_hour 19000 12] in
  let row := fillna_row Ref.header (Ref.sensor_cells (Some (py "Schottenfeldgasse"))) in
  let cfg := Ref.config (mkRegistry Ref.header []) in
  let res := Backfill.process_sensor E cfg row (py "k3y") Ref.empty_world in
  exists aq wx,
    stored_after E (py "air_quality_schottenfeldgasse") (py "weather_schottenfeldgasse")
      aq wx Ref.empty_world (snd res) (fst res).
Proof.
  intros E row cfg res.
  destruct (Backfill.prepare E cfg row (py "k3y") Ref.empty_world)
    as [[e|[[f aq] wx]] w1] eqn:P; [vm_compute in P; discriminate|].
  exists aq, wx.
  exact (proj2 (backfill_rows_only_when_accepted E cfg row (py "k3y") Ref.empty_world)
           f aq wx w1 P).
Defined.

Lemma daily_process_outcome (E : Env) (cfg : Config) (row : SensorRow)
    (key : pystr) (w : World) :
  let res := Daily.process_sensor E cfg row key w in
  let street := f_street (row_fields E row) in
  (forall e w1,
     Daily.acquire E cfg row key w = (inl e, w1) ->
     fst res = inl e /\ forall n, stored_rows n (snd res) = stored_rows n w)
  /\ (forall f aq wx w1,
        Daily.acquire E cfg row key w = (inr (f, aq, wx), w1) ->
        stored_after E (Daily.aq_fg_name E street) (Daily.weather_fg_name E street)
          aq wx w (snd res) (fst res)).
Proof.
  intros res street. split.
  - intros e w1 H. destruct (daily_process_failed E cfg row key w e w1 H) as [P R].
    unfold res. rewrite P. split; [reflexivity | exact R].
  - intros f aq wx w1 H.
    destruct (daily_process_acquired E cfg row key w f aq wx w1 H) as [P G].
    unfold res, street. rewrite P.
    rewrite <- (proj1 (daily_acquire_inr E cfg row key w f aq wx w1 H)).
    apply (stored_after_from E _ _ aq wx w w1).
    + intros n. now apply stored_rows_of_groups.
    + apply daily_store_outcome.
Qed.

(** The same for the daily update: nothing is stored while the readings are
    acquired, and then either nothing, or today's air-quality frame alone, or
    both frames, each only when the store accepted it. *)
Theorem daily_rows_only_when_accepted (E : Env) (cfg : Config) (row : SensorRow)
    (key : pystr) (w : World) :
  let res := Daily.process_sensor E cfg row key w in
  let street := f_street (row_fields E row) in
  (forall e w1,
     Daily.acquire E cfg row key w = (inl e, w1) ->
     fst res = inl e /\ forall n, stored_rows n (snd res) = stored_rows n w)
  /\ (forall f aq wx w1,
        Daily.acquire E cfg row key w = (inr (f, aq, wx), w1) ->
        stored_after E (Daily.aq_fg_name E street) (Daily.weather_fg_name E street)
          aq wx w (snd res) (fst res)).
Proof. exact (daily_process_outcome E cfg row key w). Qed.

Lemma daily_rows_only_when_accepted_witness :
  let E := Ref.E0 in
  let row := fillna_row Ref.header (Ref.sensor_cells (Some (py "Schottenfeldgasse"))) in
  let cfg := Ref.config (mkRegistry Ref.header []) in
  let res := Daily.process_sensor E cfg row (py "k3y") Ref.empty_world in
  exists aq wx,
    stored_after E (py "air_quality_schottenfeldgasse") (py "weather_schottenfeldgasse")
      aq wx Ref.empty_world (snd res) (fst res).
Proof.
  intros E row cfg res.
  destruct (Daily.acquire E cfg row (py "k3y") Ref.empty_world)
    as [[e|[[f aq] wx]] w1] eqn:P; [vm_compute in P; discriminate|].
  exists aq, wx.
  exact (proj2 (daily_rows_only_when_accepted E cfg row (py "k3y") Ref.empty_world)
           f aq wx w1 P).
Defined.

(** Every row that the daily update adds to the sensor's weather group is
    the daily row of a sample of the sensor's forecast inside the noon
    window: its date is midnight of that sample's day and no [date] cell of
    it holds a time of day.  This holds whether the update completes or
    fails. *)
Theorem daily_adds_midnight_rows (E : Env) (cfg : Config) (row : SensorRow)
    (key : pystr) (w : World) :
  let w' := snd (Daily.process_sensor E cfg row key w) in
  let f := row_fields E row in
  let name := Daily.weather_fg_name E (f_street f) in
  exists new,
    stored_rows name w' = stored_rows name w ++ new
    /\ Forall (fun o =>
                 exists hourly s,
                   get_hourly_weather_forecast E (f_city f) (f_latitude f)
                     (f_longitude f) = inr hourly
                   /\ In s hourly
                   /\ noon_sample s = true
                   /\ daily_row_of (f_city f) s o) new.
Proof.
  intros w' f0 name.
  destruct (Daily.acquire E cfg row key w) as [[e|[[f aq] wx]] w1] eqn:H.
  - destruct (daily_process_outcome E cfg row key w) as [Hfail _].
    destruct (Hfail e w1 H) as [_ R]. exists []. split; [|constructor].
    unfold w'. now rewrite R, app_nil_r.
  - destruct (daily_process_outcome E cfg row key w) as [_ Hok].
    destruct (Hok f aq wx w1 H) as [_ Hcases].
    destruct (daily_acquire_inr E cfg row key w f aq wx w1 H)
      as [Hf (hourly & Hh & Hd)].
    fold f0 in Hcases, Hf. fold name in Hcases. fold w' in Hcases. subst f.
    destruct Hcases as [(_ & _ & R)|[(_ & _ & _ & R)|(_ & _ & _ & _ & R)]].
    + exists []. split; [now rewrite R, app_nil_r | constructor].
    + exists []. split; [now rewrite R, app_nil_r | constructor].
    + exists wx. split; [exact R|].
      apply Forall_forall. intros o Ho. apply list_elem_of_In in Ho.
      destruct (Forall2_In_r _ _ _ o (daily_weather_rows _ _ _ Hd) Ho)
        as (s & Hs & Hrow).
      apply filter_In in Hs as [Hin Hnoon].
      exists hourly, s. repeat split; assumption.
Qed.

(** ** Which groups exist *)

Lemma same_domain_refl w : same_domain w w.
Proof. intros k. reflexivity. Qed.

Lemma same_domain_trans a b c : same_domain a b -> same_domain b c -> same_domain a c.
Proof. intros H1 H2 k. now rewrite (H2 k). Qed.

Lemma same_domain_of_groups w w' :
  feature_groups w' = feature_groups w -> same_domain w w'.
Proof. intros H k. now rewrite H. Qed.

Lemma dom_bind {A B} (m : M A) (f : A -> M B) :
  respects same_domain m -> (forall a, respects same_domain (f a)) ->
  respects same_domain (bind m f).
Proof. apply respects_bind, same_domain_trans. Qed.

Lemma dom_of_grp {A} (m : M A) : respects same_groups m -> respects same_domain m.
Proof. intros H w. apply same_domain_of_groups, H. Qed.

Lemma dom_fg_insert E h df : respects same_domain (fg_insert E h df).
Proof.
  intros w. destruct (fg_insert_cases E h df w)
    as [(e & w1 & Q & G)|(w1 & g & Q & L & _ & G)]; rewrite Q; cbn [snd].
  - now apply same_domain_of_groups.
  - intros k. rewrite G. destruct (decide (h = k)) as [->|Hne].
    + rewrite lookup_insert_eq, L. split; eauto.
    + now rewrite lookup_insert_ne.
Qed.

Lemma dom_daily_store E f aq wx : respects same_domain (Daily.store E f aq wx).
Proof.
  unfold Daily.store.
  apply dom_bind; [apply dom_of_grp; auto with grp|]. intros aq_fg.
  apply dom_bind; [apply dom_of_grp; auto with grp|]. intros wx_fg.
  apply dom_bind; [apply dom_fg_insert|]. intros _.
  apply dom_bind; [apply dom_fg_insert|]. intros _.
  apply dom_of_grp. auto with grp.
Qed.

Lemma dom_daily_process_sensor E cfg row key :
  respects same_domain (Daily.process_sensor E cfg row key).
Proof.
  unfold Daily.process_sensor. apply dom_bind.
  - apply dom_of_grp, grp_daily_acquire.
  - intros p. apply dom_daily_store.
Qed.

Lemma not_failed_inr {A} (x : A) : ~ failed (@inr Exn A x).
Proof. intros [e H]. discriminate. Qed.

Lemma groups_of_both_flows (E : Env) (cfg : Config) (row : SensorRow)
    (key : pystr) (w : World) :
  let street := f_street (row_fields E row) in
  let aqn := py "air_quality_" ++ slug E street in
  let wxn := py "weather_" ++ slug E street in
  (fst (Backfill.process_sensor E cfg row key w) = inr tt ->
     is_Some (feature_groups (snd (Backfill.process_sensor E cfg row key w)) !! (aqn, 1%Z))
     /\ is_Some (feature_groups (snd (Backfill.process_sensor E cfg row key w))
                   !! (wxn, 1%Z)))
  /\ (fst (Daily.process_sensor E cfg row key w) = inr tt ->
        is_Some (feature_groups w !! (aqn, 1%Z))
        /\ is_Some (feature_groups w !! (wxn, 1%Z)))
  /\ same_domain w (snd (Daily.process_sensor E cfg row key w)).
Proof.
  intros street aqn wxn. split; [|split].
  - intros Hok.
    destruct (Backfill.prepare E cfg row key w) as [[e|[[f aq] wx]] w1] eqn:P.
    + destruct (proj1 (backfill_process_outcome E cfg row key w) e w1 P)
        as [Hf _]. rewrite Hok in Hf. discriminate.
    + destruct (proj2 (backfill_process_outcome E cfg row key w) f aq wx w1 P)
        as [_ Hcases]. rewrite Hok in Hcases.
      destruct Hcases as [(F & _)|[(F & _)|(_ & (g1 & L1 & _) & (g2 & L2 & _) & _)]];
        try (now apply not_failed_inr in F).
      split; eauto.
  - intros Hok. pose proof (dom_daily_process_sensor E cfg row key w) as D.
    destruct (Daily.acquire E cfg row key w) as [[e|[[f aq] wx]] w1] eqn:P.
    + destruct (proj1 (daily_process_outcome E cfg row key w) e w1 P)
        as [Hf _]. rewrite Hok in Hf. discriminate.
    + destruct (proj2 (daily_process_outcome E cfg row key w) f aq wx w1 P)
        as [_ Hcases]. rewrite Hok in Hcases.
      destruct Hcases as [(F & _)|[(F & _)|(_ & (g1 & L1 & _) & (g2 & L2 & _) & _)]];
        try (now apply not_failed_inr in F).
      split; apply D; eauto.
  - apply dom_daily_process_sensor.
Qed.

(** A sensor's backfill that completes leaves the groups
    [air_quality_<slug>] and [weather_<slug>] in the store; a daily update
    completes only if both were there before it, and it neither creates nor
    removes any group. *)
Theorem backfill_creates_daily_looks_up (E : Env) (cfg : Config) (row : SensorRow)
    (key : pystr) (w : World) :
  let street := f_street (row_fields E row) in
  let aqn := py "air_quality_" ++ slug E street in
  let wxn := py "weather_" ++ slug E street in
  (fst (Backfill.process_sensor E cfg row key w) = inr tt ->
     is_Some (feature_groups (snd (Backfill.process_sensor E cfg row key w)) !! (aqn, 1%Z))
     /\ is_Some (feature_groups (snd (Backfill.process_sensor E cfg row key w))
                   !! (wxn, 1%Z)))
  /\ (fst (Daily.process_sensor E cfg row key w) = inr tt ->
        is_Some (feature_groups w !! (aqn, 1%Z))
        /\ is_Some (feature_groups w !! (wxn, 1%Z)))
  /\ same_domain w (snd (Daily.process_sensor E cfg row key w)).
Proof. exact (groups_of_both_flows E cfg row key w). Qed.

Lemma backfill_creates_daily_looks_up_witness :
  let row := fillna_row Ref.header (Ref.sensor_cells (Some (py "Schottenfeldgasse"))) in
  let cfg := Ref.config (mkRegistry Ref.header []) in
  let w1 := snd (Backfill.process_sensor Ref.E0 cfg row (py "k3y") Ref.empty_world) in
  (fst (Backfill.process_sensor Ref.E0 cfg row (py "k3y") Ref.empty_world) = inr tt
   /\ fst (Daily.process_sensor Ref.E0 cfg row (py "k3y") w1) = inr tt)
  /\ is_Some (feature_groups w1 !! (py "air_quality_schottenfeldgasse", 1%Z))
  /\ is_Some (feature_groups w1 !! (py "weather_schottenfeldgasse", 1%Z)).
Proof.
  intros row cfg w1.
  assert (H1 : fst (Backfill.process_sensor Ref.E0 cfg row (py "k3y") Ref.empty_world)
               = inr tt) by (vm_compute; reflexivity).
  assert (H2 : fst (Daily.process_sensor Ref.E0 cfg row (py "k3y") w1) = inr tt)
    by (vm_compute; reflexivity).
  split; [split; assumption|].
  exact (proj1 (proj2 (backfill_creates_daily_looks_up Ref.E0 cfg row (py "k3y") w1)) H2).
Defined.

(** ** More on slugs *)

Section SlugShape.

Variables (isspace isalnum : N -> bool) (tolower : N -> list N).
Variable fsigma : list N -> list N -> bool.

Local Abbreviation sp := (is_space isspace).
Local Abbreviation slugf := (slugify isspace isalnum tolower fsigma).

Lemma lstrip_head s :
  lstrip isspace s = [] \/ exists c t, lstrip isspace s = c :: t /\ sp c = false.
Proof.
  induction s as [|c s IH]; simpl; [now left|].
  destruct (sp c) eqn:S; [exact IH | right; eauto].
Qed.

Lemma lstrip_idem s : lstrip isspace (lstrip isspace s) = lstrip isspace s.
Proof.
  destruct (lstrip_head s) as [->|(c & t & -> & Hc)]; [reflexivity|].
  simpl. now rewrite Hc.
Qed.

Lemma lstrip_snoc l c : sp c = false -> lstrip isspace (l ++ [c]) = lstrip isspace l ++ [c].
Proof.
  intros Hc. induction l as [|x l IH]; simpl; [now rewrite Hc|].
  destruct (sp x); [exact IH | reflexivity].
Qed.

Lemma rstrip_cons c t : sp c = false -> rstrip isspace (c :: t) = c :: rstrip isspace t.
Proof.
  intros Hc. unfold rstrip. simpl. rewrite lstrip_snoc by exact Hc.
  now rewrite rev_app_distr.
Qed.

Lemma rstrip_idem s : rstrip isspace (rstrip isspace s) = rstrip isspace s.
Proof. unfold rstrip. now rewrite rev_involutive, lstrip_idem. Qed.

(** Stripping twice is stripping once. *)
Lemma str_strip_idem s : str_strip isspace (str_strip isspace s) = str_strip isspace s.
Proof.
  unfold str_strip.
  assert (H : lstrip isspace (rstrip isspace (lstrip isspace s))
              = rstrip isspace (lstrip isspace s)).
  { destruct (lstrip_head s) as [->|(c & t & -> & Hc)]; [reflexivity|].
    rewrite rstrip_cons by exact Hc. simpl. now rewrite Hc. }
  rewrite H. apply rstrip_idem.
Qed.

Lemma slugify_strip s : slugf (str_strip isspace s) = slugf s.
Proof. unfold slugify. now rewrite str_strip_idem. Qed.

Lemma word_not_slash_dot c : is_word isalnum c = true -> c <> 47 /\ c <> 46.
Proof.
  intros H. split; intros ->; vm_compute in H; discriminate.
Qed.

Hypothesis sane : unicode_sane isspace isalnum tolower.

Lemma clean_ascii c :
  is_word isalnum c = true -> stable tolower c -> c < 128 -> slug_char c = true.
Proof.
  intros W [_ St] Hc. apply N.ltb_lt in Hc as Hc'.
  unfold is_word in W. unfold tolower_full in St. rewrite Hc' in *.
  unfold slug_char. unfold ascii_tolower in St.
  destruct (ascii_isupper c) eqn:U.
  - injection St as St. lia.
  - unfold ascii_isalnum in W. rewrite U in W. simpl in W.
    apply orb_true_iff in W as [W|W]; [now rewrite W, orb_true_r | now rewrite W].
Qed.

Lemma slugify_ascii_part x :
  Forall (fun c => c < 128 -> slug_char c = true) (slugf x).
Proof.
  eapply Forall_impl; [apply (slugify_clean _ _ _ fsigma sane x)|].
  intros c [W St] Hc. now apply clean_ascii.
Qed.

End SlugShape.

(** Whatever the street, every ASCII character of its slug is a lower-case
    letter, a digit or an underscore: a slug holds no path separator, dot,
    hyphen, blank or upper-case ASCII letter. *)
Theorem slug_ascii_characters (E : Env) (x : pystr) :
  env_sane E ->
  Forall (fun c => c < 128 -> slug_char c = true) (slug E x)
  /\ ~ In 47 (slug E x) /\ ~ In 46 (slug E x) /\ ~ In HYPHEN (slug E x)
  /\ ~ In 32 (slug E x).
Proof.
  intros sane.
  pose proof (slugify_ascii_part _ _ _ (env_final_sigma E) sane x) as H.
  fold (slug E x) in H. split; [exact H|].
  rewrite Forall_forall in H.
  repeat split; intros Hin; apply list_elem_of_In in Hin; apply H in Hin;
    try reflexivity; vm_compute in Hin; discriminate.
Qed.

Lemma slug_ascii_characters_witness :
  env_sane Ref.E0
  /\ ~ In 47 (slug Ref.E0 (py "../etc/Passwd 7-9"))
  /\ slug Ref.E0 (py "../etc/Passwd 7-9") = py "etcpasswd_7_9".
Proof.
  split; [apply Ref_env_sane|]. split; [|vm_compute; reflexivity].
  exact (proj1 (proj2 (slug_ascii_characters Ref.E0 (py "../etc/Passwd 7-9")
                         (Ref_env_sane _ _ _ _ _)))).
Defined.

(** White space around the street in the registry does not change the slug:
    the fields that [process_sensor] strips give the slug of the raw cell. *)
Theorem slug_ignores_outer_space (E : Env) (row : SensorRow) (x : pystr) :
  slug E (strip E x) = slug E x
  /\ slug E (f_street (row_fields E row)) = slug E (series_get (py "street") row).
Proof. split; apply slugify_strip. Qed.

(** The readings file of a street lies directly in [<root>/data]: its name is
    the slug followed by [.csv], the slug holding neither a slash nor a
    dot. *)
Theorem csv_path_stays_in_data_dir (E : Env) (cfg : Config) (street : pystr) :
  Backfill.air_quality_csv_path E cfg street
  = root_dir cfg ++ py "/data/" ++ slug E street ++ py ".csv"
  /\ ~ In 47 (slug E street ++ py ".csv")
  /\ ~ In 46 (slug E street).
Proof.
  assert (W : forall c, In c (slug E street) -> c <> 47 /\ c <> 46).
  { intros c Hc. apply (word_not_slash_dot (env_isalnum E)).
    pose proof (slugify_word (env_isspace E) (env_isalnum E) (env_tolower E)
                  (env_final_sigma E) street) as H.
    rewrite Forall_forall in H. apply H, list_elem_of_In, Hc. }
  split; [|split].
  - unfold Backfill.air_quality_csv_path, path_join. now rewrite <- !app_assoc.
  - intros Hin. apply in_app_or in Hin as [Hin|Hin].
    + now apply W in Hin.
    + vm_compute in Hin. repeat (destruct Hin as [Hin|Hin]; [discriminate|]). exact Hin.
  - intros Hin. now apply W in Hin.
Qed.

(** ** More on secrets *)

Lemma remove_first_other name other l :
  other <> name ->
  List.filter (has_name other) (remove_first name l) = List.filter (has_name other) l.
Proof.
  intros Hne. induction l as [|s l IH]; [reflexivity|]. simpl.
  destruct (has_name name s) eqn:Hn; simpl.
  - assert (has_name other s = false) as ->; [|reflexivity].
    unfold has_name in *. apply bool_decide_eq_true in Hn.
    apply bool_decide_eq_false. congruence.
  - destruct (has_name other s); [now rewrite IH | exact IH].
Qed.

Lemma filter_snoc_other name other value l :
  other <> name ->
  List.filter (has_name other) (l ++ [mkSecret name value])
  = List.filter (has_name other) l.
Proof.
  intros Hne. rewrite List.filter_app. simpl. unfold has_name at 2. simpl.
  rewrite bool_decide_eq_false_2 by congruence. apply app_nil_r.
Qed.

Lemma save_secret_others (E : Env) (name value other : pystr) (w : World) :
  other <> name ->
  List.filter (has_name other) (secrets (snd (save_secret E name value w)))
  = List.filter (has_name other) (secrets w)
  /\ feature_groups (snd (save_secret E name value w)) = feature_groups w.
Proof.
  intros Hne. split; [|apply grp_save_secret].
  destruct (save_secret_creates E name value w) as (w1 & -> & Hs).
  assert (H1 : List.filter (has_name other) (secrets w1)
               = List.filter (has_name other) (secrets w)).
  { destruct Hs as [->| ->]; [reflexivity | now apply remove_first_other]. }
  rewrite <- H1. unfold create_secret, bind, service_call.
  destruct (faults w1) as [|[e|] fs]; cbn [snd secrets set_faults];
    try reflexivity;
    destruct (unique_secret_names E && _); cbn [snd secrets set_secrets set_faults];
    try reflexivity; now apply filter_snoc_other.
Qed.

(** An upsert touches no record under another name and no feature group,
    whatever the store answers. *)
Theorem upsert_leaves_other_secrets (E : Env) (name value other : pystr) (w : World) :
  other <> name ->
  List.filter (has_name other) (secrets (snd (save_secret E name value w)))
  = List.filter (has_name other) (secrets w)
  /\ feature_groups (snd (save_secret E name value w)) = feature_groups w.
Proof. exact (save_secret_others E name value other w). Qed.

Lemma upsert_leaves_other_secrets_witness :
  let w := mkWorld [mkSecret (py "OTHER") (py "x")] ∅ [] [] in
  py "OTHER" <> py "AQICN_API_KEY"
  /\ List.filter (has_name (py "OTHER"))
       (secrets (snd (save_secret Ref.E0 (py "AQICN_API_KEY") (py "k3y") w)))
     = [mkSecret (py "OTHER") (py "x")].
Proof.
  intros w.
  assert (H : py "OTHER" <> py "AQICN_API_KEY") by (vm_compute; discriminate).
  split; [exact H|].
  exact (proj1 (upsert_leaves_other_secrets Ref.E0 (py "AQICN_API_KEY") (py "k3y")
                  (py "OTHER") w H)).
Defined.

(** The API key of the daily flow.  A configured key wins and the secret
    store is not consulted.  Without it the secret [AQICN_API_KEY] is looked
    up: when the store answers and holds a record under that name, the value
    of the first such record is the key; when the lookup raises, or the
    store holds no such record, the one [RuntimeError] is raised in place of
    whatever went wrong. *)
Theorem api_key_resolution (cfg : Config) (w : World) :
  let not_found :=
    mkExn RuntimeError (py "AQICN_API_KEY not found in .env or Hopsworks secrets") in
  let stored := List.find (has_name (py "AQICN_API_KEY")) (secrets w) in
  (forall key, AQICN_API_KEY cfg = Some key ->
     Daily.get_aqicn_api_key cfg w = (inr key, w))
  /\ (AQICN_API_KEY cfg = None ->
      (forall w1 s,
         service_call w = (inr tt, w1) ->
         stored = Some s ->
         Daily.get_aqicn_api_key cfg w = (inr (secret_value s), w1))
      /\ (forall w1,
            service_call w = (inr tt, w1) ->
            stored = None ->
            Daily.get_aqicn_api_key cfg w = (inl not_found, w1))
      /\ (forall e w1,
            service_call w = (inl e, w1) ->
            Daily.get_aqicn_api_key cfg w = (inl not_found, w1))).
Proof.
  intros not_found stored.
  split; [intros key H; now apply get_aqicn_api_key_configured|].
  intros H. unfold Daily.get_aqicn_api_key. rewrite H.
  unfold try_except, get_secret.
  split; [|split].
  - intros w1 s Hc Hs. unfold bind. rewrite Hc, (service_call_secrets _ _ _ Hc).
    fold stored. now rewrite Hs.
  - intros w1 Hc Hs. unfold bind. rewrite Hc, (service_call_secrets _ _ _ Hc).
    fold stored. now rewrite Hs.
  - intros e w1 Hc. unfold bind. now rewrite Hc.
Qed.

Lemma api_key_resolution_witness :
  let cfg := mkConfig None [] [] [] [] (py "/srv") None (fun _ => None) 19000 in
  let w := mkWorld [mkSecret (py "OTHER") (py "x");
                    mkSecret (py "AQICN_API_KEY") (py "s3cret")] ∅ [] [] in
  (AQICN_API_KEY cfg = None
   /\ service_call w = (inr tt, w)
   /\ List.find (has_name (py "AQICN_API_KEY")) (secrets w)
      = Some (mkSecret (py "AQICN_API_KEY") (py "s3cret")))
  /\ Daily.get_aqicn_api_key cfg w = (inr (py "s3cret"), w).
Proof.
  intros cfg w.
  assert (H1 : AQICN_API_KEY cfg = None) by reflexivity.
  assert (H2 : service_call w = (inr tt, w)) by reflexivity.
  assert (H3 : List.find (has_name (py "AQICN_API_KEY")) (secrets w)
               = Some (mkSecret (py "AQICN_API_KEY") (py "s3cret")))
    by (vm_compute; reflexivity).
  split; [repeat split; assumption|].
  exact (proj1 (proj2 (api_key_resolution cfg w) H1) w _ H2 H3).
Defined.

(** ** How a run ends *)

Lemma sensor_loop_announced_backfill E cfg key rows first last w :
  fst ((print first >> Backfill.sensor_loop E cfg key rows >> print last) w) = inr tt.
Proof. apply (announced_loop_returns (fun row => Backfill.process_sensor E cfg row key)). Qed.

(** The backfill ends with exit code 0 exactly when the API key is
    configured, the registry file exists, [pd.read_csv] reads it, and its
    header names the six columns.  A registry file that [pd.read_csv]
    refuses ends the run with the uncaught exception and nothing on the
    console.  In every other case (no key, no file, a column missing) the
    run exits with code 1 and one line on the console.  Whenever the run
    does not end with code 0, secrets and feature groups are as they
    were. *)
Theorem backfill_exit_code (E : Env) (cfg : Config) (w : World) :
  let run := Backfill.main E cfg w in
  (exit_code (fst run) = 0%Z <->
     is_Some (AQICN_API_KEY cfg)
     /\ exists reg, registry_at cfg (sensors_csv cfg) = Some (inr reg)
                    /\ missing_cols (reg_columns reg) = [])
  /\ (forall key e,
        AQICN_API_KEY cfg = Some key ->
        registry_at cfg (sensors_csv cfg) = Some (inl e) ->
        run = (Uncaught e, w))
  /\ (exit_code (fst run) = 0%Z
      \/ (exit_code (fst run) = 1%Z
          /\ same_stores w (snd run)
          /\ ((fst run = Exited 1
               /\ exists line, stdout (snd run) = stdout w ++ [line])
              \/ (exists e,
                    is_Some (AQICN_API_KEY cfg)
                    /\ registry_at cfg (sensors_csv cfg) = Some (inl e)
                    /\ fst run = Uncaught e
                    /\ stdout (snd run) = stdout w)))).
Proof.
  intros run. unfold run, Backfill.main.
  destruct (AQICN_API_KEY cfg) as [key|] eqn:K.
  2:{ split; [|split].
      - split; [discriminate | intros [[? ?] _]; discriminate].
      - discriminate.
      - right. split; [reflexivity|]. split; [split; reflexivity|].
        left. split; [reflexivity | eexists; reflexivity]. }
  destruct (registry_at cfg (sensors_csv cfg)) as [[e|reg]|] eqn:Rg.
  3:{ split; [|split].
      - split; [discriminate | intros [_ (? & ? & _)]; discriminate].
      - discriminate.
      - right. split; [reflexivity|]. split; [split; reflexivity|].
        left. split; [reflexivity | eexists; reflexivity]. }
  { split; [|split].
    - split; [discriminate | intros [_ (? & ? & _)]; discriminate].
    - now intros key' e' _ [= <-].
    - right. split; [reflexivity|]. split; [split; reflexivity|].
      right. exists e. split; [eauto|]. repeat split. }
  destruct (missing_cols (reg_columns reg)) as [|m ms] eqn:Ms.
  - assert (H0 : exit_code
                   (fst (run_script
                           (print (py "Processing " ++ str_of_nat (length (fillna reg))
                                     ++ py " sensors from " ++ sensors_csv cfg) >>
                            Backfill.sensor_loop E cfg key (fillna reg) >>
                            print (NL ++ py "All sensors processed.")) w)) = 0%Z).
    { rewrite run_script_returns; [reflexivity|]. apply sensor_loop_announced_backfill. }
    split; [|split; [discriminate | now left]]. split; [|intros _; exact H0].
    intros _. split; [eauto|]. exists reg. now split.
  - split; [|split].
    + split; [discriminate|]. intros [_ (reg' & [= <-] & Hm)]. rewrite Ms in Hm. discriminate.
    + discriminate.
    + right. split; [reflexivity|]. split; [split; reflexivity|].
      left. split; [reflexivity | eexists; reflexivity].
Qed.

Lemma backfill_exit_code_witness :
  let e := mkExn ValueError (py "No columns to parse from file") in
  let cfg := mkConfig (Some (py "k3y")) [] [] [] [] (py "/srv") None
               (fun _ => Some (inl e)) 19000 in
  (AQICN_API_KEY cfg = Some (py "k3y")
   /\ registry_at cfg (sensors_csv cfg) = Some (inl e))
  /\ Backfill.main Ref.E0 cfg Ref.empty_world = (Uncaught e, Ref.empty_world).
Proof.
  intros e cfg. split; [split; reflexivity|].
  exact (proj1 (proj2 (backfill_exit_code Ref.E0 cfg Ref.empty_world))
           (py "k3y") e eq_refl eq_refl).
Defined.

(** A registry with a complete header and no rows: both flows greet, process
    nothing and complete, leaving two console lines and nothing else. *)
Theorem empty_registry_run (E : Env) (cfg : Config) (key : pystr) (reg : Registry)
    (w : World) :
  AQICN_API_KEY cfg = Some key ->
  registry_at cfg (sensors_csv cfg) = Some (inr reg) ->
  missing_cols (reg_columns reg) = [] ->
  reg_rows reg = [] ->
  let done := set_stdout
                (fun out => (out ++ [py "Processing 0 sensors from " ++ sensors_csv cfg])
                              ++ [NL ++ py "All sensors processed."]) w in
  Backfill.main E cfg w = (Completed, done)
  /\ Daily.main E cfg w = (Completed, done).
Proof.
  intros K Rg Ms Rows done. split.
  - unfold Backfill.main. rewrite K, Rg, Ms. unfold fillna. rewrite Rows. reflexivity.
  - unfold Daily.main, Daily.main_body, run_script, bind.
    rewrite (get_aqicn_api_key_configured cfg key w K), Rg.
    unfold Daily.get_sensor_rows. rewrite Ms. unfold fillna. rewrite Rows. reflexivity.
Qed.

Lemma empty_registry_run_witness :
  let reg := mkRegistry Ref.header [] in
  let cfg := Ref.config reg in
  (AQICN_API_KEY cfg = Some (py "k3y")
   /\ registry_at cfg (sensors_csv cfg) = Some (inr reg)
   /\ missing_cols (reg_columns reg) = []
   /\ reg_rows reg = [])
  /\ stdout (snd (Backfill.main Ref.E0 cfg Ref.empty_world))
     = [py "Processing 0 sensors from /srv/data/sensors.csv";
        NL ++ py "All sensors processed."].
Proof.
  intros reg cfg.
  assert (H3 : missing_cols (reg_columns reg) = []) by (vm_compute; reflexivity).
  split; [repeat split; try reflexivity; exact H3|].
  rewrite (proj1 (empty_registry_run Ref.E0 cfg (py "k3y") reg Ref.empty_world
                    eq_refl eq_refl H3 eq_refl)).
  vm_compute. reflexivity.
Defined.

(** ** The frames of the backfill *)

Lemma fold_min_spec l : forall a,
  (fold_left Z.min l a <= a)%Z
  /\ (forall x, In x l -> (fold_left Z.min l a <= x)%Z)
  /\ (fold_left Z.min l a = a \/ In (fold_left Z.min l a) l).
Proof.
  induction l as [|y l IH]; intros a; simpl.
  - split; [lia|]. split; [intros x []|now left].
  - destruct (IH (Z.min a y)) as (H1 & H2 & H3). split; [lia|]. split.
    + intros x [<-|Hx]; [lia | now apply H2].
    + destruct H3 as [H3|H3]; [|right; now right].
      rewrite H3. destruct (Z.min_spec a y) as [[_ ->]|[_ ->]]; [now left | right; now left].
Qed.

Lemma omap_row_day_In df r d :
  In r df -> row_day r = Some d -> In d (omap row_day df).
Proof.
  intros Hin Hd. apply list_elem_of_In, list_elem_of_omap. exists r.
  split; [now apply list_elem_of_In | exact Hd].
Qed.

Lemma omap_row_day_inv df d :
  In d (omap row_day df) -> exists r, In r df /\ row_day r = Some d.
Proof.
  intros H. apply list_elem_of_In, list_elem_of_omap in H as (r & Hr & Hd).
  exists r. split; [now apply list_elem_of_In | exact Hd].
Qed.

Lemma date_dtype_datetime raw :
  date_dtype raw = datetime64 <-> raw <> [] /\ forallb is_date_cell raw = true.
Proof.
  unfold date_dtype. destruct raw as [|r raw]; [intuition congruence|].
  destruct (forallb is_date_cell (r :: raw)); intuition congruence.
Qed.

(** The earliest date of the air-quality frame [df] built from the file
    [raw].  The [date] column holds timestamps only when the file has rows
    and all its dates were parsed or are missing; for a file with a header
    and no rows, or with a date that was not parsed, the column has the
    object type and the script fails with [AttributeError].  A column of
    timestamps in a frame that kept no dated row fails with [ValueError].
    In every other case there is a result: the day of one of the rows, and
    no row has an earlier day. *)
Theorem earliest_date_is_minimum (raw df : DataFrame) :
  (date_dtype raw = datetime64 <-> raw <> [] /\ forallb is_date_cell raw = true)
  /\ date_dtype [] = object
  /\ (date_dtype raw = object ->
      exists msg, earliest_date (date_dtype raw) df = inl (mkExn AttributeError msg))
  /\ (date_dtype raw = datetime64 ->
      omap row_day df = [] ->
      exists msg, earliest_date (date_dtype raw) df = inl (mkExn ValueError msg))
  /\ (date_dtype raw = datetime64 ->
      omap row_day df <> [] ->
      exists d, earliest_date (date_dtype raw) df = inr d)
  /\ (forall d,
        earliest_date (date_dtype raw) df = inr d ->
        (forall r t, In r df -> row_day r = Some t -> (d <= t)%Z)
        /\ exists r, In r df /\ row_day r = Some d).
Proof.
  split; [apply date_dtype_datetime|]. split; [reflexivity|].
  split; [intros ->; eexists; reflexivity|].
  split; [intros -> Hnone; cbn [earliest_date]; rewrite Hnone; eexists; reflexivity|].
  split.
  { intros -> Hsome. cbn [earliest_date].
    destruct (omap row_day df) as [|d ds]; [now destruct Hsome | eauto]. }
  intros d H. destruct (date_dtype raw); [|discriminate]. cbn [earliest_date] in H.
  destruct (omap row_day df) as [|d0 ds] eqn:Days; [discriminate|].
  injection H as <-.
  destruct (fold_min_spec ds d0) as (H1 & H2 & H3).
  assert (Hin : forall t, In t (d0 :: ds) -> (fold_left Z.min ds d0 <= t)%Z).
  { intros t [<-|Ht]; [exact H1 | now apply H2]. }
  split.
  - intros r t Hr Ht. apply Hin. rewrite <- Days. now apply (omap_row_day_In df r).
  - apply omap_row_day_inv. rewrite Days.
    destruct H3 as [->|H3]; [now left | now right].
Qed.

Lemma earliest_date_is_minimum_witness :
  let raw := [ [ (py "date", VTime (mkTs 19005 0)); (py "pm25", VNum (10 # 1)) ];
               [ (py "date", VTime (mkTs 19001 0)); (py "pm25", VNum (12 # 1)) ];
               [ (py "date", VTime (mkTs 19003 0)); (py "pm25", VNaN) ] ] in
  let df := dropna raw in
  (date_dtype raw = datetime64 /\ omap row_day df <> [])
  /\ earliest_date (date_dtype raw) df = inr 19001%Z
  /\ (exists msg, earliest_date (date_dtype raw) [] = inl (mkExn ValueError msg))
  /\ exists r, In r df /\ row_day r = Some 19001%Z.
Proof.
  intros raw df.
  assert (H1 : date_dtype raw = datetime64) by (vm_compute; reflexivity).
  assert (H2 : omap row_day df <> []) by (vm_compute; discriminate).
  assert (H : earliest_date (date_dtype raw) df = inr 19001%Z) by (vm_compute; reflexivity).
  split; [split; assumption|]. split; [exact H|]. split.
  - destruct (earliest_date_is_minimum raw []) as (_ & _ & _ & Hnat & _).
    exact (Hnat H1 eq_refl).
  - destruct (earliest_date_is_minimum raw df) as (_ & _ & _ & _ & _ & Hmin).
    exact (proj2 (Hmin 19001%Z H)).
Defined.

(** Every row of the air-quality frame that the backfill builds has exactly
    the columns date, pm25, country, city, street and url, in this order: a
    date that is not missing, a number for pm25, and the sensor's stripped
    registry fields for the rest. *)
Theorem backfill_frame_shape (E : Env) (cfg : Config) (f : SensorFields)
    (w w1 : World) (dtype : Dtype) (df : DataFrame) :
  Backfill.load_aq E cfg f w = (inr (dtype, df), w1) ->
  Forall (fun r => exists d q,
            d <> VNaN
            /\ r = [ (py "date", d); (py "pm25", VNum q);
                     (py "country", VStr (f_country f)); (py "city", VStr (f_city f));
                     (py "street", VStr (f_street f));
                     (py "url", VStr (f_aqicn_url f)) ]) df.
Proof. exact (load_aq_shape E cfg f w w1 dtype df). Qed.

Lemma backfill_frame_shape_witness :
  let f := row_fields Ref.E0
             (fillna_row Ref.header (Ref.sensor_cells (Some (py " Schottenfeldgasse ")))) in
  let cfg := Ref.config (mkRegistry Ref.header []) in
  exists dtype df w1,
    Backfill.load_aq Ref.E0 cfg f Ref.empty_world = (inr (dtype, df), w1)
    /\ Forall (fun r => exists d q,
                 d <> VNaN
                 /\ r = [ (py "date", d); (py "pm25", VNum q);
                          (py "country", VStr (f_country f));
                          (py "city", VStr (f_city f));
                          (py "street", VStr (f_street f));
                          (py "url", VStr (f_aqicn_url f)) ]) df.
Proof.
  intros f cfg.
  destruct (Backfill.load_aq Ref.E0 cfg f Ref.empty_world) as [[e|[dtype df]] w1] eqn:P;
    [vm_compute in P; discriminate|].
  exists dtype, df, w1. split; [reflexivity|].
  exact (backfill_frame_shape Ref.E0 cfg f Ref.empty_world w1 dtype df P).
Defined.

(** ** The stand-alone backfill *)

Section Created.

Variable keys : list (list N * Z).

Lemma created_refl w : created_within keys w w.
Proof. intros k H. now left. Qed.

Lemma created_trans a b c :
  created_within keys a b -> created_within keys b c -> created_within keys a c.
Proof.
  intros H1 H2 k Hk. destruct (H2 k Hk) as [H|H]; [now apply H1 | now right].
Qed.

Lemma created_of_domain w w' : same_domain w w' -> created_within keys w w'.
Proof. intros H k Hk. left. now apply H. Qed.

Lemma crt_bind {A B} (m : M A) (f : A -> M B) :
  respects (created_within keys) m -> (forall a, respects (created_within keys) (f a)) ->
  respects (created_within keys) (bind m f).
Proof. apply respects_bind, created_trans. Qed.

Lemma crt_of_grp {A} (m : M A) :
  respects same_groups m -> respects (created_within keys) m.
Proof. intros H w. apply created_of_domain, same_domain_of_groups, H. Qed.

Lemma crt_fg_insert E h df : respects (created_within keys) (fg_insert E h df).
Proof. intros w. apply created_of_domain, dom_fg_insert. Qed.

Lemma crt_update h feature text :
  respects (created_within keys) (update_feature_description h feature text).
Proof.
  unfold update_feature_description. apply crt_bind; [apply crt_of_grp; auto with grp|].
  intros _ w. destruct (feature_groups w !! h) as [g|] eqn:L; [|apply created_refl].
  intros k Hk. left. cbn [snd feature_groups set_feature_groups] in Hk.
  destruct (decide (h = k)) as [<-|Hne]; [rewrite L; eauto|].
  now rewrite lookup_insert_ne in Hk.
Qed.

Lemma crt_get_or_create name description version pk event_time suite :
  In (name, version) keys ->
  respects (created_within keys)
    (get_or_create_feature_group name description version pk event_time suite).
Proof.
  intros Hin w k Hk.
  destruct (get_or_create_cases name description version pk event_time suite w)
    as [(e & w1 & Q & G)|(w1 & g & Q & _ & K & _)]; rewrite Q in Hk; cbn [snd] in Hk.
  - left. now rewrite G in Hk.
  - destruct (decide (k = (name, version))) as [->|Hne]; [now right|].
    left. now rewrite K in Hk.
Qed.

Lemma crt_describe_all h l : respects (created_within keys) (SingleSensor.describe_all h l).
Proof.
  unfold SingleSensor.describe_all.
  apply respects_for_each; [exact created_refl | exact created_trans|].
  intros d. apply crt_update.
Qed.

End Created.

Lemma grp_replace_secret E name value :
  respects same_groups (SingleSensor.replace_secret E name value).
Proof.
  unfold SingleSensor.replace_secret. apply grp_bind; [|auto with grp].
  apply grp_try_except; [|auto with grp].
  apply grp_bind; [auto with grp|]. intros [s|]; auto with grp.
Qed.

Lemma grp_try_except_rest {A} (m h : M A) :
  respects same_groups m -> respects same_groups h ->
  respects same_groups (SingleSensor.try_except_rest m h).
Proof.
  intros Hm Hh w. unfold SingleSensor.try_except_rest. specialize (Hm w).
  destruct (m w) as [[[[] msg]|a] w1]; cbn [snd] in *; try exact Hm.
  eapply same_groups_trans; [exact Hm | apply Hh].
Qed.

Lemma crt_single_body E cfg api_key :
  respects (created_within single_sensor_keys) (SingleSensor.body E cfg api_key).
Proof.
  unfold SingleSensor.body, SingleSensor.validate_token, SingleSensor.ingest. cbv zeta.
  apply crt_bind; [apply crt_of_grp; auto with grp|]. intros _.
  apply crt_bind; [apply crt_of_grp, grp_replace_secret|]. intros _.
  apply crt_bind.
  { apply crt_of_grp, grp_try_except_rest; [|auto with grp].
    apply grp_bind; auto with grp. }
  intros _.
  do 5 (apply crt_bind; [apply crt_of_grp; solve [auto with grp]|]; intros ?).
  apply crt_bind; [apply crt_of_grp, grp_replace_secret|]. intros _.
  apply crt_bind; [apply crt_get_or_create; now left|]. intros h1.
  apply crt_bind; [apply crt_of_grp; auto with grp|]. intros ?.
  apply crt_bind; [apply crt_fg_insert|]. intros _.
  apply crt_bind; [apply crt_describe_all|]. intros _.
  apply crt_bind; [apply crt_get_or_create; right; now left|]. intros h2.
  apply crt_bind; [apply crt_fg_insert|]. intros _.
  apply crt_bind; [apply crt_describe_all|]. intros _.
  apply crt_of_grp. auto with grp.
Qed.

Lemma crt_single_script E cfg w :
  created_within single_sensor_keys w (snd (SingleSensor.script E cfg w)).
Proof.
  unfold SingleSensor.script.
  pose proof (grp_bind (lift (check_file_path E (SingleSensor.csv_file cfg)))
                (fun lines => print_all lines)
                (@grp_lift _ _) (fun lines => same_groups_print_all lines) w) as G.
  destruct ((lines <~ lift (check_file_path E (SingleSensor.csv_file cfg));
             print_all lines) w) as [[e|[]] w1]; cbn [snd] in *.
  - apply created_of_domain, same_domain_of_groups, G.
  - destruct (AQICN_API_KEY cfg) as [api_key|]; cbn [snd].
    + eapply created_trans; [apply created_of_domain, same_domain_of_groups, G|].
      unfold run_script. pose proof (crt_single_body E cfg api_key w1) as B.
      destruct (SingleSensor.body E cfg api_key w1) as [[e|[]] w2]; exact B.
    + apply created_of_domain, same_domain_of_groups. exact G.
Qed.

Lemma dom_update h feature text :
  respects same_domain (update_feature_description h feature text).
Proof.
  unfold update_feature_description. apply dom_bind; [apply dom_of_grp; auto with grp|].
  intros _ w. destruct (feature_groups w !! h) as [g|] eqn:L; [|apply same_domain_refl].
  intros k. cbn [snd feature_groups set_feature_groups].
  destruct (decide (h = k)) as [<-|Hne].
  - rewrite lookup_insert_eq, L. split; eauto.
  - now rewrite lookup_insert_ne.
Qed.

Lemma dom_describe_all h l : respects same_domain (SingleSensor.describe_all h l).
Proof.
  unfold SingleSensor.describe_all.
  apply respects_for_each; [exact same_domain_refl | exact same_domain_trans|].
  intros d. apply dom_update.
Qed.

Lemma fg_insert_inr E h df w w' :
  fg_insert E h df w = (inr tt, w') -> is_Some (feature_groups w' !! h).
Proof.
  intros H. pose proof (dom_fg_insert E h df w) as D. rewrite H in D. cbn [snd] in D.
  destruct (fg_insert_cases E h df w)
    as [(e & w1 & Q & _)|(w1 & g & Q & L & _ & _)]; rewrite Q in H; [discriminate|].
  apply D. eauto.
Qed.

Lemma fg_insert_keeps E h df w r w' k :
  fg_insert E h df w = (r, w') ->
  is_Some (feature_groups w !! k) -> is_Some (feature_groups w' !! k).
Proof.
  intros Hi H. pose proof (dom_fg_insert E h df w k) as D. rewrite Hi in D.
  now apply D.
Qed.

Lemma get_or_create_inr name description version pk event_time suite w h w' :
  get_or_create_feature_group name description version pk event_time suite w
  = (inr h, w') ->
  h = (name, version)
  /\ forall k, is_Some (feature_groups w !! k) -> is_Some (feature_groups w' !! k).
Proof.
  intros H.
  destruct (get_or_create_cases name description version pk event_time suite w)
    as [(e & w1 & Q & _)|(w1 & g & Q & L & K & _)]; rewrite Q in H; [discriminate|].
  injection H as <- <-. split; [reflexivity|].
  intros k Hk. destruct (decide (k = (name, version))) as [->|Hne]; [eauto|].
  now rewrite K.
Qed.

Lemma describe_all_keeps h l w r w' k :
  SingleSensor.describe_all h l w = (r, w') ->
  is_Some (feature_groups w !! k) -> is_Some (feature_groups w' !! k).
Proof.
  intros Hd H. pose proof (dom_describe_all h l w k) as D. rewrite Hd in D.
  now apply D.
Qed.

(** A stand-alone backfill that runs to its end leaves the groups
    [air_quality] and [weather] in the store. *)
Lemma single_body_completed E cfg api_key w w' :
  SingleSensor.body E cfg api_key w = (inr tt, w') ->
  is_Some (feature_groups w' !! (py "air_quality", 1%Z))
  /\ is_Some (feature_groups w' !! (py "weather", 1%Z)).
Proof.
  unfold SingleSensor.body, SingleSensor.validate_token, SingleSensor.ingest. cbv zeta. intros H.
  do 9 (apply bind_inr in H as (? & ? & _ & H)).
  apply bind_inr in H as (h1 & wa & Hg1 & H).
  apply bind_inr in H as (? & ? & Hl & H). apply lift_inr in Hl as [_ ->].
  apply bind_inr in H as ([] & wb & Hi1 & H).
  apply bind_inr in H as ([] & wc & Hd1 & H).
  apply bind_inr in H as (h2 & wd & Hg2 & H).
  apply bind_inr in H as ([] & we & Hi2 & H).
  apply bind_inr in H as ([] & wf & Hd2 & H).
  rewrite print_world in H. injection H as <-. cbn [feature_groups set_stdout].
  apply get_or_create_inr in Hg1 as [-> _].
  apply get_or_create_inr in Hg2 as [-> Keep].
  pose proof (fun H => fg_insert_keeps _ _ _ _ _ _ (py "air_quality", 1%Z) Hi2 H) as D.
  apply fg_insert_inr in Hi1. apply fg_insert_inr in Hi2.
  pose proof (describe_all_keeps _ _ _ _ _ _ Hd1 Hi1) as A1.
  apply Keep in A1. apply D in A1.
  split.
  - exact (describe_all_keeps _ _ _ _ _ _ Hd2 A1).
  - exact (describe_all_keeps _ _ _ _ _ _ Hd2 Hi2).
Qed.

Lemma slugged_not_fixed s k :
  In k single_sensor_keys -> k <> (py "air_quality_" ++ s, 1%Z).
Proof.
  intros [<-|[<-|[]]] H; injection H as H; vm_compute in H; discriminate.
Qed.

(** The stand-alone backfill addresses the two fixed groups [air_quality]
    and [weather], whatever street is configured: run to its end it leaves
    both in the store, and it never creates any other group.  Started on a
    store without groups it therefore leaves nothing that the daily update
    looks for, and the daily update of any registry row fails after it. *)
Theorem standalone_backfill_uses_fixed_groups (E : Env) (cfg : Config) (w : World) :
  let run := SingleSensor.script E cfg w in
  (fst run = Completed ->
     is_Some (feature_groups (snd run) !! (py "air_quality", 1%Z))
     /\ is_Some (feature_groups (snd run) !! (py "weather", 1%Z)))
  /\ created_within single_sensor_keys w (snd run)
  /\ (feature_groups w = ∅ ->
      forall E' cfg' row key,
        fst (Daily.process_sensor E' cfg' row key (snd run)) <> inr tt).
Proof.
  intros run. split; [|split].
  - unfold run, SingleSensor.script.
    destruct ((lines <~ lift (check_file_path E (SingleSensor.csv_file cfg));
               print_all lines) w) as [[e|[]] w1]; [discriminate|].
    destruct (AQICN_API_KEY cfg) as [api_key|]; [|discriminate].
    unfold run_script.
    destruct (SingleSensor.body E cfg api_key w1) as [[e|[]] w2] eqn:B; [discriminate|].
    intros _. cbn [snd]. exact (single_body_completed E cfg api_key w1 w2 B).
  - apply crt_single_script.
  - intros Hempty E' cfg' row key Hok.
    destruct (proj1 (proj2 (groups_of_both_flows E' cfg' row key (snd run)))
                Hok) as [Haq _].
    destruct (crt_single_script E cfg w _ Haq) as [Hw|Hin].
    + rewrite Hempty, lookup_empty in Hw. now destruct Hw.
    + exact (slugged_not_fixed (slug E' (f_street (row_fields E' row))) _ Hin eq_refl).
Qed.

Lemma standalone_backfill_uses_fixed_groups_witness :
  let cfg := Ref.config (mkRegistry Ref.header []) in
  let run := SingleSensor.script Ref.E0 cfg Ref.empty_world in
  let row := fillna_row Ref.header (Ref.sensor_cells (Some (py "Schottenfeldgasse"))) in
  (fst run = Completed /\ feature_groups Ref.empty_world = ∅)
  /\ is_Some (feature_groups (snd run) !! (py "air_quality", 1%Z))
  /\ fst (Daily.process_sensor Ref.E0 cfg row (py "k3y") (snd run)) <> inr tt.
Proof.
  intros cfg run row.
  assert (H1 : fst run = Completed) by (vm_compute; reflexivity).
  split; [split; [exact H1 | reflexivity]|].
  destruct (standalone_backfill_uses_fixed_groups Ref.E0 cfg Ref.empty_world)
    as (Hdone & _ & Hdaily).
  split; [exact (proj1 (Hdone H1))|].
  exact (Hdaily eq_refl Ref.E0 cfg row (py "k3y")).
Defined.

(** ** The daily run *)

(** The daily update ends with exit code 0 exactly when an API key is found
    (configured, or stored as a secret), the registry file exists, is read,
    and its header names the six columns; otherwise it dies of the exception
    with exit code 1, nothing printed, secrets and feature groups as they
    were. *)
Theorem daily_exit_code (E : Env) (cfg : Config) (w : World) :
  let run := Daily.main E cfg w in
  (exit_code (fst run) = 0%Z <->
     (exists key w1, Daily.get_aqicn_api_key cfg w = (inr key, w1))
     /\ exists reg, registry_at cfg (sensors_csv cfg) = Some (inr reg)
                    /\ missing_cols (reg_columns reg) = [])
  /\ (exit_code (fst run) = 0%Z
      \/ (exit_code (fst run) = 1%Z
          /\ same_stores w (snd run)
          /\ stdout (snd run) = stdout w)).
Proof.
  intros run. unfold run, Daily.main, run_script.
  remember (Daily.main_body E cfg w) as res eqn:R.
  unfold Daily.main_body in R. unfold bind at 1 in R.
  destruct (get_aqicn_api_key_world cfg w) as (Hs & Hg & Ho).
  destruct (Daily.get_aqicn_api_key cfg w) as [[e|key] w1]; cbn [fst snd] in *.
  { subst res. cbn [fst snd exit_code]. split.
    - split; [discriminate | intros [(? & ? & ?) _]; discriminate].
    - right. split; [reflexivity|]. split; [split|]; assumption. }
  destruct (registry_at cfg (sensors_csv cfg)) as [[e0|reg]|] eqn:Rg.
  3:{ subst res. unfold raise. cbn [fst snd exit_code]. split.
      - split; [discriminate | intros [_ (? & ? & _)]; discriminate].
      - right. split; [reflexivity|]. split; [split|]; assumption. }
  { subst res. unfold raise. cbn [fst snd exit_code]. split.
    - split; [discriminate | intros [_ (? & ? & _)]; discriminate].
    - right. split; [reflexivity|]. split; [split|]; assumption. }
  unfold Daily.get_sensor_rows in R.
  destruct (missing_cols (reg_columns reg)) as [|m ms] eqn:Ms.
  - assert (L : fst res = inr tt).
    { rewrite R.
      apply (announced_loop_returns (fun row => Daily.process_sensor E cfg row key)). }
    destruct res as [[e|[]] w2]; cbn [fst] in L; [discriminate|].
    cbn [fst snd exit_code].
    split; [|now left]. split; [|reflexivity].
    intros _. split; [eauto|]. exists reg. now split.
  - unfold bind at 1, raise in R. subst res. cbn [fst snd exit_code]. split.
    + split; [discriminate|]. intros [_ (reg' & [= <-] & Hm)]. rewrite Ms in Hm. discriminate.
    + right. split; [reflexivity|]. split; [split|]; assumption.
Qed.

Lemma tag_rows_tagged f df :
  Forall (fun r => row_get (py "country") r = Some (VStr (f_country f))
                   /\ row_get (py "city") r = Some (VStr (f_city f))
                   /\ row_get (py "street") r = Some (VStr (f_street f))
                   /\ row_get (py "url") r = Some (VStr (f_aqicn_url f)))
         (tag_rows f df).
Proof.
  apply Forall_forall. intros r Hr. apply list_elem_of_In in Hr.
  apply tag_rows_In in Hr as (r0 & _ & ->).
  assert (N1 : py "url" <> py "country") by (vm_compute; discriminate).
  assert (N2 : py "street" <> py "country") by (vm_compute; discriminate).
  assert (N3 : py "city" <> py "country") by (vm_compute; discriminate).
  assert (N4 : py "url" <> py "city") by (vm_compute; discriminate).
  assert (N5 : py "street" <> py "city") by (vm_compute; discriminate).
  assert (N6 : py "url" <> py "street") by (vm_compute; discriminate).
  repeat split.
  - now rewrite !row_get_set_other, row_get_set_same by assumption.
  - now rewrite !row_get_set_other, row_get_set_same by assumption.
  - now rewrite row_get_set_other, row_get_set_same by assumption.
  - apply row_get_set_same.
Qed.

Lemma daily_weather_city city hourly daily :
  Daily.daily_weather city hourly = inr daily ->
  Forall (fun r => row_get (py "city") r = Some (VStr city)) daily.
Proof.
  unfold Daily.daily_weather. destruct (Daily.between_time_noon hourly); [discriminate|].
  intros [= <-]. unfold df_set. apply Forall_forall. intros r Hr.
  apply list_elem_of_In, in_map_iff in Hr as (r0 & <- & _). apply row_get_set_same.
Qed.

(** The frames that the daily update hands to the store carry the sensor's
    own identity, whatever the data sources returned: in every air-quality
    row the columns country, city, street and url hold the stripped registry
    fields, and in every weather row the column city holds the sensor's
    city. *)
Theorem daily_frames_carry_identity (E : Env) (cfg : Config) (row : SensorRow)
    (key : pystr) (w w1 : World) (f : SensorFields) (aq wx : DataFrame) :
  Daily.acquire E cfg row key w = (inr (f, aq, wx), w1) ->
  f = row_fields E row
  /\ Forall (fun r => row_get (py "country") r = Some (VStr (f_country f))
                      /\ row_get (py "city") r = Some (VStr (f_city f))
                      /\ row_get (py "street") r = Some (VStr (f_street f))
                      /\ row_get (py "url") r = Some (VStr (f_aqicn_url f))) aq
  /\ Forall (fun r => row_get (py "city") r = Some (VStr (f_city f))) wx.
Proof.
  intros H.
  destruct (daily_acquire_inr E cfg row key w f aq wx w1 H) as [Hf (hourly & _ & Hd)].
  split; [exact Hf|]. split; [|exact (daily_weather_city _ _ _ Hd)].
  unfold Daily.acquire in H.
  apply bind_inr in H as (f0 & w0 & Hr & H).
  apply read_fields_inr in Hr as [-> ->].
  do 7 (apply bind_inr in H as (? & ? & _ & H)).
  apply ret_inr in H as [H _]. injection H as _ H2 _. subst aq. rewrite Hf.
  apply tag_rows_tagged.
Qed.

Lemma daily_frames_carry_identity_witness :
  let row := fillna_row Ref.header (Ref.sensor_cells (Some (py " Schottenfeldgasse "))) in
  let cfg := Ref.config (mkRegistry Ref.header []) in
  exists f aq wx w1,
    Daily.acquire Ref.E0 cfg row (py "k3y") Ref.empty_world = (inr (f, aq, wx), w1)
    /\ f_street f = py "Schottenfeldgasse"
    /\ Forall (fun r => row_get (py "city") r = Some (VStr (f_city f))) wx.
Proof.
  intros row cfg.
  destruct (Daily.acquire Ref.E0 cfg row (py "k3y") Ref.empty_world)
    as [[e|[[f aq] wx]] w1] eqn:P; [vm_compute in P; discriminate|].
  exists f, aq, wx, w1. split; [reflexivity|].
  destruct (daily_frames_carry_identity Ref.E0 cfg row (py "k3y") Ref.empty_world w1
              f aq wx P) as (Hf & _ & Hwx).
  split; [|exact Hwx]. rewrite Hf. vm_compute. reflexivity.
Defined.

(** ** The token check of the stand-alone backfill *)

(** The pm25 request that the stand-alone backfill issues to test the key. *)
Lemma validate_token_rest_error E cfg api_key w e :
  get_pm25 E (AQICN_URL cfg) (AQICN_COUNTRY cfg) (AQICN_CITY cfg) (AQICN_STREET cfg)
    (today cfg) api_key = inl e ->
  exn_class e = RestAPIError ->
  SingleSensor.validate_token E cfg api_key w
  = (inr tt,
     set_stdout
       (fun out => out ++ [py "AQICN_API_KEY failed for your sensor. Check the key and sensor URL."])
       w).
Proof.
  intros Hp Hc. unfold SingleSensor.validate_token, SingleSensor.settings_fields.
  cbn [f_aqicn_url f_country f_city f_street].
  unfold SingleSensor.try_except_rest, bind, lift. rewrite Hp.
  destruct e as [cls msg]. simpl in Hc. subst cls. reflexivity.
Qed.

Lemma validate_token_other_error E cfg api_key w e :
  get_pm25 E (AQICN_URL cfg) (AQICN_COUNTRY cfg) (AQICN_CITY cfg) (AQICN_STREET cfg)
    (today cfg) api_key = inl e ->
  exn_class e <> RestAPIError ->
  SingleSensor.validate_token E cfg api_key w = (inl e, w).
Proof.
  intros Hp Hc. unfold SingleSensor.validate_token, SingleSensor.settings_fields.
  cbn [f_aqicn_url f_country f_city f_street].
  unfold SingleSensor.try_except_rest, bind, lift. rewrite Hp.
  destruct e as [[] msg]; simpl in Hc; try reflexivity. now destruct Hc.
Qed.

(** The stand-alone backfill tolerates exactly one kind of failure of its
    token check.  When the pm25 request raises [RestAPIError], the check
    returns with one line of report on the console, and the script goes on:
    it ends as the rest of the script, from the loading of the historical
    file on, ends after that line.  Any other exception of the request ends
    the script in an error before a feature group is touched. *)
Theorem token_check_tolerates_rest_error_only (E : Env) (cfg : Config)
    (api_key : pystr) (w : World) (e : Exn) :
  get_pm25 E (AQICN_URL cfg) (AQICN_COUNTRY cfg) (AQICN_CITY cfg) (AQICN_STREET cfg)
    (today cfg) api_key = inl e ->
  (exn_class e <> RestAPIError ->
     exists e' w1,
       SingleSensor.body E cfg api_key w = (inl e', w1)
       /\ feature_groups w1 = feature_groups w)
  /\ (exn_class e = RestAPIError ->
      forall w1,
        SingleSensor.replace_secret E (py "AQICN_API_KEY") api_key
          (set_stdout (fun out => out ++ [py "Found AQICN_API_KEY: " ++ api_key]) w)
        = (inr tt, w1) ->
        let reported :=
          set_stdout
            (fun out => out ++ [py "AQICN_API_KEY failed for your sensor. Check the key and sensor URL."])
            w1 in
        SingleSensor.validate_token E cfg api_key w1 = (inr tt, reported)
        /\ SingleSensor.body E cfg api_key w = SingleSensor.ingest E cfg reported).
Proof.
  intros Hp. split.
  - intros Hc. unfold SingleSensor.body.
    unfold bind at 1. rewrite print_world. unfold bind at 1.
    pose proof (grp_replace_secret E (py "AQICN_API_KEY") api_key
                  (set_stdout (fun out => out ++ [py "Found AQICN_API_KEY: " ++ api_key]) w))
      as G.
    destruct (SingleSensor.replace_secret E (py "AQICN_API_KEY") api_key _)
      as [[e1|[]] w1]; cbn [snd] in G.
    + exists e1, w1. split; [reflexivity | exact G].
    + unfold bind at 1.
      rewrite (validate_token_other_error E cfg api_key w1 e Hp Hc).
      exists e, w1. split; [reflexivity | exact G].
  - intros Hc w1 Hr reported.
    pose proof (validate_token_rest_error E cfg api_key w1 e Hp Hc) as Hv.
    split; [exact Hv|]. unfold SingleSensor.body.
    unfold bind at 1. rewrite print_world. unfold bind at 1. rewrite Hr.
    unfold bind at 1. now rewrite Hv.
Qed.

Lemma token_check_tolerates_rest_error_only_witness :
  let refused := mkExn RestAPIError (py "Invalid key") in
  let E := Ref.env_of (inl refused) STRICT true (10 # 1) (0 # 1) [] in
  let cfg := Ref.config (mkRegistry Ref.header []) in
  let w1 := mkWorld [mkSecret (py "AQICN_API_KEY") (py "k3y")] ∅
              [py "Found AQICN_API_KEY: k3y"] [] in
  (get_pm25 E (AQICN_URL cfg) (AQICN_COUNTRY cfg) (AQICN_CITY cfg) (AQICN_STREET cfg)
     (today cfg) (py "k3y") = inl refused
   /\ exn_class refused = RestAPIError
   /\ SingleSensor.replace_secret E (py "AQICN_API_KEY") (py "k3y")
        (set_stdout (fun out => out ++ [py "Found AQICN_API_KEY: " ++ py "k3y"])
           Ref.empty_world)
      = (inr tt, w1))
  /\ SingleSensor.body E cfg (py "k3y") Ref.empty_world
     = SingleSensor.ingest E cfg
         (set_stdout
            (fun out => out ++ [py "AQICN_API_KEY failed for your sensor. Check the key and sensor URL."])
            w1)
  /\ fst (SingleSensor.body E cfg (py "k3y") Ref.empty_world) = inr tt.
Proof.
  intros refused E cfg w1.
  assert (H1 : get_pm25 E (AQICN_URL cfg) (AQICN_COUNTRY cfg) (AQICN_CITY cfg)
                 (AQICN_STREET cfg) (today cfg) (py "k3y") = inl refused) by reflexivity.
  assert (H2 : exn_class refused = RestAPIError) by reflexivity.
  assert (H3 : SingleSensor.replace_secret E (py "AQICN_API_KEY") (py "k3y")
                 (set_stdout (fun out => out ++ [py "Found AQICN_API_KEY: " ++ py "k3y"])
                    Ref.empty_world)
               = (inr tt, w1)) by (vm_compute; reflexivity).
  split; [repeat split; assumption|]. split.
  - exact (proj2 (proj2 (token_check_tolerates_rest_error_only E cfg (py "k3y")
                           Ref.empty_world refused H1) H2 w1 H3)).
  - vm_compute. reflexivity.
Defined.

(** ** The secrets of a sensor *)

Lemma print_inr line w a w' :
  print line w = (inr a, w') -> secrets w' = secrets w /\ faults w' = faults w.
Proof. rewrite print_world. now intros [= _ <-]. Qed.

Lemma print_all_inr lines w a w' :
  print_all lines w = (inr a, w') -> secrets w' = secrets w /\ faults w' = faults w.
Proof. unfold print_all. now intros [= _ <-]. Qed.

Lemma load_aq_inr E cfg f w df w' :
  Backfill.load_aq E cfg f w = (inr df, w') ->
  secrets w' = secrets w /\ faults w' = faults w.
Proof.
  unfold Backfill.load_aq. intros H.
  apply bind_inr in H as (? & ? & Hl & H). apply lift_inr in Hl as [_ ->].
  apply bind_inr in H as (? & ? & Hp & H). apply print_all_inr in Hp as [Hs Hf].
  do 3 (apply bind_inr in H as (? & ? & Hl & H); apply lift_inr in Hl as [_ ->]).
  apply ret_inr in H as [_ ->]. now split.
Qed.

Lemma key_ne_location s : py "SENSOR_LOCATION_JSON_" ++ s <> py "AQICN_API_KEY".
Proof. intros H. vm_compute in H. discriminate. Qed.

(** After a sensor's backfill has passed its secrets against a store that
    answers every call, the store holds exactly one [AQICN_API_KEY] record,
    with the key of the run, and exactly one [SENSOR_LOCATION_JSON_<slug>]
    record, with the sensor's location, provided it held at most one of each
    before. *)
Theorem backfill_leaves_two_secrets (E : Env) (cfg : Config) (row : SensorRow)
    (key : pystr) (w w1 : World) (f : SensorFields) (aq wx : DataFrame) :
  Backfill.prepare E cfg row key w = (inr (f, aq, wx), w1) ->
  faults w = [] ->
  (length (List.filter (has_name (py "AQICN_API_KEY")) (secrets w)) <= 1)%nat ->
  (length (List.filter (has_name (py "SENSOR_LOCATION_JSON_" ++ slug E (f_street f)))
             (secrets w)) <= 1)%nat ->
  List.filter (has_name (py "AQICN_API_KEY")) (secrets w1)
  = [mkSecret (py "AQICN_API_KEY") key]
  /\ List.filter (has_name (py "SENSOR_LOCATION_JSON_" ++ slug E (f_street f)))
       (secrets w1)
     = [mkSecret (py "SENSOR_LOCATION_JSON_" ++ slug E (f_street f)) (location_json E f)].
Proof.
  intros H Hf Hk Hl.
  pose proof (backfill_prepare_inr E cfg row key w f aq wx w1 H) as Hfields.
  unfold Backfill.prepare in H. cbv zeta in H.
  apply bind_inr in H as (f0 & w0 & Hr & H).
  apply read_fields_inr in Hr as [-> ->]. rewrite <- Hfields in *.
  apply bind_inr in H as (? & wp & Hp & H). apply print_inr in Hp as [Sp Fp].
  apply bind_inr in H as (df & wl & Hload & H). apply load_aq_inr in Hload as [Sl Fl].
  apply bind_inr in H as (? & ? & He & H). apply lift_inr in He as [_ ->].
  apply bind_inr in H as (? & ? & Hw & H). apply lift_inr in Hw as [_ ->].
  apply bind_inr in H as ([] & wa & Hs1 & H).
  apply bind_inr in H as ([] & wb & Hs2 & H).
  apply ret_inr in H as [_ ->].
  assert (Fl0 : faults wl = []) by congruence.
  assert (Sl0 : secrets wl = secrets w) by congruence.
  rewrite <- Sl0 in Hk, Hl.
  destruct (save_secret_reliable E (py "AQICN_API_KEY") key wl Fl0 Hk)
    as (wa' & Q1 & Fa & Ra).
  rewrite Q1 in Hs1. injection Hs1 as ->.
  pose proof (save_secret_others E (py "AQICN_API_KEY") key
                (py "SENSOR_LOCATION_JSON_" ++ slug E (f_street f)) wl
                (key_ne_location _)) as [Oa _].
  rewrite Q1 in Oa. cbn [snd] in Oa. rewrite <- Oa in Hl.
  destruct (save_secret_reliable E (py "SENSOR_LOCATION_JSON_" ++ slug E (f_street f))
              (location_json E f) wa Fa Hl) as (wb' & Q2 & _ & Rb).
  rewrite Q2 in Hs2. injection Hs2 as ->.
  split; [|exact Rb].
  pose proof (save_secret_others E (py "SENSOR_LOCATION_JSON_" ++ slug E (f_street f))
                (location_json E f) (py "AQICN_API_KEY") wa
                (fun Heq => key_ne_location _ (eq_sym Heq))) as [Ob _].
  rewrite Q2 in Ob. cbn [snd] in Ob. now rewrite Ob.
Qed.

Lemma backfill_leaves_two_secrets_witness :
  let row := fillna_row Ref.header (Ref.sensor_cells (Some (py "Schottenfeldgasse"))) in
  let cfg := Ref.config (mkRegistry Ref.header []) in
  let w := mkWorld [mkSecret (py "AQICN_API_KEY") (py "old")] ∅ [] [] in
  exists f aq wx w1,
    Backfill.prepare Ref.E0 cfg row (py "k3y") w = (inr (f, aq, wx), w1)
    /\ List.filter (has_name (py "AQICN_API_KEY")) (secrets w1)
       = [mkSecret (py "AQICN_API_KEY") (py "k3y")].
Proof.
  intros row cfg w.
  destruct (Backfill.prepare Ref.E0 cfg row (py "k3y") w)
    as [[e|[[f aq] wx]] w1] eqn:P; [vm_compute in P; discriminate|].
  exists f, aq, wx, w1. split; [reflexivity|].
  refine (proj1 (backfill_leaves_two_secrets Ref.E0 cfg row (py "k3y") w w1 f aq wx
                   P eq_refl _ _)).
  - vm_compute. lia.
  - rewrite (backfill_prepare_inr _ _ _ _ _ _ _ _ _ P). vm_compute. lia.
Defined.
